(** * Ada83 identifier-expansion scripts: a shallow embedding

    The repository is a family of Python scripts that rewrite the text of
    one C file ([ada83.c]) with cascades of [re.sub] calls, exact-string
    patches ([str.replace] under an [in] guard) and a line-based spacing
    pass.  This development embeds the scripts as functions on text, with
    a small model of files and output streams around them, and proves what
    the scripts do and do not guarantee.

    Text is a [string] (a sequence of [ascii] characters); the engine works
    on [list ascii].  Character classes follow what Python's [re] does on
    code points below 128: [\w] is [[a-zA-Z0-9_]], [\s] is the ASCII white
    space of [str.isspace]; on other characters Python follows Unicode,
    and the statements that depend on a class next to an arbitrary
    character are stated for ASCII text.  A file is the text that
    Python's text-mode [read] returns and [write] takes; what lies between
    that text and the bytes (the newline translation, the encoding the
    environment chooses) is in [TextIO].

    Layout: the [re] engine and the pattern reader ([Re]); the string and
    list built-ins ([Py]); files, arguments and streams ([IO]) and text
    mode ([TextIO]); one module per script, with its tables in source
    order; the vocabulary of the properties; then the facts and the
    theorems. *)

From Stdlib Require Import String Ascii List Bool Arith Lia Permutation.
Import ListNotations.

Local Open Scope list_scope.

(* ================================================================== *)
(** * Python's [re] module, as far as the scripts use it *)
(* ================================================================== *)

Module Re.

Definition code (c : ascii) : nat := nat_of_ascii c.

Definition in_range (lo hi c : ascii) : bool :=
  (code lo <=? code c) && (code c <=? code hi).

Definition is_digit (c : ascii) : bool := in_range "0" "9" c.

(** [\w] *)
Definition is_word (c : ascii) : bool :=
  in_range "a" "z" c || in_range "A" "Z" c || is_digit c || Ascii.eqb c "_".

(** [\s]: tab, LF, VT, FF, CR, the separators 28..31 and the space. *)
Definition is_space (c : ascii) : bool :=
  ((9 <=? code c) && (code c <=? 13))
  || ((28 <=? code c) && (code c <=? 31))
  || (code c =? 32).

(** Members of a character set [[...]]. *)
Inductive citem : Type :=
| IChar (c : ascii)
| IRange (lo hi : ascii)
| IWord
| ISpace
| IDigit.

Definition citem_mem (i : citem) (c : ascii) : bool :=
  match i with
  | IChar x => Ascii.eqb c x
  | IRange lo hi => in_range lo hi c
  | IWord => is_word c
  | ISpace => is_space c
  | IDigit => is_digit c
  end.

(** The pattern language of the scripts. *)
Inductive regex : Type :=
| Empty
| Lit (c : ascii)
| Any
| CSet (neg : bool) (items : list citem)
| Cat (r1 r2 : regex)
| Alt (r1 r2 : regex)
| Star (r : regex)
| Group (n : nat) (r : regex)
| Bound
| Bol
| Ahead (neg : bool) (r : regex).

Definition Plus (r : regex) : regex := Cat r (Star r).
Definition Opt (r : regex) : regex := Alt r Empty.

(** Matcher state: the character before the cursor (for [\b] and [^]),
    the text from the cursor on, and the captured groups, latest first. *)
Record mstate : Type := MState {
  before : option ascii;
  rest : list ascii;
  caps : list (nat * list ascii)
}.

Definition word_before (st : mstate) : bool :=
  match before st with Some c => is_word c | None => false end.

Definition word_after (st : mstate) : bool :=
  match rest st with c :: _ => is_word c | [] => false end.

Definition step_char (p : ascii -> bool) (st : mstate)
    (k : mstate -> option mstate) : option mstate :=
  match rest st with
  | c :: t => if p c then k (MState (Some c) t (caps st)) else None
  | [] => None
  end.

Definition consumed (st st' : mstate) : list ascii :=
  firstn (length (rest st) - length (rest st')) (rest st).

(** The greedy loop of [r*]: [body] is one match of [r]; it is tried first
    and, when the rest of the pattern fails after it, the loop gives way to
    the continuation.  An iteration that consumes nothing is abandoned, so
    the length of the remaining text bounds the number of iterations. *)
Fixpoint star_loop (body : mstate -> (mstate -> option mstate) -> option mstate)
    (k : mstate -> option mstate) (fuel : nat) (st : mstate) {struct fuel}
    : option mstate :=
  match fuel with
  | 0 => k st
  | S fuel' =>
      match body st
              (fun st' =>
                 if length (rest st') <? length (rest st)
                 then star_loop body k fuel' st' else None) with
      | Some res => Some res
      | None => k st
      end
  end.

(** Backtracking matcher in continuation-passing style: alternatives are
    tried left to right, [Star] is greedy.  [dotall] is the [re.DOTALL]
    flag. *)
Fixpoint run (dotall : bool) (r : regex) (st : mstate)
    (k : mstate -> option mstate) {struct r} : option mstate :=
  match r with
  | Empty => k st
  | Lit c => step_char (Ascii.eqb c) st k
  | Any => step_char (fun x => dotall || negb (Ascii.eqb x "010")) st k
  | CSet neg items =>
      step_char (fun x => xorb neg (existsb (fun i => citem_mem i x) items)) st k
  | Cat r1 r2 => run dotall r1 st (fun st' => run dotall r2 st' k)
  | Alt r1 r2 =>
      match run dotall r1 st k with
      | Some res => Some res
      | None => run dotall r2 st k
      end
  | Star r1 => star_loop (run dotall r1) k (length (rest st)) st
  | Group n r1 =>
      run dotall r1 st
        (fun st' => k (MState (before st') (rest st')
                              ((n, consumed st st') :: caps st')))
  | Bound => if xorb (word_before st) (word_after st) then k st else None
  | Bol => match before st with None => k st | Some _ => None end
  | Ahead neg r1 =>
      match run dotall r1 st Some with
      | Some st' =>
          if neg then None else k (MState (before st) (rest st) (caps st'))
      | None => if neg then k st else None
      end
  end.

(** One match attempt at the cursor: the text matched, the text left and
    the groups. *)
Definition match_here (dotall : bool) (r : regex) (prev : option ascii)
    (s : list ascii) : option mstate :=
  run dotall r (MState prev s []) Some.

Definition match_here_nonempty (dotall : bool) (r : regex)
    (prev : option ascii) (s : list ascii) : option mstate :=
  run dotall r (MState prev s [])
      (fun st' => if length (rest st') <? length s then Some st' else None).

(** Replacement templates: literal text and group references. *)
Inductive titem : Type :=
| TLit (c : ascii)
| TRef (n : nat).

Fixpoint lookup_group (n : nat) (cs : list (nat * list ascii)) : list ascii :=
  match cs with
  | [] => []
  | (m, txt) :: cs' => if n =? m then txt else lookup_group n cs'
  end.

Fixpoint expand (tpl : list titem) (cs : list (nat * list ascii)) : list ascii :=
  match tpl with
  | [] => []
  | TLit c :: tpl' => c :: expand tpl' cs
  | TRef n :: tpl' => lookup_group n cs ++ expand tpl' cs
  end.

(** [re.sub]: scan left to right; at each position not inside the previous
    match try the pattern; a match is replaced by the expanded template and
    the scan resumes after it ([skip] counts the characters of the current
    match still to be passed over).  An empty match is replaced too and the
    same position is then tried for a non-empty one, as CPython does. *)
Fixpoint sub_go (dotall : bool) (r : regex) (tpl : list titem) (skip : nat)
    (prev : option ascii) (s : list ascii) {struct s} : list ascii :=
  match s with
  | [] =>
      match skip with
      | 0 =>
          match match_here dotall r prev [] with
          | Some st' => expand tpl (caps st')
          | None => []
          end
      | S _ => []
      end
  | c :: t =>
      match skip with
      | S n => sub_go dotall r tpl n (Some c) t
      | 0 =>
          match match_here dotall r prev s with
          | None => c :: sub_go dotall r tpl 0 (Some c) t
          | Some st' =>
              match length s - length (rest st') with
              | S n => expand tpl (caps st') ++ sub_go dotall r tpl n (Some c) t
              | 0 =>
                  expand tpl (caps st') ++
                  match match_here_nonempty dotall r prev s with
                  | Some st2 =>
                      expand tpl (caps st2) ++
                      sub_go dotall r tpl
                        (length s - length (rest st2) - 1) (Some c) t
                  | None => c :: sub_go dotall r tpl 0 (Some c) t
                  end
              end
          end
      end
  end.

(** ** Compiling a pattern string

    A recursive-descent reader for the pattern syntax the scripts use:
    literals, escapes ([\b \w \s \d] and escaped punctuation), [.], [^],
    sets [[...]], groups [(...)], [(?:...)], look-ahead [(?=...)] and
    [(?!...)], alternation and the greedy quantifiers [* + ?].  Groups are
    numbered by their opening parenthesis.  Anything else ([$], lazy
    quantifiers, counted quantifiers and every unescaped brace, the
    escapes [\n] and [\t]) is outside this reader and refused with [None]:
    a [None] does not tell whether Python would compile the pattern.  No
    pattern embedded below is refused. *)

Definition esc_item (c : ascii) : citem :=
  if Ascii.eqb c "w" then IWord
  else if Ascii.eqb c "s" then ISpace
  else if Ascii.eqb c "d" then IDigit
  else IChar c.

Fixpoint parse_items (s : list ascii) : option (list citem * list ascii) :=
  match s with
  | [] => None
  | "]"%char :: s' => Some ([], s')
  | "\"%char :: c :: s' =>
      match parse_items s' with
      | Some (its, s'') => Some (esc_item c :: its, s'')
      | None => None
      end
  | a :: s' =>
      match s' with
      | "-"%char :: b :: s'' =>
          if Ascii.eqb b "]" then
            match parse_items s' with
            | Some (its, s3) => Some (IChar a :: its, s3)
            | None => None
            end
          else
            match parse_items s'' with
            | Some (its, s3) => Some (IRange a b :: its, s3)
            | None => None
            end
      | _ =>
          match parse_items s' with
          | Some (its, s3) => Some (IChar a :: its, s3)
          | None => None
          end
      end
  end.

Definition parse_set (s : list ascii) : option (regex * list ascii) :=
  match s with
  | "^"%char :: s' =>
      match parse_items s' with
      | Some (its, s'') => Some (CSet true its, s'')
      | None => None
      end
  | _ =>
      match parse_items s with
      | Some (its, s'') => Some (CSet false its, s'')
      | None => None
      end
  end.

Definition parse_escape (c : ascii) : option regex :=
  if Ascii.eqb c "b" then Some Bound
  else if Ascii.eqb c "w" then Some (CSet false [IWord])
  else if Ascii.eqb c "s" then Some (CSet false [ISpace])
  else if Ascii.eqb c "d" then Some (CSet false [IDigit])
  else if is_word c then None
  else Some (Lit c).

Definition cat (r1 r2 : regex) : regex :=
  match r2 with
  | Empty => r1
  | _ => Cat r1 r2
  end.

(** After an atom: an optional greedy quantifier.  A second quantifier
    character (which would make it lazy or be an error) is refused. *)
Definition parse_quant (a : regex) (s : list ascii) : option (regex * list ascii) :=
  let refuse_second (r : regex) (s' : list ascii) :=
    match s' with
    | "?"%char :: _ | "*"%char :: _ | "+"%char :: _ => None
    | _ => Some (r, s')
    end in
  match s with
  | "*"%char :: s' => refuse_second (Star a) s'
  | "+"%char :: s' => refuse_second (Plus a) s'
  | "?"%char :: s' => refuse_second (Opt a) s'
  | _ => Some (a, s)
  end.

Fixpoint parse_alt (fuel g : nat) (s : list ascii) {struct fuel}
    : option (regex * nat * list ascii) :=
  match fuel with
  | 0 => None
  | S fuel' =>
      match parse_seq fuel' g s with
      | Some (r1, g1, "|"%char :: s1) =>
          match parse_alt fuel' g1 s1 with
          | Some (r2, g2, s2) => Some (Alt r1 r2, g2, s2)
          | None => None
          end
      | res => res
      end
  end
with parse_seq (fuel g : nat) (s : list ascii) {struct fuel}
    : option (regex * nat * list ascii) :=
  match fuel with
  | 0 => None
  | S fuel' =>
      match s with
      | [] => Some (Empty, g, s)
      | "|"%char :: _ => Some (Empty, g, s)
      | ")"%char :: _ => Some (Empty, g, s)
      | _ =>
          match parse_atom fuel' g s with
          | Some (a, g1, s1) =>
              match parse_quant a s1 with
              | Some (a', s2) =>
                  match parse_seq fuel' g1 s2 with
                  | Some (r, g2, s3) => Some (cat a' r, g2, s3)
                  | None => None
                  end
              | None => None
              end
          | None => None
          end
      end
  end
with parse_atom (fuel g : nat) (s : list ascii) {struct fuel}
    : option (regex * nat * list ascii) :=
  match fuel with
  | 0 => None
  | S fuel' =>
      let closed (wrap : regex -> regex) (res : option (regex * nat * list ascii)) :=
        match res with
        | Some (r, g1, ")"%char :: s1) => Some (wrap r, g1, s1)
        | _ => None
        end in
      match s with
      | [] => None
      | "("%char :: "?"%char :: "!"%char :: s' =>
          closed (Ahead true) (parse_alt fuel' g s')
      | "("%char :: "?"%char :: "="%char :: s' =>
          closed (Ahead false) (parse_alt fuel' g s')
      | "("%char :: "?"%char :: ":"%char :: s' =>
          closed (fun r => r) (parse_alt fuel' g s')
      | "("%char :: "?"%char :: _ => None
      | "("%char :: s' => closed (Group (S g)) (parse_alt fuel' (S g) s')
      | "["%char :: s' =>
          match parse_set s' with
          | Some (r, s1) => Some (r, g, s1)
          | None => None
          end
      | "\"%char :: c :: s' =>
          match parse_escape c with
          | Some r => Some (r, g, s')
          | None => None
          end
      | "\"%char :: [] => None
      | "^"%char :: s' => Some (Bol, g, s')
      | "."%char :: s' => Some (Any, g, s')
      | "$"%char :: _ => None
      | "{"%char :: _ => None
      | "}"%char :: _ => None
      | "*"%char :: _ => None
      | "+"%char :: _ => None
      | "?"%char :: _ => None
      | c :: s' => Some (Lit c, g, s')
      end
  end.

(** [re.compile] *)
Definition compile (pattern : string) : option regex :=
  let s := list_ascii_of_string pattern in
  match parse_alt (3 * length s + 3) 0 s with
  | Some (r, _, []) => Some r
  | _ => None
  end.

(** The replacement string: [\1] ... [\99] are group references, [\n] a
    line feed, [\\] a backslash; everything else is literal.  Python
    raises [re.error] on an unknown letter escape and on a reference to a
    group that the pattern lacks, and reads [\0] and three digits as an
    octal code; no replacement of the scripts holds any of these (see
    [replacement_ok] below). *)
Fixpoint template_go (s : list ascii) : list titem :=
  match s with
  | [] => []
  | "\"%char :: c :: s' =>
      if Ascii.eqb c "n" then TLit "010" :: template_go s'
      else if Ascii.eqb c "\" then TLit "\" :: template_go s'
      else if is_digit c then
        match s' with
        | d :: s'' =>
            if is_digit d
            then TRef (10 * (code c - 48) + (code d - 48)) :: template_go s''
            else TRef (code c - 48) :: template_go s'
        | [] => [TRef (code c - 48)]
        end
      else TLit "\" :: TLit c :: template_go s'
  | c :: s' => TLit c :: template_go s'
  end.

Definition template (repl : string) : list titem :=
  template_go (list_ascii_of_string repl).

(** [re.sub(pattern, repl, string, flags=...)] for the patterns that
    [compile] reads.  Python raises [re.error] on a pattern or a
    replacement it cannot parse; the patterns and replacements of the
    scripts are constants that [compile] and [template] read (checked
    below), so the last branch is never taken by them. *)
Definition sub_flags (dotall : bool) (pattern repl : string) (s : string) : string :=
  match compile pattern with
  | Some r =>
      string_of_list_ascii
        (sub_go dotall r (template repl) 0 None (list_ascii_of_string s))
  | None => s
  end.

Definition sub : string -> string -> string -> string := sub_flags false.

(** [re.match(pattern, string)] as a truth value: a match at the start. *)
Definition matches (pattern : string) (s : string) : bool :=
  match compile pattern with
  | Some r =>
      match match_here false r None (list_ascii_of_string s) with
      | Some _ => true
      | None => false
      end
  | None => false
  end.

End Re.


(* ================================================================== *)
(** * Python built-ins used by the scripts *)
(* ================================================================== *)

Module Py.

Definition LF : ascii := "010"%char.

(** [s.startswith(p)] *)
Fixpoint prefix_of (p s : list ascii) : bool :=
  match p, s with
  | [], _ => true
  | _ :: _, [] => false
  | a :: p', b :: s' => Ascii.eqb a b && prefix_of p' s'
  end.

Fixpoint contains_go (p s : list ascii) : bool :=
  prefix_of p s ||
  match s with
  | [] => false
  | _ :: t => contains_go p t
  end.

(** [old in content] *)
Definition contains (old content : string) : bool :=
  contains_go (list_ascii_of_string old) (list_ascii_of_string content).

(** [content.replace(old, new)]: every non-overlapping occurrence, left to
    right; [skip] counts the characters of the current occurrence still to
    be passed over. *)
Fixpoint replace_go (old new : list ascii) (skip : nat) (s : list ascii)
    : list ascii :=
  match s with
  | [] =>
      match skip, old with
      | 0, [] => new
      | _, _ => []
      end
  | c :: t =>
      match skip with
      | S n => replace_go old new n t
      | 0 =>
          if prefix_of old s then
            match length old with
            | 0 => new ++ c :: replace_go old new 0 t
            | S n => new ++ replace_go old new n t
            end
          else c :: replace_go old new 0 t
      end
  end.

Definition replace (content old new : string) : string :=
  string_of_list_ascii
    (replace_go (list_ascii_of_string old) (list_ascii_of_string new) 0
       (list_ascii_of_string content)).

(** [content.find(p)]: index of the first occurrence ([None] for -1). *)
Fixpoint find_go (p s : list ascii) (i : nat) : option nat :=
  if prefix_of p s then Some i
  else match s with
       | [] => None
       | _ :: t => find_go p t (S i)
       end.

Definition find (content p : string) : option nat :=
  find_go (list_ascii_of_string p) (list_ascii_of_string content) 0.

(** [content[i:j]] for [0 <= i <= j] *)
Definition slice (content : string) (i j : nat) : string :=
  string_of_list_ascii (firstn (j - i) (skipn i (list_ascii_of_string content))).

(** [code.split('\n')] *)
Fixpoint split_go (s : list ascii) : list (list ascii) :=
  match s with
  | [] => [[]]
  | c :: t =>
      if Ascii.eqb c LF then [] :: split_go t
      else match split_go t with
           | l :: ls => (c :: l) :: ls
           | [] => [[c]]
           end
  end.

Definition split_lines (code : string) : list string :=
  map string_of_list_ascii (split_go (list_ascii_of_string code)).

(** ['\n'.join(lines)] *)
Fixpoint join_lines (lines : list string) : string :=
  match lines with
  | [] => EmptyString
  | [l] => l
  | l :: ls => (l ++ String LF (join_lines ls))%string
  end.

(** [f.readlines()]: the lines with their terminators. *)
Fixpoint readlines_go (s : list ascii) : list (list ascii) :=
  match s with
  | [] => []
  | c :: t =>
      if Ascii.eqb c LF then [c] :: readlines_go t
      else match readlines_go t with
           | l :: ls => (c :: l) :: ls
           | [] => [[c]]
           end
  end.

Definition readlines (content : string) : list string :=
  map string_of_list_ascii (readlines_go (list_ascii_of_string content)).

(** [f.writelines(lines)] writes the concatenation. *)
Definition writelines (lines : list string) : string :=
  String.concat EmptyString lines.

(** [range(a, b)] *)
Definition range (a b : nat) : list nat := seq a (b - a).

(** [lines[i] = v] for [i < len(lines)] *)
Fixpoint set_item {A : Type} (l : list A) (i : nat) (v : A) : list A :=
  match l, i with
  | [], _ => []
  | _ :: t, 0 => v :: t
  | x :: t, S j => x :: set_item t j v
  end.

(** A [dict] with string keys keeps its items in insertion order; storing
    under a key already present overwrites the value in place.  A dict
    display [{k1: v1, k2: v2, ...}] stores its items left to right. *)
Fixpoint dict_set (d : list (string * string)) (k v : string)
    : list (string * string) :=
  match d with
  | [] => [(k, v)]
  | (k', v') :: d' =>
      if String.eqb k k' then (k, v) :: d' else (k', v') :: dict_set d' k v
  end.

Definition dict_of (items : list (string * string)) : list (string * string) :=
  fold_left (fun d kv => dict_set d (fst kv) (snd kv)) items [].

(** [s.isascii()]: every character is below 128.  On such a text Python's
    classes [\w], [\s], [\d] and its [\b] are those of [Re]; on other
    characters Python follows Unicode and [Re] does not. *)
Definition isascii (s : string) : bool :=
  forallb (fun c => nat_of_ascii c <? 128) (list_ascii_of_string s).

End Py.

(** A cascade of [code = re.sub(pattern, repl, code)] statements, in
    source order. *)
Definition apply_subs (subs : list (string * string)) (code : string) : string :=
  fold_left (fun c pr => Re.sub (fst pr) (snd pr) c) subs code.

(* ================================================================== *)
(** * Files, arguments and output streams *)
(* ================================================================== *)

Module IO.

Inductive exn : Type :=
| FileNotFoundError (path : string).

(** How a script ends: normally, through [sys.exit], or with an uncaught
    exception. *)
Inductive outcome (A : Type) : Type :=
| Done (a : A)
| Exit (status : nat)
| Raised (e : exn).
Arguments Done {A} a.
Arguments Exit {A} status.
Arguments Raised {A} e.

(** What a run can see and change.  A file is the text that text-mode
    [read] returns and [write] takes, and a stream is the text printed on
    it: the world is one of texts, not of bytes ([TextIO] below has the
    newline translation and the encodings that lie between the two).
    [clock], [seed] and [environ] stand for the time of day, the random
    generator and the process environment: no script imports [time],
    [random] or [os], so no script reads them. *)
Record world : Type := World {
  files : string -> option string;
  argv : list string;
  stdout : string;
  stderr : string;
  clock : nat;
  seed : nat;
  environ : string -> option string
}.

Definition io (A : Type) : Type := world -> outcome A * world.

Definition ret {A : Type} (a : A) : io A := fun w => (Done a, w).

Definition bind {A B : Type} (m : io A) (f : A -> io B) : io B :=
  fun w =>
    match m w with
    | (Done a, w') => f a w'
    | (Exit n, w') => (Exit n, w')
    | (Raised e, w') => (Raised e, w')
    end.

Definition update (fs : string -> option string) (path text : string)
    : string -> option string :=
  fun p => if String.eqb p path then Some text else fs p.

(** [with open(path, 'r') as f: ... f.read()] *)
Definition read_file (path : string) : io string :=
  fun w =>
    match files w path with
    | Some text => (Done text, w)
    | None => (Raised (FileNotFoundError path), w)
    end.

(** [with open(path, 'w') as f: f.write(text)] *)
Definition write_file (path text : string) : io unit :=
  fun w =>
    match w with
    | World fs args out err c s env =>
        (Done tt, World (update fs path text) args out err c s env)
    end.

(** [print(text)] *)
Definition print (text : string) : io unit :=
  fun w =>
    match w with
    | World fs args out err c s env =>
        (Done tt,
         World fs args (out ++ text ++ String Py.LF EmptyString) err c s env)
    end.

(** [print(text, file=sys.stderr)] *)
Definition eprint (text : string) : io unit :=
  fun w =>
    match w with
    | World fs args out err c s env =>
        (Done tt,
         World fs args out (err ++ text ++ String Py.LF EmptyString) c s env)
    end.

Definition sys_argv : io (list string) := fun w => (Done (argv w), w).

Definition sys_exit {A : Type} (status : nat) : io A := fun w => (Exit status, w).

(** The world when the code of the script stops.  What the interpreter
    does after an uncaught exception (it prints a traceback on the
    standard error) is not part of it. *)
Definition exec {A : Type} (m : io A) (w : world) : world := snd (m w).

Definition result {A : Type} (m : io A) (w : world) : outcome A := fst (m w).

End IO.

(* ================================================================== *)
(** * Text mode: between the texts and the bytes *)
(* ================================================================== *)

(** The scripts open their files in text mode and print text.  Between a
    text and the bytes of a file or of the standard output stand Python's
    newline translation and an encoding that no script chooses: [open]
    takes the locale's, the standard streams take the one that
    [PYTHONIOENCODING] names when it is set.  Characters are code points
    below 256; POSIX is assumed, as the paths of the scripts do. *)
Module TextIO.

Definition CR : ascii := "013"%char.

(** Reading with the default [newline=None]: the line ends CR LF and CR
    are read as LF. *)
Fixpoint universal_newlines (s : list ascii) : list ascii :=
  match s with
  | [] => []
  | c :: t =>
      if Ascii.eqb c CR then
        Py.LF :: match t with
                 | d :: t' =>
                     if Ascii.eqb d Py.LF then universal_newlines t'
                     else universal_newlines t
                 | [] => []
                 end
      else c :: universal_newlines t
  end.

(** The text that [f.read()] returns for a file whose characters are
    [chars]. *)
Definition read_text (chars : string) : string :=
  string_of_list_ascii (universal_newlines (list_ascii_of_string chars)).

(** The characters that [f.write(text)] stores: where [os.linesep] is LF,
    the text itself. *)
Definition write_text (text : string) : string := text.

(** No carriage return among the characters. *)
Definition cr_free (chars : string) : bool :=
  forallb (fun c => negb (Ascii.eqb c CR)) (list_ascii_of_string chars).







End TextIO.

Declare Scope io_scope.
Delimit Scope io_scope with io.
Notation "x <- m ;; k" := (IO.bind m (fun x => k))
  (at level 61, m at next level, right associativity) : io_scope.
Notation "m ;; k" := (IO.bind m (fun _ => k))
  (at level 61, right associativity) : io_scope.

(** The double quote, which the patched C fragments contain. *)
Definition dq : string := String (ascii_of_nat 34) EmptyString.

(** The line feed. *)
Definition nl : string := String Py.LF EmptyString.

(* ================================================================== *)
(** * The scripts *)
(* ================================================================== *)

Local Open Scope io_scope.

(** ** fix_bigint_fields.py *)

Module fix_bigint_fields.

Definition path : string := "ada83.c".

(** [start_line = 73] (line 74 in 1-indexed), [end_line = 307]. *)
Definition start_line : nat := 73.
Definition end_line : nat := 307.

(** The eight substitutions of the loop body, in order. *)
Definition subs : list (string * string) := [
  ("(\w+)->d\b(?!\w)", "\1->digits");
  ("(\w+)->n\b(?!\w)", "\1->count");
  ("(\w+)->c\b(?!\w)", "\1->capacity");
  ("(\w+)->s\b(?!\w)", "\1->is_negative");
  ("(\w+)\.d\b(?!\w)", "\1.digits");
  ("(\w+)\.n\b(?!\w)", "\1.count");
  ("(\w+)\.c\b(?!\w)", "\1.capacity");
  ("(\w+)\.s\b(?!\w)", "\1.is_negative")
]%string.

Definition fix_line (line : string) : string := apply_subs subs line.

(** [for i in range(start_line, min(end_line, len(lines))):
       line = lines[i]; ...; lines[i] = line] *)
Definition loop (lines : list string) : list string :=
  fold_left
    (fun ls i =>
       match nth_error ls i with
       | Some line => Py.set_item ls i (fix_line line)
       | None => ls
       end)
    (Py.range start_line (Nat.min end_line (length lines)))
    lines.

(** The text written back for a file holding [content]. *)
Definition rewrite (content : string) : string :=
  Py.writelines (loop (Py.readlines content)).

Definition main : IO.io unit :=
  content <- IO.read_file path ;;
  IO.write_file path (rewrite content) ;;
  IO.print "Fixed Unsigned_Big_Integer fields in lines 74-307".

End fix_bigint_fields.

(** ** fix_string_slice_fields.py *)

Module fix_string_slice_fields.

Definition path : string := "ada83.c".

Definition subs : list (string * string) := [
  ("(\ba\.)n\b", "\1length");
  ("(\bb\.)n\b", "\1length");
  ("(\bs\.)n\b", "\1length");
  ("(\ba\.)s\b", "\1string");
  ("(\bb\.)s\b", "\1string");
  ("(\bs\.)s\b", "\1string");
  ("(KW\[i\]\.)k\b", "\1keyword")
]%string.

Definition rewrite (code : string) : string := apply_subs subs code.

Definition main : IO.io unit :=
  code <- IO.read_file path ;;
  IO.write_file path (rewrite code) ;;
  IO.print "Fixed String_Slice fields".

End fix_string_slice_fields.

(** ** fix_source_location.py *)

Module fix_source_location.

Definition path : string := "ada83.c".

Definition subs : list (string * string) := [
  ("\blc\.l\b", "lc.line");
  ("\blc\.c\b", "lc.column");
  ("\blc\.f\b", "lc.filename");
  ("\bl\.l\b", "l.line");
  ("\bl\.c\b", "l.column");
  ("\bl\.f\b", "l.filename");
  ("\bloc\.l\b", "loc.line");
  ("\bloc\.c\b", "loc.column");
  ("\bloc\.f\b", "loc.filename");
  ("KW\[i\]\.keyword\.s", "KW[i].keyword.string");
  ("KW\[i\]\.t\b", "KW[i].token_kind")
]%string.

Definition rewrite (code : string) : string := apply_subs subs code.

Definition main : IO.io unit :=
  code <- IO.read_file path ;;
  IO.write_file path (rewrite code) ;;
  IO.print "Fixed Source_Location and KW fields".

End fix_source_location.

(** ** fix_field_accesses.py *)

Module fix_field_accesses.

(** The [re.sub] statements of [fix_field_accesses], in source order. *)
Definition subs : list (string * string) := [
  ("->d\b", "->digits");
  ("\.d\b", ".digits");
  ("->n\b", "->count");
  ("\.n\b", ".count");
  ("->c\b", "->capacity");
  ("\.c\b", ".capacity");
  ("->s\b", "->is_negative");
  ("\.s\b", ".is_negative");
  ("->lo\b", "->low_bound");
  ("\.lo\b", ".low_bound");
  ("->hi\b", "->high_bound");
  ("\.hi\b", ".high_bound");
  ("->m\b", "->mutex");
  ("\.m\b", ".mutex");
  ("->cnt\b", "->count");
  ("\.cnt\b", ".count");
  ("->mx\b", "->maximum");
  ("\.mx\b", ".maximum");
  ("->t\b", "->thread");
  ("\.t\b", ".thread");
  ("->q\b", "->queue");
  ("\.q\b", ".queue");
  ("->b\b", "->base");
  ("\.b\b", ".base");
  ("->p\b", "->pointer");
  ("\.p\b", ".pointer");
  ("->e\b", "->end");
  ("\.e\b", ".end");
  ("->s\b", "->string");
  ("->n\b", "->length");
  ("->l\b", "->line");
  ("\.l\b", ".line");
  ("->f\b", "->filename");
  ("\.f\b", ".filename");
  ("->iv\b", "->integer_value");
  ("\.iv\b", ".integer_value");
  ("->fv\b", "->float_value");
  ("\.fv\b", ".float_value");
  ("->ui\b", "->unsigned_integer");
  ("\.ui\b", ".unsigned_integer");
  ("->ur\b", "->unsigned_rational");
  ("\.ur\b", ".unsigned_rational");
  ("->lit\b", "->literal");
  ("\.lit\b", ".literal");
  ("->ln\b", "->line_number");
  ("\.ln\b", ".line_number");
  ("->cl\b", "->column");
  ("\.cl\b", ".column");
  ("->pt\b", "->previous_token");
  ("\.pt\b", ".previous_token");
  ("->nm\b", "->name");
  ("\.nm\b", ".name");
  ("->bb\b", "->basic_block");
  ("\.bb\b", ".basic_block");
  ("->pth\b", "->path");
  ("\.pth\b", ".path");
  ("->sp\b", "->spec");
  ("\.sp\b", ".spec");
  ("->bd\b", "->body");
  ("\.bd\b", ".body");
  ("->wth\b", "->with_list");
  ("\.wth\b", ".with_list");
  ("->elb\b", "->elaborates");
  ("\.elb\b", ".elaborates");
  ("->ts\b", "->timestamp");
  ("\.ts\b", ".timestamp");
  ("->cmpl\b", "->complete");
  ("\.cmpl\b", ".complete");
  ("->fp\b", "->formal_parameters");
  ("\.fp\b", ".formal_parameters");
  ("->dc\b", "->declarations");
  ("\.dc\b", ".declarations");
  ("->un\b", "->unit");
  ("\.un\b", ".unit");
  ("->ty\b", "->type_info");
  ("\.ty\b", ".type_info");
  ("\.er\b", ".enum_rep");
  ("\.ad\b", ".address_clause");
  ("\.rr\b", ".record_rep");
  ("\.im\b", ".import_clause");
  ("->po\b", "->position");
  ("\.po\b", ".position");
  ("->cp\b", "->components");
  ("\.cp\b", ".components");
  ("->lang\b", "->language");
  ("\.lang\b", ".language");
  ("->ext\b", "->external_name");
  ("\.ext\b", ".external_name");
  ("->lx\b", "->lexer");
  ("\.lx\b", ".lexer");
  ("->cr\b", "->current_token");
  ("\.cr\b", ".current_token");
  ("->pk\b", "->peek_token");
  ("\.pk\b", ".peek_token");
  ("->er\b", "->error_count");
  ("\.er\b", ".error_count");
  ("->lb\b", "->label_stack");
  ("\.lb\b", ".label_stack");
  ("->k\b", "->kind");
  ("\.k\b", ".kind")
]%string.

Definition fix_field_accesses (code : string) : string := apply_subs subs code.

Definition main : IO.io unit :=
  args <- IO.sys_argv ;;
  if negb (length args =? 2) then
    IO.eprint "Usage: python3 fix_field_accesses.py ada83.c" ;;
    IO.sys_exit 1
  else
    code <- IO.read_file (nth 1 args EmptyString) ;;
    IO.eprint "Fixing field accesses..." ;;
    IO.print (fix_field_accesses code).

End fix_field_accesses.

(** ** apply_all_field_fixes.py *)

Module apply_all_field_fixes.

Definition path : string := "ada83.c".

(** The [re.sub] statements of [apply_all_fixes], in source order: the
    specific patterns and the generic [k], [nm], [bb], [ty] ... *)
Definition subs_specific : list (string * string) := [
  ("\.ui\b", ".unsigned_integer");
  ("->ui\b", "->unsigned_integer");
  ("\.ur\b", ".unsigned_rational");
  ("->ur\b", "->unsigned_rational");
  ("\.iv\b", ".integer_value");
  ("->iv\b", "->integer_value");
  ("\.fv\b", ".float_value");
  ("->fv\b", "->float_value");
  ("\.lit\b", ".literal");
  ("->lit\b", "->literal");
  ("->ln\b", "->line_number");
  ("\.ln\b", ".line_number");
  ("->cl\b", "->column");
  ("\.cl\b", ".column");
  ("->pt\b", "->previous_token");
  ("\.pt\b", ".previous_token");
  ("->lx\b", "->lexer");
  ("\.lx\b", ".lexer");
  ("->cr\b", "->current_token");
  ("\.cr\b", ".current_token");
  ("->pk\b", "->peek_token");
  ("\.pk\b", ".peek_token");
  ("->er\b", "->error_count");
  ("\.er\b", ".error_count");
  ("->lb\b", "->label_stack");
  ("\.lb\b", ".label_stack");
  ("->lo\b", "->low_bound");
  ("\.lo\b", ".low_bound");
  ("->hi\b", "->high_bound");
  ("\.hi\b", ".high_bound");
  ("->cnt\b", "->count");
  ("\.cnt\b", ".count");
  ("->mx\b", "->maximum");
  ("\.mx\b", ".maximum");
  ("->pth\b", "->path");
  ("\.pth\b", ".path");
  ("->sp\b", "->spec");
  ("\.sp\b", ".spec");
  ("->bd\b", "->body");
  ("\.bd\b", ".body");
  ("->wth\b", "->with_list");
  ("\.wth\b", ".with_list");
  ("->elb\b", "->elaborates");
  ("\.elb\b", ".elaborates");
  ("->ts\b", "->timestamp");
  ("\.ts\b", ".timestamp");
  ("->cmpl\b", "->complete");
  ("\.cmpl\b", ".complete");
  ("->fp\b", "->formal_parameters");
  ("\.fp\b", ".formal_parameters");
  ("->dc\b", "->declarations");
  ("\.dc\b", ".declarations");
  ("->un\b", "->unit");
  ("\.un\b", ".unit");
  ("\.er\b", ".enum_rep");
  ("\.ad\b", ".address_clause");
  ("\.rr\b", ".record_rep");
  ("\.im\b", ".import_clause");
  ("->po\b", "->position");
  ("\.po\b", ".position");
  ("->cp\b", "->components");
  ("\.cp\b", ".components");
  ("->lang\b", "->language");
  ("\.lang\b", ".language");
  ("->k\b", "->kind");
  ("\.k\b", ".kind");
  ("->nm\b", "->name");
  ("\.nm\b", ".name");
  ("->bb\b", "->basic_block");
  ("\.bb\b", ".basic_block");
  ("->ty\b", "->type_info");
  ("\.ty\b", ".type_info")
]%string.

(** ... the two-level [Token.location] patterns ... *)
Definition subs_location_chain : list (string * string) := [
  ("(\w+)\.l\.l\b", "\1.location.line");
  ("(\w+)\.l\.c\b", "\1.location.column");
  ("(\w+)\.l\.f\b", "\1.location.filename")
]%string.

(** ... and the stand-alone single letters, with their look-aheads. *)
Definition subs_standalone : list (string * string) := [
  ("->l\b(?!ocation|ine|ength|abel|anguage)", "->location");
  ("\.l\b(?!ocation|ine|ength|abel|anguage)", ".location");
  ("->f\b(?!ile|loat|ormal)", "->filename");
  ("\.f\b(?!ile|loat|ormal)", ".filename");
  ("->t\b(?!ype|ime|hread|oken)", "->kind");
  ("\.t\b(?!ype|ime|hread|oken)", ".kind");
  ("->s\b(?!t|pec|tring|ize|cope)", "->string");
  ("->n\b(?!ame|ext|ot)", "->count");
  ("\.n\b(?!ame|ext|ot)", ".count");
  ("->c\b(?!o|u|a)", "->capacity");
  ("\.c\b(?!o|u|a)", ".capacity");
  ("->d\b(?!a|e|i)", "->data");
  ("\.d\b(?!a|e|i)", ".data");
  ("->b\b(?!a|o|y)", "->base");
  ("\.b\b(?!a|o|y)", ".base");
  ("->p\b(?!a|o|r)", "->pointer");
  ("\.p\b(?!a|o|r)", ".pointer");
  ("->e\b(?!n|l|r|x)", "->end");
  ("\.e\b(?!n|l|r|x)", ".end");
  ("->m\b(?!a|u|o)", "->mutex");
  ("\.m\b(?!a|u|o)", ".mutex");
  ("->q\b(?!u)", "->queue");
  ("\.q\b(?!u)", ".queue")
]%string.

Definition subs : list (string * string) :=
  subs_specific ++ subs_location_chain ++ subs_standalone.

Definition apply_all_fixes (code : string) : string := apply_subs subs code.

Definition main : IO.io unit :=
  code <- IO.read_file path ;;
  IO.eprint "Applying comprehensive field access fixes..." ;;
  IO.write_file path (apply_all_fixes code) ;;
  IO.eprint "Done! Now testing compilation...".

End apply_all_field_fixes.

(** ** complete_expansion.py: the Arena step and Phase 2 of [expand_all] *)

Module complete_expansion.

Definition arena_pattern : string :=
  "typedef struct\s*\{\s*char \*b, \*p, \*e;\s*\} A;"%string.

Definition arena_repl : string :=
  ("typedef struct" ++ nl
   ++ "{" ++ nl
   ++ "  char *base, *pointer, *end;" ++ nl
   ++ "} Arena_Allocator;")%string.

(** [# Arena (A -> Arena_Allocator)]: the struct definition (with
    [flags=re.DOTALL]), then every stand-alone [A]. *)
Definition expand_arena (code : string) : string :=
  let code := Re.sub_flags true arena_pattern arena_repl code in
  Re.sub "\bA\b(?!\w)" "Arena_Allocator" code.

(** [# Phase 2: Fix ALL field accesses throughout the file]: the
    substitutions of lines 137 to 216, in order. *)
Definition field_subs : list (string * string) := [
  ("\.ui\b", ".unsigned_integer");
  ("->ui\b", "->unsigned_integer");
  ("\.ur\b", ".unsigned_rational");
  ("->ur\b", "->unsigned_rational");
  ("\.iv\b", ".integer_value");
  ("->iv\b", "->integer_value");
  ("\.fv\b", ".float_value");
  ("->fv\b", "->float_value");
  ("\.lit\b", ".literal");
  ("->lit\b", "->literal");
  ("->ln\b", "->line_number");
  ("\.ln\b", ".line_number");
  ("->cl\b", "->column");
  ("\.cl\b", ".column");
  ("->pt\b", "->previous_token");
  ("\.pt\b", ".previous_token");
  ("->lx\b", "->lexer");
  ("\.lx\b", ".lexer");
  ("->cr\b", "->current_token");
  ("\.cr\b", ".current_token");
  ("->pk\b", "->peek_token");
  ("\.pk\b", ".peek_token");
  ("->er\b", "->error_count");
  ("\.er\b", ".error_count");
  ("->lb\b", "->label_stack");
  ("\.lb\b", ".label_stack");
  ("->lo\b", "->low_bound");
  ("\.lo\b", ".low_bound");
  ("->hi\b", "->high_bound");
  ("\.hi\b", ".high_bound");
  ("->cnt\b", "->count");
  ("\.cnt\b", ".count");
  ("->mx\b", "->maximum");
  ("\.mx\b", ".maximum");
  ("->k\b", "->kind");
  ("\.k\b", ".kind");
  ("->nm\b", "->name");
  ("\.nm\b", ".name");
  ("->bb\b", "->basic_block");
  ("\.bb\b", ".basic_block");
  ("->ty\b", "->type_info");
  ("\.ty\b", ".type_info");
  ("(\w+)\.s\b(?!t|p|i|y)", "\1.string");
  ("(\w+)->s\b(?!t|p|i|y)", "\1->string");
  ("->n\b", "->count");
  ("\.n\b", ".count");
  ("->c\b", "->capacity");
  ("\.c\b", ".capacity");
  ("->d\b", "->data");
  ("\.d\b", ".data");
  ("->b\b", "->base");
  ("\.b\b", ".base");
  ("->p\b", "->pointer");
  ("\.p\b", ".pointer");
  ("->e\b", "->end");
  ("\.e\b", ".end");
  ("->m\b", "->mutex");
  ("\.m\b", ".mutex");
  ("->q\b", "->queue");
  ("\.q\b", ".queue");
  ("->t\b", "->thread");
  ("\.t\b", ".thread");
  ("->l\b", "->location");
  ("\.l\b", ".location");
  ("->f\b", "->filename");
  ("\.f\b", ".filename")
]%string.

(** [# Fix Unsigned_Big_Integer fields specifically in
    UNSIGNED_BIGINT_NORMALIZE macro]: lines 219 to 221. *)
Definition normalize_subs : list (string * string) := [
  ("\(u\)->count", "(u)->count");
  ("\(u\)->digits", "(u)->digits");
  ("\(u\)->is_negative", "(u)->is_negative")
]%string.

(** Phase 2 of [expand_all], from line 137 to the [return]. *)
Definition expand_fields (code : string) : string :=
  apply_subs (field_subs ++ normalize_subs) code.

End complete_expansion.

(** ** reformat.py *)

Module reformat.

Definition TYPE_NAMES : list (string * string) := Py.dict_of [
  ("\bU\b", "Unsigned_Big_Integer");
  ("\bR\b", "Rational_Number");
  ("\bFP\b", "Fat_Pointer");
  ("\bAB\b", "Array_Bounds");
  ("\bTQ\b", "Thread_Queue");
  ("\bTA\b", "Thread_Args");
  ("\bS\b", "String_Slice");
  ("\bL\b", "Source_Location");
  ("\bTk\b", "Token_Kind");
  ("\bTn\b", "Token");
  ("\bLx\b", "Lexer");
  ("\bPs\b", "Parser");
  ("\bSy\b", "Symbol");
  ("\bTy\b", "Type_Info");
  ("\bNo\b", "Syntax_Node");
  ("\bSm\b", "Symbol_Manager");
  ("\bGn\b", "Code_Generator");
  ("\bVk\b", "Value_Kind");
  ("\bRC\b", "Reference_Counter");
  ("\bLU\b", "Label_Use");
  ("\bGT\b", "Generic_Type");
  ("\bLE\b", "Label_Entry");
  ("\bNV\b", "Node_Vector");
  ("\bSV\b", "Symbol_Vector");
  ("\bRV\b", "Reference_Vector");
  ("\bLV\b", "Label_Vector");
  ("\bGV\b", "Generic_Vector");
  ("\bFV\b", "File_Vector");
  ("\bSLV\b", "String_List_Vector");
  ("\bLEV\b", "Label_Entry_Vector")
]%string.

Definition FUNCTION_NAMES : list (string * string) := Py.dict_of [
  ("\bun\(", "unsigned_bigint_new(");
  ("\buf\(", "unsigned_bigint_free(");
  ("\bug\(", "unsigned_bigint_grow(");
  ("\bUZ\(", "UNSIGNED_BIGINT_NORMALIZE(");
  ("\buca\(", "unsigned_bigint_compare_abs(");
  ("\badc\(", "add_with_carry(");
  ("\bsbb\(", "subtract_with_borrow(");
  ("\bubop\(", "unsigned_bigint_binary_op(");
  ("\buaa\(", "unsigned_bigint_add_abs(");
  ("\busa\(", "unsigned_bigint_sub_abs(");
  ("\bua\(", "unsigned_bigint_add(");
  ("\bus\(", "unsigned_bigint_subtract(");
  ("\bumb\(", "unsigned_bigint_multiply_basic(");
  ("\bumk\(", "unsigned_bigint_multiply_karatsuba(");
  ("\bum\(", "unsigned_bigint_multiply(");
  ("\bufd\(", "unsigned_bigint_from_decimal(");
  ("\bal\(", "arena_allocate(");
  ("\bsd\(", "string_duplicate(");
  ("\bsi\(", "string_equal_ignore_case(");
  ("\bLC\(", "string_to_lowercase(");
  ("\bsh\(", "string_hash(");
  ("\bdie\(", "fatal_error(");
  ("\bkl\(", "keyword_lookup(");
  ("\bln\(", "lexer_new(");
  ("\bav\(", "advance_char(");
  ("\bsw\(", "skip_whitespace(");
  ("\bmt\(", "make_token(");
  ("\bnx\(", "next_token(");
  ("\bpk\(", "peek_token(");
  ("\bex\(", "expect_token(");
  ("\bnt\(", "new_temporary(");
  ("\bnl\(", "new_label(");
  ("\bgex\(", "generate_expression(");
  ("\bgss\(", "generate_statement_sequence(");
  ("\bgbf\(", "generate_block_frame(");
  ("\bgdl\(", "generate_declaration(");
  ("\blbl\(", "emit_label(");
  ("\bbr\(", "emit_branch(");
  ("\bcbr\(", "emit_conditional_branch(");
  ("\bvcast\(", "value_cast(");
  ("\bvcmp\(", "value_compare(");
  ("\bvcmpi\(", "value_compare_integer(");
  ("\bvcmpf\(", "value_compare_float(");
  ("\bvbool\(", "value_to_boolean(");
  ("\bvpow\(", "value_power(");
  ("\bvpowi\(", "value_power_integer(");
  ("\bvpows\(", "value_power_float(");
  ("\bgfp\(", "generate_fat_pointer(");
  ("\bgfpd\(", "get_fat_pointer_data(");
  ("\bgfpb\(", "get_fat_pointer_bounds(");
  ("\bgag\(", "generate_aggregate(");
  ("\bsyf\(", "symbol_find(");
  ("\bsyfa\(", "symbol_find_arity(");
  ("\bsyi\(", "symbol_insert(");
  ("\bsyd\(", "symbol_define(");
  ("\bsya\(", "symbol_add_overload(");
  ("\btcc\(", "type_concrete(");
  ("\brst\(", "resolve_subtype(");
  ("\bth\(", "type_hash(");
  ("\bact\(", "ada_c_type(");
  ("\btk2v\(", "token_kind_to_value_kind(");
  ("\brepr_cat\(", "representation_category(");
  ("\besn\(", "encode_symbol_name(");
  ("\bhnf\(", "has_nested_function(");
  ("\bhnfs\(", "has_nested_function_in_statements(");
  ("\bsbody\(", "symbol_body(");
  ("\bsspec\(", "symbol_spec(");
  ("\bgattr\(", "get_attribute_name(");
  ("\bflbl\(", "find_label(");
  ("\beex\(", "emit_exception(");
  ("\belbl\(", "emit_label_definition(");
  ("\badcl\(", "add_declaration(");
  ("\bvt\(", "value_type_string(");
  ("\bglbl_bb\(", "get_or_create_label_basic_block(");
  ("\bslv\(", "string_list_vector_append(");
  ("\bsev\(", "symbol_vector_append(");
  ("\bnev\(", "node_vector_append(");
  ("\blev\(", "label_entry_vector_append(");
  ("\bfev\(", "file_vector_append(");
  ("\brlv\(", "reference_vector_append(")
]%string.

Definition COMMON_VARS : list (string * string) := Py.dict_of [
  ("\bIP\b", "include_paths");
  ("\bIPN\b", "include_path_count");
  ("\bM\b", "main_arena");
  ("\bE\b", "error_count");
  ("\bKW\b", "keywords");
  ("\bTN\b", "token_names");
  ("\bSEP_PKG\b", "separate_package")
]%string.

Definition ENUM_CONSTANTS : list (string * string) := Py.dict_of [
  ("\bVK_I\b", "VALUE_KIND_INTEGER");
  ("\bVK_F\b", "VALUE_KIND_FLOAT");
  ("\bVK_P\b", "VALUE_KIND_POINTER");
  ("\bTY_B\b", "TYPE_BOOLEAN");
  ("\bTY_C\b", "TYPE_CHARACTER");
  ("\bTY_I\b", "TYPE_INTEGER");
  ("\bTY_UI\b", "TYPE_UNSIGNED_INTEGER");
  ("\bTY_E\b", "TYPE_ENUMERATION");
  ("\bTY_D\b", "TYPE_DERIVED");
  ("\bTY_F\b", "TYPE_FLOAT");
  ("\bTY_UF\b", "TYPE_UNIVERSAL_FLOAT");
  ("\bTY_FX\b", "TYPE_FIXED_POINT");
  ("\bTY_AC\b", "TYPE_ACCESS");
  ("\bTY_FT\b", "TYPE_FAT");
  ("\bTY_S\b", "TYPE_STRING");
  ("\bTY_A\b", "TYPE_ARRAY");
  ("\bTY_R\b", "TYPE_RECORD");
  ("\bRC_FLOAT\b", "REPR_CAT_FLOAT");
  ("\bRC_PTR\b", "REPR_CAT_POINTER");
  ("\bN_INT\b", "NODE_INTEGER");
  ("\bN_REAL\b", "NODE_REAL");
  ("\bN_CHAR\b", "NODE_CHARACTER");
  ("\bN_STR\b", "NODE_STRING");
  ("\bN_NULL\b", "NODE_NULL");
  ("\bN_ID\b", "NODE_IDENTIFIER");
  ("\bN_BIN\b", "NODE_BINARY_OP");
  ("\bN_IF\b", "NODE_IF");
  ("\bN_CS\b", "NODE_CASE");
  ("\bN_LP\b", "NODE_LOOP");
  ("\bN_BL\b", "NODE_BLOCK");
  ("\bN_AG\b", "NODE_AGGREGATE");
  ("\bN_ASC\b", "NODE_ASSOCIATION");
  ("\bN_RN\b", "NODE_RANGE");
  ("\bN_CHK\b", "NODE_CHECK");
  ("\bN_PB\b", "NODE_PROCEDURE_BODY");
  ("\bN_FB\b", "NODE_FUNCTION_BODY");
  ("\bN_PD\b", "NODE_PROCEDURE_DECL");
  ("\bN_FD\b", "NODE_FUNCTION_DECL");
  ("\bN_CM\b", "NODE_COMPONENT")
]%string.

Definition boolean_subs : list (string * string) := [
  ("&&", " and ");
  ("\|\|", " or ");
  ("!\s*([a-zA-Z_])", "not \1");
  ("!\s*\(", "not (")
]%string.

Definition replace_boolean_operators (code : string) : string :=
  apply_subs boolean_subs code.

(** [for pattern, replacement in mappings.items():
       code = re.sub(pattern, replacement, code)] *)
Definition apply_transformations (code : string)
    (mappings : list (string * string)) : string :=
  fold_left (fun c kv => Re.sub (fst kv) (snd kv) c) mappings code.

Definition function_definition : string :=
  "^(static\s+)?\w+\s+\**\w+\s*\([^)]*\)\s*\{"%string.

(** The loop body of [add_spacing]; the state is [(result, prev_was_func)]. *)
Definition add_spacing_step (st : list string * bool) (line : string)
    : list string * bool :=
  let (result, prev_was_func) := st in
  if Re.matches function_definition line then
    let result :=
      if negb (length result =? 0) && negb prev_was_func
      then result ++ [EmptyString] else result in
    (result ++ [line], true)
  else (result ++ [line], false).

Definition add_spacing (code : string) : string :=
  let lines := Py.split_lines code in
  Py.join_lines (fst (fold_left add_spacing_step lines ([], false))).

(** What [main] prints for the text [code] of its input file. *)
Definition transform (code : string) : string :=
  let code := apply_transformations code TYPE_NAMES in
  let code := apply_transformations code FUNCTION_NAMES in
  let code := apply_transformations code ENUM_CONSTANTS in
  let code := apply_transformations code COMMON_VARS in
  let code := replace_boolean_operators code in
  add_spacing code.

Definition main : IO.io unit :=
  args <- IO.sys_argv ;;
  if negb (length args =? 2) then
    IO.eprint "Usage: python3 reformat.py input.c" ;;
    IO.sys_exit 1
  else
    code <- IO.read_file (nth 1 args EmptyString) ;;
    IO.eprint "Applying type name transformations..." ;;
    let code := apply_transformations code TYPE_NAMES in
    IO.eprint "Applying function name transformations..." ;;
    let code := apply_transformations code FUNCTION_NAMES in
    IO.eprint "Applying enum constant transformations..." ;;
    let code := apply_transformations code ENUM_CONSTANTS in
    IO.eprint "Applying variable name transformations..." ;;
    let code := apply_transformations code COMMON_VARS in
    IO.eprint "Replacing boolean operators..." ;;
    let code := replace_boolean_operators code in
    IO.eprint "Adding spacing..." ;;
    let code := add_spacing code in
    IO.print code.

End reformat.

(** ** expand_identifiers.py *)

Module expand_identifiers.

Definition TYPE_MAPPINGS : list (string * string) := Py.dict_of [
  ("\bFP\b", "Fat_Pointer");
  ("\bAB\b", "Array_Bounds");
  ("\bTQ\b", "Thread_Queue");
  ("\bTA\b", "Thread_Args")
]%string.

Definition MACRO_MAPPINGS : list (string * string) := Py.dict_of [
  ("\bUZ\(", "UNSIGNED_BIGINT_NORMALIZE(");
  ("\bZ\(", "STRING_LITERAL(");
  ("\bN\b(?=\s*\))", "NULL_STRING_SLICE")
]%string.

Definition FUNCTION_MAPPINGS : list (string * string) := Py.dict_of [
  ("\blnx\(", "lexer_next_token(");
  ("\bsn\(", "scan_number_literal(");
  ("\bsc\(", "scan_character_literal(");
  ("\bss\(", "scan_string_literal(");
  ("\bsi_\(", "scan_identifier(");
  ("\bnd\(", "node_new(");
  ("\brc\(", "reference_counter_new(");
  ("\blu\(", "label_use_new(");
  ("\bgt\(", "generic_type_new(");
  ("\bnv\(", "node_vector_append(");
  ("\bsv\(", "symbol_vector_append(");
  ("\blv\(", "label_vector_append(");
  ("\bgv\(", "generic_vector_append(");
  ("\blev\(", "label_entry_vector_append(");
  ("\bfev\(", "file_vector_append(");
  ("\bslv\(", "string_list_vector_append(");
  ("\bpn\(", "parser_next(");
  ("\bpa\(", "parser_at(");
  ("\bpm\(", "parser_match(");
  ("\bpe\(", "parser_expect(");
  ("\bpl\(", "parser_location(");
  ("\bpi\(", "parser_identifier(");
  ("\bpat\(", "parser_attribute(");
  ("\bpex\(", "parse_expression(");
  ("\bpnm\(", "parse_name(");
  ("\bppr\(", "parse_primary(");
  ("\bprn\(", "parse_range(");
  ("\bpst\(", "parse_statement(");
  ("\bpbr\(", "parse_binary(");
  ("\btcc\(", "type_canonical_concrete(");
  ("\brst\(", "resolve_subtype(");
  ("\brng_sz\(", "range_size(");
  ("\btco\(", "type_covers(");
  ("\bis_unc_arr\(", "is_unconstrained_array(");
  ("\brepr_cat\(", "representation_category(");
  ("\bsyf\(", "symbol_find(");
  ("\bsyfa\(", "symbol_find_with_arity(");
  ("\bsyi\(", "symbol_insert(");
  ("\bsyd\(", "symbol_define(");
  ("\bsya\(", "symbol_add_overload(");
  ("\bnt\(", "new_temporary_register(");
  ("\bnl\(", "new_label_block(");
  ("\bbr\(", "emit_branch(");
  ("\bcbr\(", "emit_conditional_branch(");
  ("\bgen_index_check\(", "generate_index_constraint_check(");
  ("\bgen_float_chk\(", "generate_float_range_check(");
  ("\bgen_array_bounds_chk\(", "generate_array_bounds_check(");
  ("\bgen_discrete_chk\(", "generate_discrete_range_check(");
  ("\bnaag\(", "normalize_array_aggregate(");
  ("\bnrag\(", "normalize_record_aggregate(");
  ("\brex\(", "resolve_expression(");
  ("\brss\(", "resolve_statement_sequence(");
  ("\brdl\(", "resolve_declaration(");
  ("\bgdl\(", "generate_declaration(");
  ("\bgss\(", "generate_statement_sequence(");
  ("\bgbf\(", "generate_block_frame(");
  ("\bgex\(", "generate_expression(");
  ("\bgag\(", "generate_aggregate(");
  ("\bgfp\(", "generate_fat_pointer(");
  ("\bgfpd\(", "get_fat_pointer_data(");
  ("\bgfpb\(", "get_fat_pointer_bounds(");
  ("\besn\(", "encode_symbol_name(");
  ("\bhnf\(", "has_nested_function(");
  ("\bhnfs\(", "has_nested_function_in_stmts(");
  ("\bsbody\(", "symbol_body(");
  ("\bsspec\(", "symbol_spec(");
  ("\bgattr\(", "get_attribute_name(");
  ("\bflbl\(", "find_label(");
  ("\beex\(", "emit_exception(");
  ("\belbl\(", "emit_label_definition(");
  ("\badcl\(", "add_declaration(");
  ("\bvt\(", "value_llvm_type_string(");
  ("\bact\(", "ada_to_c_type_string(");
  ("\btk2v\(", "token_kind_to_value_kind(");
  ("\bth\(", "type_hash(");
  ("\bglbl_bb\(", "get_or_create_label_basic_block(");
  ("\bvcast\(", "value_cast(");
  ("\bvcmp\(", "value_compare(");
  ("\bvcmpi\(", "value_compare_integer(");
  ("\bvcmpf\(", "value_compare_float(");
  ("\bvbool\(", "value_to_boolean(");
  ("\bvpow\(", "value_power(");
  ("\bvpowi\(", "value_power_integer(");
  ("\bvpows\(", "value_power_float(")
]%string.

Definition ENUM_MAPPINGS : list (string * string) := Py.dict_of [
  ("\bVK_I\b", "VALUE_KIND_INTEGER");
  ("\bVK_F\b", "VALUE_KIND_FLOAT");
  ("\bVK_P\b", "VALUE_KIND_POINTER");
  ("\bTY_B\b", "TYPE_BOOLEAN");
  ("\bTY_C\b", "TYPE_CHARACTER");
  ("\bTY_I\b", "TYPE_INTEGER");
  ("\bTY_UI\b", "TYPE_UNSIGNED_INTEGER");
  ("\bTY_E\b", "TYPE_ENUMERATION");
  ("\bTY_D\b", "TYPE_DERIVED");
  ("\bTY_F\b", "TYPE_FLOAT");
  ("\bTY_UF\b", "TYPE_UNIVERSAL_FLOAT");
  ("\bTY_FX\b", "TYPE_FIXED_POINT");
  ("\bTY_AC\b", "TYPE_ACCESS");
  ("\bTY_FT\b", "TYPE_FAT_POINTER");
  ("\bTY_S\b", "TYPE_STRING");
  ("\bTY_A\b", "TYPE_ARRAY");
  ("\bTY_R\b", "TYPE_RECORD");
  ("\bRC_FLOAT\b", "REPR_CAT_FLOAT");
  ("\bRC_PTR\b", "REPR_CAT_POINTER")
]%string.

(** [apply_transformations(code, mappings, description)] reports its
    progress on [stderr] and runs the substitutions in the dict's order. *)
Definition apply_transformations (code : string)
    (mappings : list (string * string)) (description : string) : IO.io string :=
  IO.eprint ("  " ++ description ++ "...") ;;
  IO.ret (fold_left (fun c kv => Re.sub (fst kv) (snd kv) c) mappings code).

Definition main : IO.io unit :=
  args <- IO.sys_argv ;;
  if negb (length args =? 2) then
    IO.eprint "Usage: python3 expand_identifiers.py input.c" ;;
    IO.sys_exit 1
  else
    code <- IO.read_file (nth 1 args EmptyString) ;;
    IO.eprint "Expanding identifiers:" ;;
    code <- apply_transformations code TYPE_MAPPINGS "Type names" ;;
    code <- apply_transformations code MACRO_MAPPINGS "Macro names" ;;
    code <- apply_transformations code FUNCTION_MAPPINGS "Function names" ;;
    code <- apply_transformations code ENUM_MAPPINGS "Enum constants" ;;
    IO.print code.

End expand_identifiers.

(** ** The literal patches

    Each of these scripts reads [/home/user/Ada83/ada83.c], looks for one
    exact fragment of C and, when it is there, replaces it and writes the
    file back. *)

Definition ada83_c : string := "/home/user/Ada83/ada83.c".

Module fix_npd.

Definition old_pattern : string :=
    ("for(uint32_t i=0;i<sp->sp.pmm.n;i++){if(i)fprintf(o," ++ dq ++ "," ++ dq
    ++ ");No*p=sp->sp.pmm.d[i];Vk k=p->pm.ty?tk2v(rst(g->sm,p->pm.ty)):V"
    ++ "K_I;if(p->pm.md&2)fprintf(o," ++ dq ++ "ptr" ++ dq ++ ");else fprintf(o,"
    ++ dq ++ "%s" ++ dq ++ ",vt(k));}fprintf(o," ++ dq ++ ")\n" ++ dq
    ++ ");}break;case N_FD:")%string.

Definition new_pattern : string :=
    ("for(uint32_t i=0;i<sp->sp.pmm.n;i++){if(i)fprintf(o," ++ dq ++ "," ++ dq
    ++ ");No*p=sp->sp.pmm.d[i];Ty*pt=p->pm.ty?rst(g->sm,p->pm.ty):0;Vk k"
    ++ "=VK_I;if(pt){Ty*ptc=tcc(pt);if(n->sy&&n->sy->ext&&ptc&&ptc->k==T"
    ++ "Y_A)k=VK_I;else k=tk2v(pt);}if(p->pm.md&2)fprintf(o," ++ dq ++ "ptr"
    ++ dq ++ ");else fprintf(o," ++ dq ++ "%s" ++ dq ++ ",vt(k));}fprintf(o,"
    ++ dq ++ ")\n" ++ dq ++ ");}break;case N_FD:")%string.

Definition main : IO.io unit :=
  content <- IO.read_file ada83_c ;;
  if Py.contains old_pattern content then
    IO.print "Found pattern, replacing..." ;;
    let content := Py.replace content old_pattern new_pattern in
    IO.write_file ada83_c content ;;
    IO.print "Done!"
  else
    IO.print "Pattern not found. Looking for variations..." ;;
    if Py.contains "case N_PD:" content then
      IO.print "Found 'case N_PD:' in file" ;;
      match Py.find content "case N_PD:" with
      | Some idx =>
          IO.print ("Context around N_PD: " ++ Py.slice content idx (idx + 500))
      | None => IO.ret tt
      end
    else IO.ret tt.

End fix_npd.

Module fix_nfd.

Definition old_pattern : string :=
    ("fprintf(o," ++ dq ++ "declare %s @\" ++ dq ++ "%s\" ++ dq ++ "(" ++ dq
    ++ ",vt(rk),nb);for(uint32_t i=0;i<sp->sp.pmm.n;i++){if(i)fprintf(o," ++ dq
    ++ "," ++ dq
    ++ ");No*p=sp->sp.pmm.d[i];Vk k=p->pm.ty?tk2v(rst(g->sm,p->pm.ty)):V"
    ++ "K_I;if(p->pm.md&2)fprintf(o," ++ dq ++ "ptr" ++ dq ++ ");else fprintf(o,"
    ++ dq ++ "%s" ++ dq ++ ",vt(k));}fprintf(o," ++ dq ++ ")\n" ++ dq
    ++ ");}break;case N_BL:")%string.

Definition new_pattern : string :=
    ("fprintf(o," ++ dq ++ "declare %s @\" ++ dq ++ "%s\" ++ dq ++ "(" ++ dq
    ++ ",vt(rk),nb);for(uint32_t i=0;i<sp->sp.pmm.n;i++){if(i)fprintf(o," ++ dq
    ++ "," ++ dq
    ++ ");No*p=sp->sp.pmm.d[i];Ty*pt=p->pm.ty?rst(g->sm,p->pm.ty):0;Vk k"
    ++ "=VK_I;if(pt){Ty*ptc=tcc(pt);if(n->sy&&n->sy->ext&&ptc&&ptc->k==T"
    ++ "Y_A)k=VK_I;else k=tk2v(pt);}if(p->pm.md&2)fprintf(o," ++ dq ++ "ptr"
    ++ dq ++ ");else fprintf(o," ++ dq ++ "%s" ++ dq ++ ",vt(k));}fprintf(o,"
    ++ dq ++ ")\n" ++ dq ++ ");}break;case N_BL:")%string.

Definition main : IO.io unit :=
  content <- IO.read_file ada83_c ;;
  if Py.contains old_pattern content then
    IO.print "Found N_FD pattern, replacing..." ;;
    let content := Py.replace content old_pattern new_pattern in
    IO.write_file ada83_c content ;;
    IO.print "Done!"
  else
    IO.print "Pattern not found in N_FD case".

End fix_nfd.

Module fix_declarations_out.

Definition old_npd : string :=
    ("fprintf(o," ++ dq ++ "declare void @\" ++ dq ++ "%s\" ++ dq ++ "(" ++ dq
    ++ ",nb);for(uint32_t i=0;i<sp->sp.pmm.n;i++){if(i)fprintf(o," ++ dq ++ ","
    ++ dq ++ ");No*p=sp->sp.pmm.d[i];Ty*pt=p->pm.ty?rst(g->sm,p->pm.ty):0;Vk k"
    ++ "=VK_I;if(pt){Ty*ptc=tcc(pt);if(n->sy&&n->sy->ext&&ptc&&ptc->k==T"
    ++ "Y_A)k=VK_I;else k=tk2v(pt);}if(p->pm.md&2)fprintf(o," ++ dq ++ "ptr"
    ++ dq ++ ");else fprintf(o," ++ dq ++ "%s" ++ dq ++ ",vt(k));}fprintf(o,"
    ++ dq ++ ")\n" ++ dq ++ ");}")%string.

Definition new_npd : string :=
    ("fprintf(o," ++ dq ++ "declare void @\" ++ dq ++ "%s\" ++ dq ++ "(" ++ dq
    ++ ",nb);for(uint32_t i=0;i<sp->sp.pmm.n;i++){if(i)fprintf(o," ++ dq ++ ","
    ++ dq ++ ");No*p=sp->sp.pmm.d[i];Ty*pt=p->pm.ty?rst(g->sm,p->pm.ty):0;Vk k"
    ++ "=VK_I;if(pt){Ty*ptc=tcc(pt);if(n->sy&&n->sy->ext&&ptc&&ptc->k==T"
    ++ "Y_A&&!(p->pm.md&2))k=VK_I;else k=tk2v(pt);}if(p->pm.md&2)fprintf"
    ++ "(o," ++ dq ++ "ptr" ++ dq ++ ");else fprintf(o," ++ dq ++ "%s" ++ dq
    ++ ",vt(k));}fprintf(o," ++ dq ++ ")\n" ++ dq ++ ");}")%string.

Definition old_nfd : string :=
    ("fprintf(o," ++ dq ++ "declare %s @\" ++ dq ++ "%s\" ++ dq ++ "(" ++ dq
    ++ ",vt(rk),nb);for(uint32_t i=0;i<sp->sp.pmm.n;i++){if(i)fprintf(o," ++ dq
    ++ "," ++ dq
    ++ ");No*p=sp->sp.pmm.d[i];Ty*pt=p->pm.ty?rst(g->sm,p->pm.ty):0;Vk k"
    ++ "=VK_I;if(pt){Ty*ptc=tcc(pt);if(n->sy&&n->sy->ext&&ptc&&ptc->k==T"
    ++ "Y_A)k=VK_I;else k=tk2v(pt);}if(p->pm.md&2)fprintf(o," ++ dq ++ "ptr"
    ++ dq ++ ");else fprintf(o," ++ dq ++ "%s" ++ dq ++ ",vt(k));}fprintf(o,"
    ++ dq ++ ")\n" ++ dq ++ ");}")%string.

Definition new_nfd : string :=
    ("fprintf(o," ++ dq ++ "declare %s @\" ++ dq ++ "%s\" ++ dq ++ "(" ++ dq
    ++ ",vt(rk),nb);for(uint32_t i=0;i<sp->sp.pmm.n;i++){if(i)fprintf(o," ++ dq
    ++ "," ++ dq
    ++ ");No*p=sp->sp.pmm.d[i];Ty*pt=p->pm.ty?rst(g->sm,p->pm.ty):0;Vk k"
    ++ "=VK_I;if(pt){Ty*ptc=tcc(pt);if(n->sy&&n->sy->ext&&ptc&&ptc->k==T"
    ++ "Y_A&&!(p->pm.md&2))k=VK_I;else k=tk2v(pt);}if(p->pm.md&2)fprintf"
    ++ "(o," ++ dq ++ "ptr" ++ dq ++ ");else fprintf(o," ++ dq ++ "%s" ++ dq
    ++ ",vt(k));}fprintf(o," ++ dq ++ ")\n" ++ dq ++ ");}")%string.

(** The state threaded through the two [if] statements is
    [(content, count)]. *)
Definition main : IO.io unit :=
  content <- IO.read_file ada83_c ;;
  let count := 0 in
  st <- (if Py.contains old_npd content then
           IO.print "Fixing N_PD case..." ;;
           IO.ret (Py.replace content old_npd new_npd, count + 1)
         else IO.ret (content, count)) ;;
  let (content, count) := st : string * nat in
  st <- (if Py.contains old_nfd content then
           IO.print "Fixing N_FD case..." ;;
           IO.ret (Py.replace content old_nfd new_nfd, count + 1)
         else IO.ret (content, count)) ;;
  let (content, count) := st : string * nat in
  if 0 <? count then
    IO.write_file ada83_c content ;;
    IO.print ("Done! Fixed " ++ (if count =? 1 then "1" else "2") ++ " cases.")
  else
    IO.print "Patterns not found".

End fix_declarations_out.

Module fix_pragma_out.

Definition old_pattern : string :=
    ("else if(s->k==4||s->k==5){No*sp=s->ol.n>0&&(s->ol.d[0]->k==N_PD|"
    ++ "|s->ol.d[0]->k==N_FD)?s->ol.d[0]->bd.sp:0;int arid[64];Vk ark[64"
    ++ "];for(uint32_t i=0;i<n->ct.arr.n&&i<64;i++){No*pm=sp&&i<sp->sp.p"
    ++ "mm.n?sp->sp.pmm.d[i]:0;V av=gex(g,n->ct.arr.d[i]);Vk ek=VK_I;if("
    ++ "pm&&pm->pm.ty){Ty*pt=rst(g->sm,pm->pm.ty);ek=tk2v(pt);}V cv=vcas"
    ++ "t(g,av,ek);arid[i]=cv.id;ark[i]=ek;}")%string.

Definition new_pattern : string :=
    ("else if(s->k==4||s->k==5){No*sp=s->ol.n>0&&(s->ol.d[0]->k==N_PD|"
    ++ "|s->ol.d[0]->k==N_FD)?s->ol.d[0]->bd.sp:0;int arid[64];Vk ark[64"
    ++ "];for(uint32_t i=0;i<n->ct.arr.n&&i<64;i++){No*pm=sp&&i<sp->sp.p"
    ++ "mm.n?sp->sp.pmm.d[i]:0;V av=gex(g,n->ct.arr.d[i]);Vk ek=VK_I;if("
    ++ "pm&&pm->pm.ty){Ty*pt=rst(g->sm,pm->pm.ty);if(pm->pm.md&2)ek=VK_P"
    ++ ";else ek=tk2v(pt);}V cv=vcast(g,av,ek);arid[i]=cv.id;ark[i]=ek;}")%string.

Definition main : IO.io unit :=
  content <- IO.read_file ada83_c ;;
  if Py.contains old_pattern content then
    IO.print "Found pattern, replacing..." ;;
    let content := Py.replace content old_pattern new_pattern in
    IO.write_file ada83_c content ;;
    IO.print "Done!"
  else
    IO.print "Pattern not found".

End fix_pragma_out.

Module fix_pragma_out_v3.

Definition old_pattern : string :=
    ("else if(s->k==4||s->k==5){No*sp=s->ol.n>0&&(s->ol.d[0]->k==N_PD|"
    ++ "|s->ol.d[0]->k==N_FD)?s->ol.d[0]->bd.sp:0;int arid[64];Vk ark[64"
    ++ "];for(uint32_t i=0;i<n->ct.arr.n&&i<64;i++){No*pm=sp&&i<sp->sp.p"
    ++ "mm.n?sp->sp.pmm.d[i]:0;No*arg=n->ct.arr.d[i];V av={0,VK_I};Vk ek"
    ++ "=VK_I;if(pm&&pm->pm.ty){Ty*pt=rst(g->sm,pm->pm.ty);ek=tk2v(pt);i"
    ++ "f(pm->pm.md&2){ek=VK_P;if(arg->k==N_ID){Sy*as=arg->sy?arg->sy:sy"
    ++ "f(g->sm,arg->s);av.id=nt(g);av.k=VK_P;if(as&&as->lv>=0&&as->lv<g"
    ++ "->sm->lv)fprintf(o," ++ dq
    ++ "  %%t%d = bitcast ptr %%lnk.%d.%s to ptr\n" ++ dq
    ++ ",av.id,as->lv,LC(arg->s));else fprintf(o," ++ dq
    ++ "  %%t%d = bitcast ptr %%v.%s.sc%u.%u to ptr\n" ++ dq
    ++ ",av.id,LC(arg->s),as?as->sc:0,as?as->el:0);}else{av=gex(g,arg);i"
    ++ "nt ap=nt(g);fprintf(o," ++ dq ++ "  %%t%d = alloca %s\n" ++ dq
    ++ ",ap,vt(av.k));fprintf(o," ++ dq ++ "  store %s %%t%d, ptr %%t%d\n" ++ dq
    ++ ",vt(av.k),av.id,ap);av.id=ap;av.k=VK_P;}}else{av=gex(g,arg);}}el"
    ++ "se{av=gex(g,arg);}V cv=vcast(g,av,ek);arid[i]=cv.id;ark[i]=ek;}")%string.

Definition new_pattern : string :=
    ("else if(s->k==4||s->k==5){No*sp=s->ol.n>0&&(s->ol.d[0]->k==N_PD|"
    ++ "|s->ol.d[0]->k==N_FD)?s->ol.d[0]->bd.sp:0;int arid[64];Vk ark[64"
    ++ "];for(uint32_t i=0;i<n->ct.arr.n&&i<64;i++){No*pm=sp&&i<sp->sp.p"
    ++ "mm.n?sp->sp.pmm.d[i]:0;No*arg=n->ct.arr.d[i];V av={0,VK_I};Vk ek"
    ++ "=VK_I;bool rf=false;if(pm&&pm->pm.ty){Ty*pt=rst(g->sm,pm->pm.ty)"
    ++ ";ek=tk2v(pt);if(pm->pm.md&2){ek=VK_P;rf=true;if(arg->k==N_ID){Sy"
    ++ "*as=arg->sy?arg->sy:syf(g->sm,arg->s);av.id=nt(g);av.k=VK_P;if(a"
    ++ "s&&as->lv>=0&&as->lv<g->sm->lv)fprintf(o," ++ dq
    ++ "  %%t%d = bitcast ptr %%lnk.%d.%s to ptr\n" ++ dq
    ++ ",av.id,as->lv,LC(arg->s));else fprintf(o," ++ dq
    ++ "  %%t%d = bitcast ptr %%v.%s.sc%u.%u to ptr\n" ++ dq
    ++ ",av.id,LC(arg->s),as?as->sc:0,as?as->el:0);}else{av=gex(g,arg);i"
    ++ "nt ap=nt(g);fprintf(o," ++ dq ++ "  %%t%d = alloca %s\n" ++ dq
    ++ ",ap,vt(av.k));fprintf(o," ++ dq ++ "  store %s %%t%d, ptr %%t%d\n" ++ dq
    ++ ",vt(av.k),av.id,ap);av.id=ap;av.k=VK_P;}}else{av=gex(g,arg);}}el"
    ++ "se{av=gex(g,arg);}if(!rf){V cv=vcast(g,av,ek);av=cv;}arid[i]=av."
    ++ "id;ark[i]=ek;}")%string.

Definition main : IO.io unit :=
  content <- IO.read_file ada83_c ;;
  if Py.contains old_pattern content then
    IO.print "Found pattern, replacing..." ;;
    let content := Py.replace content old_pattern new_pattern in
    IO.write_file ada83_c content ;;
    IO.print "Done!"
  else
    IO.print "Pattern not found - maybe pattern changed, let me check" ;;
    match Py.find content "else if(s->k==4||s->k==5){" with
    | Some idx =>
        IO.print ("Current code: " ++ Py.slice content idx (idx + 800))
    | None => IO.ret tt
    end.

End fix_pragma_out_v3.

Module fix_pragma_import_direct.

Definition old_start : string :=
    ("else if(s->k==4||s->k==5){No*sp=s->ol.n>0&&(s->ol.d[0]->k==N_PD|"
    ++ "|s->ol.d[0]->k==N_FD)?s->ol.d[0]->bd.sp:0;if(!sp&&s->ty&&s->ty->"
    ++ "ops.n>0){sp=s->ty->ops.d[0]->bd.sp;}int arid[64];Vk ark[64];for("
    ++ "uint32_t i=0;i<n->ct.arr.n&&i<64;i++){No*pm=sp&&i<sp->sp.pmm.n?s"
    ++ "p->sp.pmm.d[i]:0;No*arg=n->ct.arr.d[i];V av={0,VK_I};Vk ek=VK_I;"
    ++ "bool rf=false;if(pm&&pm->pm.ty){Ty*pt=rst(g->sm,pm->pm.ty);ek=tk"
    ++ "2v(pt);if(pm->pm.md&2){ek=VK_P;rf=true;if(arg->k==N_ID){Sy*as=ar"
    ++ "g->sy?arg->sy:syf(g->sm,arg->s);av.id=nt(g);av.k=VK_P;if(as&&as-"
    ++ ">lv>=0&&as->lv<g->sm->lv)fprintf(o," ++ dq
    ++ "  %%t%d = bitcast ptr %%lnk.%d.%s to ptr\n" ++ dq
    ++ ",av.id,as->lv,LC(arg->s));else fprintf(o," ++ dq
    ++ "  %%t%d = bitcast ptr %%v.%s.sc%u.%u to ptr\n" ++ dq
    ++ ",av.id,LC(arg->s),as?as->sc:0,as?as->el:0);}else{av=gex(g,arg);i"
    ++ "nt ap=nt(g);fprintf(o," ++ dq ++ "  %%t%d = alloca %s\n" ++ dq
    ++ ",ap,vt(av.k));fprintf(o," ++ dq ++ "  store %s %%t%d, ptr %%t%d\n" ++ dq
    ++ ",vt(av.k),av.id,ap);av.id=ap;av.k=VK_P;}}else{av=gex(g,arg);}}el"
    ++ "se{av=gex(g,arg);}if(!rf){V cv=vcast(g,av,ek);av=cv;}arid[i]=av."
    ++ "id;ark[i]=ek;}")%string.

Definition new_start : string :=
    ("else if(s->k==4||s->k==5){No*sp=s->ol.n>0&&(s->ol.d[0]->k==N_PD|"
    ++ "|s->ol.d[0]->k==N_FD)?s->ol.d[0]->bd.sp:0;if(!sp&&s->ty&&s->ty->"
    ++ "ops.n>0){sp=s->ty->ops.d[0]->bd.sp;}int arid[64];Vk ark[64];for("
    ++ "uint32_t i=0;i<n->ct.arr.n&&i<64;i++){No*pm=sp&&i<sp->sp.pmm.n?s"
    ++ "p->sp.pmm.d[i]:0;No*arg=n->ct.arr.d[i];V av={0,VK_I};Vk ek=VK_I;"
    ++ "if(pm&&pm->pm.ty){Ty*pt=rst(g->sm,pm->pm.ty);ek=tk2v(pt);if(pm->"
    ++ "pm.md&2)ek=VK_P;}if(s->ext&&ek==VK_P&&arg->k==N_ID){Sy*as=arg->s"
    ++ "y?arg->sy:syf(g->sm,arg->s);av.id=nt(g);av.k=VK_P;if(as&&as->lv>"
    ++ "=0&&as->lv<g->sm->lv)fprintf(o," ++ dq
    ++ "  %%t%d = bitcast ptr %%lnk.%d.%s to ptr\n" ++ dq
    ++ ",av.id,as->lv,LC(arg->s));else fprintf(o," ++ dq
    ++ "  %%t%d = bitcast ptr %%v.%s.sc%u.%u to ptr\n" ++ dq
    ++ ",av.id,LC(arg->s),as?as->sc:0,as?as->el:0);}else{av=gex(g,arg);i"
    ++ "f(ek==VK_P){int ap=nt(g);fprintf(o," ++ dq ++ "  %%t%d = alloca %s\n"
    ++ dq ++ ",ap,vt(av.k));fprintf(o," ++ dq ++ "  store %s %%t%d, ptr %%t%d\n"
    ++ dq ++ ",vt(av.k),av.id,ap);av.id=ap;av.k=VK_P;}else{V cv=vcast(g,av,ek)"
    ++ ";av=cv;}}arid[i]=av.id;ark[i]=ek;}")%string.

Definition main : IO.io unit :=
  content <- IO.read_file ada83_c ;;
  if Py.contains old_start content then
    IO.print "Replacing with simplified PRAGMA IMPORT handling..." ;;
    let content := Py.replace content old_start new_start in
    IO.write_file ada83_c content ;;
    IO.print "Done!"
  else
    IO.print "Pattern not found - code may have changed".

End fix_pragma_import_direct.

Module fix_call_frame.

Definition old_pattern : string :=
    ("if(s->lv>0){if(n->ct.arr.n>0)fprintf(o," ++ dq ++ ", " ++ dq
    ++ ");if(s->lv>=g->sm->lv)fprintf(o," ++ dq ++ "ptr %%__frame" ++ dq
    ++ ");else fprintf(o," ++ dq ++ "ptr %%__slnk" ++ dq ++ ");}")%string.

Definition new_pattern : string :=
    ("if(s->lv>0&&!s->ext){if(n->ct.arr.n>0)fprintf(o," ++ dq ++ ", " ++ dq
    ++ ");if(s->lv>=g->sm->lv)fprintf(o," ++ dq ++ "ptr %%__frame" ++ dq
    ++ ");else fprintf(o," ++ dq ++ "ptr %%__slnk" ++ dq ++ ");}")%string.

Definition main : IO.io unit :=
  content <- IO.read_file ada83_c ;;
  if Py.contains old_pattern content then
    IO.print "Found pattern, replacing..." ;;
    let content := Py.replace content old_pattern new_pattern in
    IO.write_file ada83_c content ;;
    IO.print "Done!"
  else
    IO.print "Pattern not found".

End fix_call_frame.

Module fix_sp_fallback.

Definition old_pattern : string :=
    ("else if(s->k==4||s->k==5){No*sp=s->ol.n>0&&(s->ol.d[0]->k==N_PD|"
    ++ "|s->ol.d[0]->k==N_FD)?s->ol.d[0]->bd.sp:0;")%string.

Definition new_pattern : string :=
    ("else if(s->k==4||s->k==5){No*sp=s->ol.n>0&&(s->ol.d[0]->k==N_PD|"
    ++ "|s->ol.d[0]->k==N_FD)?s->ol.d[0]->bd.sp:0;if(!sp&&s->ty&&s->ty->"
    ++ "ops.n>0){sp=s->ty->ops.d[0]->bd.sp;}")%string.

Definition main : IO.io unit :=
  content <- IO.read_file ada83_c ;;
  if Py.contains old_pattern content then
    IO.print "Adding sp fallback..." ;;
    let content := Py.replace content old_pattern new_pattern in
    IO.write_file ada83_c content ;;
    IO.print "Done!"
  else
    IO.print "Pattern not found".

End fix_sp_fallback.

Module fix_pragma_ultra_simple.

Definition old_pattern : string :=
    ("else if(s->k==4||s->k==5){No*sp=s->ol.n>0&&(s->ol.d[0]->k==N_PD|"
    ++ "|s->ol.d[0]->k==N_FD)?s->ol.d[0]->bd.sp:0;if(!sp&&s->ty&&s->ty->"
    ++ "ops.n>0){sp=s->ty->ops.d[0]->bd.sp;}int arid[64];Vk ark[64];for("
    ++ "uint32_t i=0;i<n->ct.arr.n&&i<64;i++){No*pm=sp&&i<sp->sp.pmm.n?s"
    ++ "p->sp.pmm.d[i]:0;No*arg=n->ct.arr.d[i];V av={0,VK_I};Vk ek=VK_I;"
    ++ "if(pm&&pm->pm.ty){Ty*pt=rst(g->sm,pm->pm.ty);ek=tk2v(pt);if(pm->"
    ++ "pm.md&2)ek=VK_P;}if(s->ext&&ek==VK_P&&arg->k==N_ID){Sy*as=arg->s"
    ++ "y?arg->sy:syf(g->sm,arg->s);av.id=nt(g);av.k=VK_P;if(as&&as->lv>"
    ++ "=0&&as->lv<g->sm->lv)fprintf(o," ++ dq
    ++ "  %%t%d = bitcast ptr %%lnk.%d.%s to ptr\n" ++ dq
    ++ ",av.id,as->lv,LC(arg->s));else fprintf(o," ++ dq
    ++ "  %%t%d = bitcast ptr %%v.%s.sc%u.%u to ptr\n" ++ dq
    ++ ",av.id,LC(arg->s),as?as->sc:0,as?as->el:0);}else{av=gex(g,arg);i"
    ++ "f(ek==VK_P){int ap=nt(g);fprintf(o," ++ dq ++ "  %%t%d = alloca %s\n"
    ++ dq ++ ",ap,vt(av.k));fprintf(o," ++ dq ++ "  store %s %%t%d, ptr %%t%d\n"
    ++ dq ++ ",vt(av.k),av.id,ap);av.id=ap;av.k=VK_P;}else{V cv=vcast(g,av,ek)"
    ++ ";av=cv;}}arid[i]=av.id;ark[i]=ek;}")%string.

Definition new_pattern : string :=
    ("else if(s->k==4||s->k==5){No*sp=s->ol.n>0&&(s->ol.d[0]->k==N_PD|"
    ++ "|s->ol.d[0]->k==N_FD)?s->ol.d[0]->bd.sp:0;if(!sp&&s->ty&&s->ty->"
    ++ "ops.n>0){sp=s->ty->ops.d[0]->bd.sp;}int arid[64];Vk ark[64];int "
    ++ "arpt[64];for(uint32_t i=0;i<n->ct.arr.n&&i<64;i++){No*pm=sp&&i<s"
    ++ "p->sp.pmm.n?sp->sp.pmm.d[i]:0;arpt[i]=pm&&(pm->pm.md&2)?1:0;}for"
    ++ "(uint32_t i=0;i<n->ct.arr.n&&i<64;i++){No*arg=n->ct.arr.d[i];V a"
    ++ "v={0,VK_I};Vk ek=VK_I;if(arpt[i]&&arg->k==N_ID){ek=VK_P;Sy*as=ar"
    ++ "g->sy?arg->sy:syf(g->sm,arg->s);av.id=nt(g);av.k=VK_P;if(as&&as-"
    ++ ">lv>=0&&as->lv<g->sm->lv)fprintf(o," ++ dq
    ++ "  %%t%d = bitcast ptr %%lnk.%d.%s to ptr\n" ++ dq
    ++ ",av.id,as->lv,LC(arg->s));else fprintf(o," ++ dq
    ++ "  %%t%d = bitcast ptr %%v.%s.sc%u.%u to ptr\n" ++ dq
    ++ ",av.id,LC(arg->s),as?as->sc:0,as?as->el:0);}else{av=gex(g,arg);V"
    ++ " cv=vcast(g,av,ek);av=cv;}arid[i]=av.id;ark[i]=ek;}")%string.

Definition main : IO.io unit :=
  content <- IO.read_file ada83_c ;;
  if Py.contains old_pattern content then
    IO.print "Applying ultra-simple fix..." ;;
    let content := Py.replace content old_pattern new_pattern in
    IO.write_file ada83_c content ;;
    IO.print "Done! Now using pre-scan to identify OUT parameters"
  else
    IO.print "Pattern not found".

End fix_pragma_ultra_simple.

Local Close Scope io_scope.

(* ================================================================== *)
(** * Vocabulary of the properties *)
(* ================================================================== *)

(** Two worlds look the same to a script whose input file is [path]: same
    arguments, same stream contents so far, same text in that file.  The
    other files, the clock, the random seed and the environment are free
    to differ. *)
Definition same_view (path : string) (w1 w2 : IO.world) : Prop :=
  IO.argv w1 = IO.argv w2 /\
  IO.stdout w1 = IO.stdout w2 /\
  IO.stderr w1 = IO.stderr w2 /\
  IO.files w1 path = IO.files w2 path.


(** The input file of a script called as [script.py FILE]. *)
Definition argv1 (w : IO.world) : string := nth 1 (IO.argv w) EmptyString.

(** A world holding one file and nothing else. *)
Definition one_file (path text : string) (args : list string) : IO.world :=
  IO.World (fun p => if String.eqb p path then Some text else None)
           args EmptyString EmptyString 0 0 (fun _ => None).

(** [n] copies of a line. *)
Fixpoint repeat_line (n : nat) (line : string) : string :=
  match n with
  | 0 => EmptyString
  | S n' => (line ++ String Py.LF (repeat_line n' line))%string
  end.

(** The output of one [re.sub] pass, piece by piece: a character copied
    from the input, or the replacement of one match. *)
Inductive piece : Type :=
| Copied (c : ascii)
| Replaced (matched substituted : list ascii).

Definition piece_source (p : piece) : list ascii :=
  match p with
  | Copied c => [c]
  | Replaced m _ => m
  end.

Definition piece_output (p : piece) : list ascii :=
  match p with
  | Copied c => [c]
  | Replaced _ out => out
  end.

(** The character before the cursor once [m] has been passed over. *)
Fixpoint prev_after (prev : option ascii) (m : list ascii) : option ascii :=
  match m with
  | [] => prev
  | c :: m' => prev_after (Some c) m'
  end.

(** [decomposes dotall r tpl prev s ps]: the pieces [ps] cut the text [s]
    (which follows the character [prev]) from left to right; each
    [Replaced m out] sits where the pattern [r] matches exactly [m] in its
    context, and [out] is the template expanded with the groups of that
    match. *)
Inductive decomposes (dotall : bool) (r : Re.regex) (tpl : list Re.titem)
    : option ascii -> list ascii -> list piece -> Prop :=
| dec_nil prev : decomposes dotall r tpl prev [] []
| dec_copy prev c t ps :
    decomposes dotall r tpl (Some c) t ps ->
    decomposes dotall r tpl prev (c :: t) (Copied c :: ps)
| dec_subst prev m tail st ps :
    Re.match_here dotall r prev (m ++ tail) = Some st \/
    Re.match_here_nonempty dotall r prev (m ++ tail) = Some st ->
    Re.rest st = tail ->
    decomposes dotall r tpl (prev_after prev m) tail ps ->
    decomposes dotall r tpl prev (m ++ tail)
      (Replaced m (Re.expand tpl (Re.caps st)) :: ps).

(** [pass dotall pattern repl code out]: [out] is [code] with some matches
    of [pattern] replaced by the expansion of [repl] and every other
    character copied in place. *)
Definition pass (dotall : bool) (pattern repl code out : string) : Prop :=
  exists (r : Re.regex) (ps : list piece),
    Re.compile pattern = Some r /\
    decomposes dotall r (Re.template repl) None (list_ascii_of_string code) ps /\
    flat_map piece_source ps = list_ascii_of_string code /\
    flat_map piece_output ps = list_ascii_of_string out.

(** A cascade of passes, each working on the output of the one before. *)
Inductive cascade : list (string * string) -> string -> string -> Prop :=
| cascade_nil code : cascade [] code code
| cascade_cons pattern repl subs code mid out :
    pass false pattern repl code mid ->
    cascade subs mid out ->
    cascade ((pattern, repl) :: subs) code out.

Definition compiles (pattern : string) : bool :=
  match Re.compile pattern with
  | Some _ => true
  | None => false
  end.

(** The number of groups of a pattern. *)
Fixpoint groups (r : Re.regex) : nat :=
  match r with
  | Re.Group _ r1 => S (groups r1)
  | Re.Cat r1 r2 | Re.Alt r1 r2 => groups r1 + groups r2
  | Re.Star r1 | Re.Ahead _ r1 => groups r1
  | _ => 0
  end.

(** A replacement string that [Re.template] reads as Python does, for a
    pattern with [n] groups.  After a backslash comes [n], another
    backslash, a reference [\1] ... [\99] to one of the [n] groups (with
    no third digit behind it), or a character that is neither a letter
    nor a digit, which Python keeps with its backslash.  On anything else
    (an unknown letter escape, a reference to a missing group, a
    backslash at the end) Python raises [re.error] or reads an octal
    code. *)
Fixpoint replacement_ok (n : nat) (s : list ascii) : bool :=
  match s with
  | [] => true
  | "\"%char :: c :: s' =>
      if Ascii.eqb c "n" || Ascii.eqb c "\" then replacement_ok n s'
      else if Re.is_digit c then
        match s' with
        | d :: s'' =>
            if Re.is_digit d then
              match s'' with
              | e :: _ => negb (Re.is_digit e)
              | [] => true
              end
              && (1 <=? 10 * (Re.code c - 48) + (Re.code d - 48))
              && (10 * (Re.code c - 48) + (Re.code d - 48) <=? n)
              && replacement_ok n s''
            else (1 <=? Re.code c - 48) && (Re.code c - 48 <=? n)
                 && replacement_ok n s'
        | [] => (1 <=? Re.code c - 48) && (Re.code c - 48 <=? n)
        end
      else negb (Re.is_word c) && replacement_ok n s'
  | "\"%char :: [] => false
  | _ :: s' => replacement_ok n s'
  end.

(** A substitution inside what [Re] reads: the pattern compiles and the
    replacement is read as Python reads it. *)
Definition reads (pr : string * string) : bool :=
  match Re.compile (fst pr) with
  | Some r => replacement_ok (groups r) (list_ascii_of_string (snd pr))
  | None => false
  end.

(** The test of [add_spacing]: the line starts a function definition. *)
Definition is_function_definition (line : string) : bool :=
  Re.matches reformat.function_definition line.

(** The lines [add_spacing] appends for [lines] when the loop is entered
    with [result] non-empty iff [ne] and [prev_was_func = prev]. *)
Fixpoint spaced (ne prev : bool) (lines : list string) : list string :=
  match lines with
  | [] => []
  | l :: ls =>
      if is_function_definition l then
        (if ne && negb prev then [EmptyString] else []) ++ l :: spaced true true ls
      else l :: spaced true false ls
  end.

(** Some blank line is inserted: a function-definition line that is not
    the first line and does not follow another one. *)
Fixpoint inserts_blank (ne prev : bool) (lines : list string) : bool :=
  match lines with
  | [] => false
  | l :: ls =>
      if is_function_definition l
      then (ne && negb prev) || inserts_blank true true ls
      else inserts_blank true false ls
  end.

(** No line feed inside. *)
Definition no_lf (l : list ascii) : bool :=
  forallb (fun c => negb (Ascii.eqb c Py.LF)) l.

(** A base expression without member access: no [.] and no [-]. *)
Definition free_of_accesses (x : string) : bool :=
  forallb (fun c => negb (Ascii.eqb c "." || Ascii.eqb c "-"))
          (list_ascii_of_string x).

(** The literal character a pattern must start with, when it has one. *)
Definition first_char (r : Re.regex) : option ascii :=
  match r with
  | Re.Lit c => Some c
  | Re.Cat (Re.Lit c) _ => Some c
  | _ => None
  end.

(** The pattern starts with the [.] or the [-] of a member access. *)
Definition starts_with_access (pattern : string) : bool :=
  match Re.compile pattern with
  | Some r =>
      match first_char r with
      | Some c => Ascii.eqb c "." || Ascii.eqb c "-"
      | None => false
      end
  | None => false
  end.

(** [re.sub] on the text that follows the character [prev]. *)
Definition sub_from (prev : option ascii) (pattern repl s : string) : string :=
  match Re.compile pattern with
  | Some r =>
      string_of_list_ascii
        (Re.sub_go false r (Re.template repl) 0 prev (list_ascii_of_string s))
  | None => s
  end.

Definition apply_subs_from (prev : option ascii) (subs : list (string * string))
    (code : string) : string :=
  fold_left (fun c pr => sub_from prev (fst pr) (snd pr) c) subs code.


(** The set [\w] as a pattern, and the patterns of the shape [(\w+)K]. *)
Definition word_set : Re.regex := Re.CSet false [Re.IWord].

Definition word_group (K : Re.regex) : Re.regex :=
  Re.Cat (Re.Group 1 (Re.Plus word_set)) K.

(** An identifier-like text: word characters only. *)
Definition word_text (x : list ascii) : bool := forallb Re.is_word x.

Definition identifier (x : string) : bool :=
  negb (String.eqb x EmptyString) && word_text (list_ascii_of_string x).

(** A text that cannot continue a word: empty, or starting with a
    character outside [\w]. *)
Definition starts_nonword (tl : list ascii) : bool :=
  match tl with
  | [] => true
  | c :: _ => negb (Re.is_word c)
  end.

(** The pattern must start with a character outside [\w]. *)
Definition starts_with_punct (K : Re.regex) : bool :=
  match first_char K with
  | Some c => negb (Re.is_word c)
  | None => false
  end.

(** What the greedy loop of [\w*] does on a word [w] followed by [tl]: the
    continuation is tried after the whole word first, then after each
    shorter prefix. *)
Fixpoint splits (k : Re.mstate -> option Re.mstate) (prev : option ascii)
    (cs : list (nat * list ascii)) (w tl : list ascii) : option Re.mstate :=
  match w with
  | [] => k (Re.MState prev tl cs)
  | c :: w' =>
      match splits k (Some c) cs w' tl with
      | Some res => Some res
      | None => k (Re.MState prev (w ++ tl) cs)
      end
  end.

(** The literal characters of a template. *)
Fixpoint template_literals (tpl : list Re.titem) : string :=
  match tpl with
  | [] => EmptyString
  | Re.TLit c :: tpl' => String c (template_literals tpl')
  | Re.TRef _ :: tpl' => template_literals tpl'
  end.

(** A file of 80 lines reading [u->d = v.n;]: line 3 stays, line 75 is
    rewritten. *)
Definition bigint_demo : IO.world :=
  one_file fix_bigint_fields.path (repeat_line 80 "u->d = v.n;") [].

(** What a patch guarded by [if old in content:] leaves in the file
    system: the file rewritten with every occurrence replaced when the
    fragment is there, nothing touched when it is not. *)
Definition patched (w : IO.world) (content old new : string)
    : string -> option string :=
  if Py.contains old content
  then IO.update (IO.files w) ada83_c (Py.replace content old new)
  else IO.files w.

(** fix_declarations_out.py has two fragments; the second is looked for in
    the text the first replacement left. *)
Definition declarations_out_step1 (content : string) : string :=
  if Py.contains fix_declarations_out.old_npd content
  then Py.replace content fix_declarations_out.old_npd fix_declarations_out.new_npd
  else content.

Definition declarations_out_step2 (content : string) : string :=
  if Py.contains fix_declarations_out.old_nfd content
  then Py.replace content fix_declarations_out.old_nfd fix_declarations_out.new_nfd
  else content.

(** A file that holds the fragment of fix_nfd.py between two statements,
    and none of the other fragments. *)
Definition patch_demo_text : string :=
  ("int a;" ++ fix_nfd.old_pattern ++ "int b;")%string.

Definition patch_demo : IO.world := one_file ada83_c patch_demo_text [].


(** The substitutions of [apply_all_fixes] with the stand-alone single
    letters applied before the [Token.location] patterns. *)
Definition subs_standalone_first : list (string * string) :=
  apply_all_field_fixes.subs_specific
  ++ apply_all_field_fixes.subs_standalone
  ++ apply_all_field_fixes.subs_location_chain.

Definition line_ok (l : string) : Prop := no_lf (list_ascii_of_string l) = true.

(** Two runs of expand_identifiers.py on the same [in.c], at different
    times, with different seeds and environments, and with a different
    second file lying around. *)
Definition run_one : IO.world :=
  IO.World (fun p => if String.eqb p "in.c" then Some "FP x = Z(N);"%string
                     else None)
           ["expand_identifiers.py"; "in.c"]%string EmptyString EmptyString
           1000 7 (fun _ => None).


(** Two lines that end in CR LF, as the characters of [ada83.c]. *)
Definition crlf_chars : string :=
  ("int a;" ++ String TextIO.CR nl ++ "int b;" ++ String TextIO.CR nl)%string.

(** What fix_bigint_fields.py finds when the file holds [crlf_chars]: the
    text that text mode makes of them. *)
Definition crlf_demo : IO.world :=
  one_file fix_bigint_fields.path (TextIO.read_text crlf_chars) [].

(** A file that holds the first fragment of fix_declarations_out.py, the
    one of the N_PD case, and not the second. *)
Definition declarations_demo_text : string :=
  ("int a;" ++ fix_declarations_out.old_npd ++ "int b;")%string.

Definition declarations_demo : IO.world :=
  one_file ada83_c declarations_demo_text [].



(** A table with two differently-targeted rules for the member [n]: both
    patterns match the [.n] of [b.n]. *)
Definition conflict_rules : list (string * string) :=
  Py.dict_of [("\.n\b", ".size"); ("\.n\b(?!\w)", ".count")]%string.

(* ================================================================== *)
(** * Vocabulary: literal patterns, matches, lines and renamings *)
(* ================================================================== *)

(** The pattern that an escaped literal text compiles to. *)
Fixpoint literal (l : list ascii) : Re.regex :=
  match l with
  | [] => Re.Empty
  | c :: l' =>
      match l' with
      | [] => Re.Lit c
      | _ :: _ => Re.Cat (Re.Lit c) (literal l')
      end
  end.

(** [re.search(pattern, text) is not None]: the pattern matches somewhere
    in the text that follows the character [prev]. *)
Fixpoint search_go (dotall : bool) (r : Re.regex) (prev : option ascii)
    (s : list ascii) : bool :=
  match Re.match_here dotall r prev s with
  | Some _ => true
  | None =>
      match s with
      | [] => false
      | c :: t => search_go dotall r (Some c) t
      end
  end.

(** [re.search(pattern, code) is not None] *)
Definition search (pattern code : string) : bool :=
  match Re.compile pattern with
  | Some r => search_go false r None (list_ascii_of_string code)
  | None => false
  end.

(** A file holding the fragment of fix_sp_fallback.py once. *)
Definition sp_fallback_demo : IO.world :=
  one_file ada83_c ("{" ++ fix_sp_fallback.old_pattern ++ "}") [].

(** Every match of the pattern contains the character [c]: a sufficient
    syntactic test. *)
Fixpoint needs (c : ascii) (r : Re.regex) : bool :=
  match r with
  | Re.Lit x => Ascii.eqb x c
  | Re.Cat r1 r2 => needs c r1 || needs c r2
  | Re.Alt r1 r2 => needs c r1 && needs c r2
  | Re.Group _ r1 => needs c r1
  | _ => false
  end.

(** Every match of the pattern contains the [.] or the [-] of a member
    access. *)
Definition needs_access (pattern : string) : bool :=
  match Re.compile pattern with
  | Some r => needs "." r || needs "-" r
  | None => false
  end.

(** What a match is, stated without the search order: [derives d r st st']
    holds when the pattern [r] can take the matcher from [st] to [st'].
    The matcher finds nothing else ([run_derives] below). *)
Inductive derives (d : bool) : Re.regex -> Re.mstate -> Re.mstate -> Prop :=
| der_empty st : derives d Re.Empty st st
| der_lit c t st :
    Re.rest st = c :: t ->
    derives d (Re.Lit c) st (Re.MState (Some c) t (Re.caps st))
| der_any c t st :
    Re.rest st = c :: t ->
    d || negb (Ascii.eqb c "010") = true ->
    derives d Re.Any st (Re.MState (Some c) t (Re.caps st))
| der_set neg items c t st :
    Re.rest st = c :: t ->
    xorb neg (existsb (fun i => Re.citem_mem i c) items) = true ->
    derives d (Re.CSet neg items) st (Re.MState (Some c) t (Re.caps st))
| der_cat r1 r2 st st1 st2 :
    derives d r1 st st1 -> derives d r2 st1 st2 ->
    derives d (Re.Cat r1 r2) st st2
| der_alt_left r1 r2 st st' :
    derives d r1 st st' -> derives d (Re.Alt r1 r2) st st'
| der_alt_right r1 r2 st st' :
    derives d r2 st st' -> derives d (Re.Alt r1 r2) st st'
| der_star_stop r st : derives d (Re.Star r) st st
| der_star_more r st st1 st2 :
    derives d r st st1 -> derives d (Re.Star r) st1 st2 ->
    derives d (Re.Star r) st st2
| der_group n r st st1 :
    derives d r st st1 ->
    derives d (Re.Group n r) st
      (Re.MState (Re.before st1) (Re.rest st1)
                 ((n, Re.consumed st st1) :: Re.caps st1))
| der_bound st :
    xorb (Re.word_before st) (Re.word_after st) = true ->
    derives d Re.Bound st st
| der_bol st : Re.before st = None -> derives d Re.Bol st st
| der_ahead r st st1 :
    derives d r st st1 ->
    derives d (Re.Ahead false r) st
      (Re.MState (Re.before st) (Re.rest st) (Re.caps st1))
| der_not_ahead r st :
    Re.run d r st Some = None -> derives d (Re.Ahead true r) st st.

(** The 256 characters. *)
Definition all_ascii : list ascii := map ascii_of_nat (seq 0 256).

(** The pattern has a capture group. *)
Fixpoint has_group (r : Re.regex) : bool :=
  match r with
  | Re.Group _ _ => true
  | Re.Cat r1 r2 | Re.Alt r1 r2 => has_group r1 || has_group r2
  | Re.Star r1 | Re.Ahead _ r1 => has_group r1
  | _ => false
  end.

(** Every character a match of [r] consumes or captures satisfies [P]: a
    sufficient syntactic test.  A look-ahead consumes nothing; it passes
    the test when it has no group. *)
Fixpoint chars_in (P : ascii -> bool) (d : bool) (r : Re.regex) : bool :=
  match r with
  | Re.Empty | Re.Bound | Re.Bol => true
  | Re.Lit c => P c
  | Re.Any =>
      forallb (fun c => implb (d || negb (Ascii.eqb c "010")) (P c)) all_ascii
  | Re.CSet neg items =>
      forallb (fun c =>
                 implb (xorb neg (existsb (fun i => Re.citem_mem i c) items))
                       (P c))
              all_ascii
  | Re.Cat r1 r2 | Re.Alt r1 r2 => chars_in P d r1 && chars_in P d r2
  | Re.Star r1 | Re.Group _ r1 => chars_in P d r1
  | Re.Ahead _ r1 => negb (has_group r1)
  end.

(** Every captured text satisfies [P]. *)
Definition caps_in (P : ascii -> bool) (cs : list (nat * list ascii)) : bool :=
  forallb (fun p => forallb P (snd p)) cs.

(** The literal characters of the template satisfy [P]. *)
Fixpoint template_in (P : ascii -> bool) (tpl : list Re.titem) : bool :=
  match tpl with
  | [] => true
  | Re.TLit c :: tpl' => P c && template_in P tpl'
  | Re.TRef _ :: tpl' => template_in P tpl'
  end.

(** A character other than the line feed. *)
Definition not_lf (c : ascii) : bool := negb (Ascii.eqb c Py.LF).

(** The number of line feeds. *)
Definition count_lf (l : list ascii) : nat :=
  length (filter (Ascii.eqb Py.LF) l).

(** A substitution that can neither consume nor produce a line feed. *)
Definition keeps_lines (pr : string * string) : bool :=
  match Re.compile (fst pr) with
  | Some r =>
      chars_in not_lf false r && template_in not_lf (Re.template (snd pr))
  | None => true
  end.

(** In a pass whose pattern and template stay within [P], every replaced
    piece does: the text matched and the text put in its place. *)
Definition piece_in (P : ascii -> bool) (p : piece) : Prop :=
  match p with
  | Copied _ => True
  | Replaced m out => forallb P m = true /\ forallb P out = true
  end.

(** A character other than [c]. *)
Definition differs (c : ascii) (x : ascii) : bool := negb (Ascii.eqb c x).

(** The text starts with the character [c]. *)
Definition head_is (c : ascii) (l : list ascii) : bool :=
  match l with
  | b :: _ => Ascii.eqb c b
  | [] => false
  end.

(** The template starts with a literal character, so what it expands to
    is never empty. *)
Definition starts_with_literal (tpl : list Re.titem) : bool :=
  match tpl with
  | Re.TLit _ :: _ => true
  | _ => false
  end.

(** A substitution that neither consumes nor produces the character [c],
    and whose replacement is never empty: it cannot bring two [c] of the
    text together, nor add one. *)
Definition avoids (c : ascii) (pr : string * string) : bool :=
  match Re.compile (fst pr) with
  | Some r =>
      chars_in (differs c) false r
      && template_in (differs c) (Re.template (snd pr))
      && starts_with_literal (Re.template (snd pr))
  | None => true
  end.

(** Pieces whose replacements are non-empty and free of [c]. *)
Definition piece_avoids (c : ascii) (p : piece) : Prop :=
  match p with
  | Copied _ => True
  | Replaced _ out => out <> [] /\ forallb (differs c) out = true
  end.

(** The text ends with a line feed. *)
Fixpoint ends_lf (l : list ascii) : bool :=
  match l with
  | [] => false
  | c :: t =>
      match t with
      | [] => Ascii.eqb c Py.LF
      | _ :: _ => ends_lf t
      end
  end.

(** A line as [readlines] returns it: some text without line feed and the
    line feed that ends it. *)
Definition full_line (l : list ascii) : Prop :=
  exists b, l = b ++ [Py.LF] /\ forallb not_lf b = true.

(** The last line of a file that does not end with a line feed. *)
Definition last_line (l : list ascii) : Prop :=
  l <> [] /\ forallb not_lf l = true.

(** The lines of a file: full lines, and possibly an unterminated one at
    the end. *)
Inductive lines_ok : list (list ascii) -> Prop :=
| ok_nil : lines_ok []
| ok_last l : last_line l -> lines_ok [l]
| ok_cons l ls : full_line l -> lines_ok ls -> lines_ok (l :: ls).

(** The template holds a literal character. *)
Definition has_literal (tpl : list Re.titem) : bool :=
  existsb (fun i => match i with Re.TLit _ => true | Re.TRef _ => false end) tpl.

(** A substitution that works inside one line: it neither consumes nor
    produces a line feed, matches no empty text and puts no empty text. *)
Definition within_line (pr : string * string) : bool :=
  match Re.compile (fst pr) with
  | Some r =>
      chars_in not_lf false r
      && template_in not_lf (Re.template (snd pr))
      && has_literal (Re.template (snd pr))
      && (needs "." r || needs "-" r)
  | None => true
  end.

(** A replaced piece that stays inside a line: neither the text matched
    nor the text put in its place is empty or holds a line feed. *)
Definition piece_within_line (p : piece) : Prop :=
  match p with
  | Copied _ => True
  | Replaced m out =>
      m <> [] /\ out <> [] /\
      forallb not_lf m = true /\ forallb not_lf out = true
  end.

(** The pattern text with every negative look-ahead [(?!...)] cut out.
    (The look-aheads of the scripts hold no parenthesis.) *)
Fixpoint without_lookahead_go (inside : bool) (s : list ascii) : list ascii :=
  match s with
  | [] => []
  | c :: t =>
      if inside then
        if Ascii.eqb c ")" then without_lookahead_go false t
        else without_lookahead_go true t
      else if Ascii.eqb c "(" then
        match t with
        | "?"%char :: "!"%char :: t' => without_lookahead_go true t'
        | _ => c :: without_lookahead_go false t
        end
      else if Ascii.eqb c "\" then
        match t with
        | x :: t' => c :: x :: without_lookahead_go false t'
        | [] => [c]
        end
      else c :: without_lookahead_go false t
  end.

(** The same substitution with the look-aheads cut out of its pattern. *)
Definition without_lookahead (pr : string * string) : string * string :=
  (string_of_list_ascii (without_lookahead_go false (list_ascii_of_string (fst pr))),
   snd pr).

(** The substitutions whose pattern has a negative look-ahead. *)
Definition with_lookahead (subs : list (string * string))
    : list (string * string) :=
  filter (fun pr => negb (String.eqb (fst (without_lookahead pr)) (fst pr))) subs.

(** A pattern that can only match at a word character. *)
Fixpoint word_start (r : Re.regex) : bool :=
  match r with
  | Re.Lit c => Re.is_word c
  | Re.CSet false items =>
      forallb (fun c =>
                 implb (existsb (fun i => Re.citem_mem i c) items) (Re.is_word c))
              all_ascii
  | Re.Cat r1 _ => word_start r1
  | Re.Alt r1 r2 => word_start r1 && word_start r2
  | Re.Group _ r1 => word_start r1
  | _ => false
  end.

(** [similar wb r r']: [r'] is [r] without a negative look-ahead that
    follows a [\b] after a word character and can only match at a word
    character.  [wb] tells that the character before the cursor is known
    to be a word character. *)
Inductive similar : bool -> Re.regex -> Re.regex -> Prop :=
| sim_refl wb r : similar wb r r
| sim_lit wb c r r' :
    similar (Re.is_word c) r r' ->
    similar wb (Re.Cat (Re.Lit c) r) (Re.Cat (Re.Lit c) r')
| sim_cat wb g r r' :
    similar false r r' -> similar wb (Re.Cat g r) (Re.Cat g r')
| sim_drop R :
    word_start R = true ->
    similar true (Re.Cat Re.Bound (Re.Ahead true R)) Re.Bound.

(** The look-aheads of the substitution are of that kind. *)
Definition redundant_lookahead (pr : string * string) : Prop :=
  exists r r',
    Re.compile (fst pr) = Some r /\
    Re.compile (fst (without_lookahead pr)) = Some r' /\
    similar false r r'.

(** Equality of two texts. *)
Fixpoint text_eqb (a b : list ascii) : bool :=
  match a, b with
  | [], [] => true
  | x :: a', y :: b' => Ascii.eqb x y && text_eqb a' b'
  | _, _ => false
  end.

(** Renaming the identifier [K] to [R], word by word: [acc] is the word
    read so far; at its end it is written as [R] when it is [K] and as it
    is otherwise; every other character is copied. *)
Fixpoint rename_word_go (K R acc s : list ascii) : list ascii :=
  match s with
  | [] => if text_eqb acc K then R else acc
  | c :: t =>
      if Re.is_word c then rename_word_go K R (acc ++ [c]) t
      else (if text_eqb acc K then R else acc) ++ c :: rename_word_go K R [] t
  end.

(** Every whole word [K] of [code] written as [R]. *)
Definition rename_word (K R code : string) : string :=
  string_of_list_ascii
    (rename_word_go (list_ascii_of_string K) (list_ascii_of_string R) []
       (list_ascii_of_string code)).

(** The identifier of a pattern [\bK\b]. *)
Definition key (pattern : string) : string :=
  String.substring 2 (String.length pattern - 4) pattern.

(** What [\bK\b] compiles to. *)
Fixpoint word_then_bound (K : list ascii) : Re.regex :=
  match K with
  | [] => Re.Bound
  | c :: K' => Re.Cat (Re.Lit c) (word_then_bound K')
  end.

(** What [\bK\b] compiles to: the opening [\b], then the rest. *)
Definition whole_word (K : list ascii) : Re.regex :=
  Re.Cat Re.Bound (word_then_bound K).

(** A table entry [\bK\b -> R] with [K] an identifier and [R] a literal
    text. *)
Definition whole_word_entry (kv : string * string) : Prop :=
  Re.compile (fst kv) = Some (whole_word (list_ascii_of_string (key (fst kv)))) /\
  identifier (key (fst kv)) = true /\
  Re.template (snd kv) = map Re.TLit (list_ascii_of_string (snd kv)).

(** Renaming the calls of [K]: a word that is [K] and is directly followed
    by an opening parenthesis is written, with the parenthesis, as [R];
    everything else is copied.  [acc] is the word read so far. *)
Fixpoint rename_call_go (K R acc s : list ascii) : list ascii :=
  match s with
  | [] => acc
  | c :: t =>
      if Re.is_word c then rename_call_go K R (acc ++ [c]) t
      else if text_eqb acc K && Ascii.eqb "(" c then R ++ rename_call_go K R [] t
      else acc ++ c :: rename_call_go K R [] t
  end.

(** Every call [K(] of [code] written as [R]. *)
Definition rename_call (K R code : string) : string :=
  string_of_list_ascii
    (rename_call_go (list_ascii_of_string K) (list_ascii_of_string R) []
       (list_ascii_of_string code)).

(** What [\bK\(] compiles to. *)
Definition call_of (K : list ascii) : Re.regex :=
  Re.Cat Re.Bound (literal (K ++ ["("%char])).

(** A table entry [\bK\( -> R] with [K] an identifier and [R] a literal
    text. *)
Definition call_entry (kv : string * string) : Prop :=
  Re.compile (fst kv) = Some (call_of (list_ascii_of_string (key (fst kv)))) /\
  identifier (key (fst kv)) = true /\
  Re.template (snd kv) = map Re.TLit (list_ascii_of_string (snd kv)).

(** A line that is not empty. *)
Definition nonblank (l : string) : bool := negb (String.eqb l EmptyString).

(** Every function-definition line comes first, or right after an empty
    line, or right after another function-definition line.  [above] is
    the line before [lines], if there is one. *)
Fixpoint well_spaced (above : option string) (lines : list string) : bool :=
  match lines with
  | [] => true
  | l :: ls =>
      (if is_function_definition l then
         match above with
         | None => true
         | Some p => String.eqb p EmptyString || is_function_definition p
         end
       else true)
      && well_spaced (Some l) ls
  end.

(** A world with no file at all. *)
Definition empty_disk (args : list string) : IO.world :=
  IO.World (fun _ => None) args EmptyString EmptyString 0 0 (fun _ => None).

(** The file of fix_nfd.py next to a file of notes. *)
Definition notes_demo : IO.world :=
  IO.World (IO.update (IO.files patch_demo) "notes.txt" "keep this")
           [] EmptyString EmptyString 0 0 (fun _ => None).

(* ================================================================== *)
(** * Facts about the built-ins *)
(* ================================================================== *)

Section ListFacts.

Context {A : Type}.

Lemma set_item_length (l : list A) (i : nat) (v : A) :
  length (Py.set_item l i v) = length l.
Proof.
  revert i; induction l as [|x l IH]; intros [|i]; simpl; auto.
Qed.

Lemma set_item_other (l : list A) (i j : nat) (v : A) :
  i <> j -> nth_error (Py.set_item l i v) j = nth_error l j.
Proof.
  revert i j; induction l as [|x l IH]; intros [|i] [|j] Hij; simpl; auto;
    try contradiction.
Qed.

Lemma set_item_same (l : list A) (i : nat) (v : A) :
  i < length l -> nth_error (Py.set_item l i v) i = Some v.
Proof.
  revert i; induction l as [|x l IH]; intros [|i] Hi; simpl in *; try lia; auto.
  all: try (apply IH; lia).
Qed.

End ListFacts.

Lemma range_spec (a b i : nat) : In i (Py.range a b) <-> a <= i < b.
Proof.
  unfold Py.range. rewrite in_seq. lia.
Qed.

(** [readlines] cuts the text without losing or changing a character. *)
Lemma readlines_go_concat (s : list ascii) :
  concat (Py.readlines_go s) = s.
Proof.
  induction s as [|c t IH]; simpl; [reflexivity|].
  destruct (Ascii.eqb c Py.LF).
  - simpl. now rewrite IH.
  - destruct (Py.readlines_go t) as [|l ls]; simpl in *.
    + now rewrite <- IH.
    + now rewrite <- IH.
Qed.

Lemma string_concat_empty_map (ls : list (list ascii)) :
  String.concat EmptyString (map string_of_list_ascii ls)
  = string_of_list_ascii (concat ls).
Proof.
  induction ls as [|l ls IH]; [reflexivity|].
  simpl map. simpl concat.
  destruct ls as [|l' ls'].
  - simpl. now rewrite app_nil_r.
  - change (String.concat EmptyString
              (string_of_list_ascii l :: map string_of_list_ascii (l' :: ls')))
      with (string_of_list_ascii l ++ EmptyString
            ++ String.concat EmptyString (map string_of_list_ascii (l' :: ls')))%string.
    rewrite IH. simpl String.append.
    clear IH. induction l as [|c l IHl]; simpl; [reflexivity|].
    now rewrite IHl.
Qed.

Lemma writelines_readlines (content : string) :
  Py.writelines (Py.readlines content) = content.
Proof.
  unfold Py.writelines, Py.readlines.
  rewrite string_concat_empty_map, readlines_go_concat.
  apply string_of_list_ascii_of_string.
Qed.

(** The loop of fix_bigint_fields.py touches the indices of its range
    only. *)
Lemma bigint_loop_generic (idxs : list nat) (lines : list string) :
  let body := fun ls i =>
    match nth_error ls i with
    | Some line => Py.set_item ls i (fix_bigint_fields.fix_line line)
    | None => ls
    end in
  length (fold_left body idxs lines) = length lines /\
  forall j, ~ In j idxs ->
    nth_error (fold_left body idxs lines) j = nth_error lines j.
Proof.
  intros body. revert lines.
  induction idxs as [|i idxs IH]; intros lines; simpl.
  - split; auto.
  - destruct (IH (body lines i)) as [Hlen Hnth].
    assert (Hb : length (body lines i) = length lines).
    { unfold body. destruct (nth_error lines i); auto using set_item_length. }
    split; [congruence|].
    intros j Hj. rewrite Hnth by tauto.
    unfold body. destruct (nth_error lines i); auto.
    apply set_item_other. tauto.
Qed.

(* ================================================================== *)
(** * Facts about the matcher and [re.sub] *)
(* ================================================================== *)

Lemma string_list_roundtrip (l : list ascii) :
  list_ascii_of_string (string_of_list_ascii l) = l.
Proof. apply list_ascii_of_string_of_list_ascii. Qed.

Lemma list_of_append (s1 s2 : string) :
  list_ascii_of_string (s1 ++ s2) = list_ascii_of_string s1 ++ list_ascii_of_string s2.
Proof.
  induction s1 as [|c s1 IH]; simpl; [reflexivity|]. now rewrite IH.
Qed.

Lemma string_of_app (l1 l2 : list ascii) :
  string_of_list_ascii (l1 ++ l2)
  = (string_of_list_ascii l1 ++ string_of_list_ascii l2)%string.
Proof.
  induction l1 as [|c l1 IH]; simpl; [reflexivity|]. now rewrite IH.
Qed.

Lemma string_append_assoc (a b c : string) :
  ((a ++ b) ++ c = a ++ (b ++ c))%string.
Proof. induction a as [|x a IH]; simpl; [reflexivity|now rewrite IH]. Qed.

Lemma star_loop_suffix
    (body : Re.mstate -> (Re.mstate -> option Re.mstate) -> option Re.mstate)
    (k : Re.mstate -> option Re.mstate) (res : Re.mstate) :
  (forall st k' , body st k' = Some res ->
     exists st' m, Re.rest st = m ++ Re.rest st' /\ k' st' = Some res) ->
  forall (fuel : nat) (st : Re.mstate),
    Re.star_loop body k fuel st = Some res ->
    exists st' m, Re.rest st = m ++ Re.rest st' /\ k st' = Some res.
Proof.
  intros Hbody. induction fuel as [|fuel IHf]; intros st H; simpl in H.
  - exists st, []. auto.
  - match type of H with
    | match ?X with _ => _ end = _ => destruct X eqn:E1
    end.
    + injection H as ->.
      apply Hbody in E1. destruct E1 as (st1 & m1 & Em & E1).
      destruct (length (Re.rest st1) <? length (Re.rest st)); [|discriminate].
      apply IHf in E1. destruct E1 as (st2 & m2 & Em2 & E2).
      exists st2, (m1 ++ m2). rewrite Em, Em2, app_assoc. auto.
    + exists st, []. auto.
Qed.

(** A successful run ends in a state handed to the continuation, whose
    remaining text is a suffix of the text the run started on. *)
Lemma run_suffix (d : bool) (r : Re.regex) :
  forall (st : Re.mstate) (k : Re.mstate -> option Re.mstate) (res : Re.mstate),
    Re.run d r st k = Some res ->
    exists st' m, Re.rest st = m ++ Re.rest st' /\ k st' = Some res.
Proof.
  induction r as [ | c | | neg items | r1 IH1 r2 IH2 | r1 IH1 r2 IH2
                 | r1 IH1 | n r1 IH1 | | | neg r1 IH1 ];
    intros st k res H; simpl in H.
  - exists st, []. auto.
  - unfold Re.step_char in H. destruct (Re.rest st) as [|x t] eqn:E; [discriminate|].
    destruct (Ascii.eqb c x); [|discriminate].
    exists (Re.MState (Some x) t (Re.caps st)), [x]. auto.
  - unfold Re.step_char in H. destruct (Re.rest st) as [|x t] eqn:E; [discriminate|].
    destruct (d || negb (Ascii.eqb x "010")); [|discriminate].
    exists (Re.MState (Some x) t (Re.caps st)), [x]. auto.
  - unfold Re.step_char in H. destruct (Re.rest st) as [|x t] eqn:E; [discriminate|].
    destruct (xorb neg _); [|discriminate].
    exists (Re.MState (Some x) t (Re.caps st)), [x]. auto.
  - apply IH1 in H. destruct H as (st1 & m1 & E1 & H).
    apply IH2 in H. destruct H as (st2 & m2 & E2 & H).
    exists st2, (m1 ++ m2). rewrite E1, E2, app_assoc. auto.
  - destruct (Re.run d r1 st k) eqn:E1.
    + inversion H; subst. eapply IH1; eauto.
    + eapply IH2; eauto.
  - eapply star_loop_suffix; [|exact H].
    intros st0 k' H0. apply IH1. exact H0.
  - apply IH1 in H. destruct H as (st1 & m1 & E1 & H).
    eexists _, m1. split; [|exact H]. exact E1.
  - destruct (xorb _ _); [|discriminate]. exists st, []. auto.
  - destruct (Re.before st); [discriminate|]. exists st, []. auto.
  - destruct (Re.run d r1 st Some) eqn:E1.
    + destruct neg; [discriminate|].
      eexists _, []. split; [|exact H]. reflexivity.
    + destruct neg; [|discriminate]. exists st, []. auto.
Qed.

(** A match at the cursor consumes a prefix of the text. *)
Lemma match_here_split (d : bool) (r : Re.regex) (prev : option ascii)
    (s : list ascii) (st : Re.mstate) :
  Re.match_here d r prev s = Some st ->
  exists m, s = m ++ Re.rest st.
Proof.
  unfold Re.match_here. intros H.
  apply run_suffix in H. destruct H as (st' & m & E & H).
  injection H as <-. exists m. exact E.
Qed.

Lemma match_here_nonempty_split (d : bool) (r : Re.regex)
    (prev : option ascii) (s : list ascii) (st : Re.mstate) :
  Re.match_here_nonempty d r prev s = Some st ->
  exists m, s = m ++ Re.rest st /\ 0 < length m.
Proof.
  unfold Re.match_here_nonempty. intros H.
  apply run_suffix in H. destruct H as (st' & m & E & H). simpl in E.
  destruct (length (Re.rest st') <? length s) eqn:L; [|discriminate].
  injection H as <-. exists m. split; [exact E|].
  apply Nat.ltb_lt in L. rewrite E, length_app in L. lia.
Qed.

(** Passing over the rest of a match. *)
Lemma sub_go_skip (d : bool) (r : Re.regex) (tpl : list Re.titem) :
  forall (s : list ascii) (n : nat) (prev : option ascii),
    n <= length s ->
    Re.sub_go d r tpl n prev s
    = Re.sub_go d r tpl 0 (prev_after prev (firstn n s)) (skipn n s).
Proof.
  induction s as [|c t IH]; intros n prev Hn.
  - simpl in Hn. assert (n = 0) by lia. subst. reflexivity.
  - destruct n as [|n]; [reflexivity|].
    simpl in Hn. simpl Re.sub_go. rewrite IH by lia. reflexivity.
Qed.

Lemma app_split_length {A : Type} (m t s : list A) :
  s = m ++ t -> m = firstn (length m) s /\ t = skipn (length m) s.
Proof.
  intros ->. split.
  - rewrite firstn_app, Nat.sub_diag, firstn_all. simpl. now rewrite app_nil_r.
  - rewrite skipn_app, Nat.sub_diag, skipn_all. reflexivity.
Qed.

(** Resuming after a match [m] that starts with the character [c]. *)
Lemma sub_go_after_match (d : bool) (r : Re.regex) (tpl : list Re.titem)
    (c : ascii) (t m tail : list ascii) (prev : option ascii) :
  c :: t = m ++ tail -> 0 < length m ->
  Re.sub_go d r tpl (length m - 1) (Some c) t
  = Re.sub_go d r tpl 0 (prev_after prev m) tail.
Proof.
  intros E L. destruct m as [|c' m]; [simpl in L; lia|].
  simpl in E. injection E as Hc Ht. subst c' t.
  replace (length (c :: m) - 1) with (length m) by (simpl; lia).
  rewrite sub_go_skip by (rewrite length_app; lia).
  rewrite firstn_app, Nat.sub_diag, firstn_all. simpl firstn. rewrite app_nil_r.
  rewrite skipn_app, Nat.sub_diag, skipn_all. reflexivity.
Qed.

(** One [re.sub] pass cuts its input into copied characters and replaced
    matches, and its output is the pieces' output in the same order. *)
Lemma sub_go_decomposes (d : bool) (r : Re.regex) (tpl : list Re.titem) :
  forall (n : nat) (s : list ascii) (prev : option ascii),
    length s <= n ->
    exists ps,
      decomposes d r tpl prev s ps /\
      Re.sub_go d r tpl 0 prev s = flat_map piece_output ps.
Proof.
  induction n as [|n IH]; intros s prev Hlen.
  - destruct s; [|simpl in Hlen; lia].
    simpl. destruct (Re.match_here d r prev []) as [st|] eqn:E.
    + destruct (match_here_split _ _ _ _ _ E) as (m & Em).
      symmetry in Em. apply app_eq_nil in Em. destruct Em as [-> Et].
      exists [Replaced [] (Re.expand tpl (Re.caps st))]. split.
      * apply (dec_subst d r tpl prev [] [] st []); auto. constructor.
      * simpl. now rewrite app_nil_r.
    + exists []. split; [constructor|reflexivity].
  - destruct s as [|c t].
    { apply IH. simpl. lia. }
    simpl in Hlen.
    cbn [Re.sub_go].
    destruct (Re.match_here d r prev (c :: t)) as [st|] eqn:E.
    2:{ destruct (IH t (Some c)) as (ps & Hd & Ho); [lia|].
        exists (Copied c :: ps). split; [now constructor|].
        simpl. now rewrite Ho. }
    destruct (match_here_split _ _ _ _ _ E) as (m & Em).
    assert (Hlm : length (c :: t) - length (Re.rest st) = length m).
    { rewrite Em at 1. rewrite length_app. lia. }
    rewrite Hlm.
    destruct (length m) as [|k] eqn:Lm.
    + (* an empty match *)
      destruct m; [|discriminate]. simpl in Em.
      destruct (Re.match_here_nonempty d r prev (c :: t)) as [st2|] eqn:E2.
      * destruct (match_here_nonempty_split _ _ _ _ _ E2) as (m2 & Em2 & Lm2).
        assert (Hskip : length (c :: t) - length (Re.rest st2) - 1 = length m2 - 1).
        { rewrite Em2 at 1. rewrite length_app. lia. }
        rewrite Hskip.
        rewrite (sub_go_after_match d r tpl c t m2 (Re.rest st2) prev Em2 Lm2).
        destruct (IH (Re.rest st2) (prev_after prev m2)) as (ps & Hd & Ho).
        { apply (f_equal (@length ascii)) in Em2.
          rewrite length_app in Em2. simpl in Em2. lia. }
        exists (Replaced [] (Re.expand tpl (Re.caps st))
                :: Replaced m2 (Re.expand tpl (Re.caps st2)) :: ps).
        split.
        -- apply (dec_subst d r tpl prev [] (c :: t) st).
           ++ left. exact E.
           ++ now rewrite <- Em.
           ++ simpl. rewrite Em2.
              apply (dec_subst d r tpl prev m2 (Re.rest st2) st2).
              ** right. rewrite <- Em2. exact E2.
              ** reflexivity.
              ** exact Hd.
        -- simpl. rewrite Ho. reflexivity.
      * destruct (IH t (Some c)) as (ps & Hd & Ho); [lia|].
        exists (Replaced [] (Re.expand tpl (Re.caps st)) :: Copied c :: ps).
        split.
        -- apply (dec_subst d r tpl prev [] (c :: t) st).
           ++ left. exact E.
           ++ now rewrite <- Em.
           ++ simpl. now constructor.
        -- simpl. rewrite Ho. reflexivity.
    + (* a match of k+1 characters *)
      assert (Hk : k = length m - 1) by lia.
      rewrite Hk.
      rewrite (sub_go_after_match d r tpl c t m (Re.rest st) prev Em) by lia.
      destruct (IH (Re.rest st) (prev_after prev m)) as (ps & Hd & Ho).
      { apply (f_equal (@length ascii)) in Em.
        rewrite length_app in Em. simpl in Em. lia. }
      exists (Replaced m (Re.expand tpl (Re.caps st)) :: ps).
      split.
      * rewrite Em.
        apply (dec_subst d r tpl prev m (Re.rest st) st).
        -- left. rewrite <- Em. exact E.
        -- reflexivity.
        -- exact Hd.
      * simpl. rewrite Ho. reflexivity.
Qed.

(** The pieces of a decomposition spell the input. *)
Lemma decomposes_source (d : bool) (r : Re.regex) (tpl : list Re.titem)
    (prev : option ascii) (s : list ascii) (ps : list piece) :
  decomposes d r tpl prev s ps -> flat_map piece_source ps = s.
Proof.
  induction 1; simpl; congruence.
Qed.

(* ================================================================== *)
(** * The engine on small inputs *)
(* ================================================================== *)

(** Every pattern of the embedded scripts compiles. *)
Example all_patterns_compile :
  forallb (fun pr => compiles (fst pr))
    (fix_bigint_fields.subs ++ fix_string_slice_fields.subs
     ++ fix_source_location.subs ++ fix_field_accesses.subs
     ++ apply_all_field_fixes.subs
     ++ reformat.TYPE_NAMES ++ reformat.FUNCTION_NAMES
     ++ reformat.COMMON_VARS ++ reformat.ENUM_CONSTANTS
     ++ reformat.boolean_subs
     ++ expand_identifiers.TYPE_MAPPINGS ++ expand_identifiers.MACRO_MAPPINGS
     ++ expand_identifiers.FUNCTION_MAPPINGS ++ expand_identifiers.ENUM_MAPPINGS
     ++ [(complete_expansion.arena_pattern, EmptyString);
         (reformat.function_definition, EmptyString)])
  = true.
Proof. vm_compute. reflexivity. Qed.

(** Every substitution of the embedded scripts is inside what [Re] reads:
    the pattern compiles, and the replacement holds only the escapes that
    [Re.template] reads as Python does, with group references that the
    pattern has.  The error paths of [re.sub] are never taken by them. *)
Example all_substitutions_read :
  forallb reads
    (fix_bigint_fields.subs ++ fix_string_slice_fields.subs
     ++ fix_source_location.subs ++ fix_field_accesses.subs
     ++ apply_all_field_fixes.subs
     ++ complete_expansion.field_subs ++ complete_expansion.normalize_subs
     ++ reformat.TYPE_NAMES ++ reformat.FUNCTION_NAMES
     ++ reformat.COMMON_VARS ++ reformat.ENUM_CONSTANTS
     ++ reformat.boolean_subs
     ++ expand_identifiers.TYPE_MAPPINGS ++ expand_identifiers.MACRO_MAPPINGS
     ++ expand_identifiers.FUNCTION_MAPPINGS ++ expand_identifiers.ENUM_MAPPINGS
     ++ conflict_rules
     ++ [(complete_expansion.arena_pattern, complete_expansion.arena_repl);
         ("\bA\b(?!\w)", "Arena_Allocator")]%string)
  = true.
Proof. vm_compute. reflexivity. Qed.

(** The dict displays of the scripts list no key twice: each dict has as
    many items as its display. *)
Example dict_sizes :
  map (@length (string * string))
    [reformat.TYPE_NAMES; reformat.FUNCTION_NAMES; reformat.COMMON_VARS;
     reformat.ENUM_CONSTANTS; expand_identifiers.TYPE_MAPPINGS;
     expand_identifiers.MACRO_MAPPINGS; expand_identifiers.FUNCTION_MAPPINGS;
     expand_identifiers.ENUM_MAPPINGS]
  = [30; 80; 7; 39; 4; 3; 84; 19].
Proof. vm_compute. reflexivity. Qed.

(** Matches do not overlap: the base of the second link was consumed by
    the first match. *)
Example sub_group_consumes_base :
  Re.sub "(\w+)->d\b(?!\w)" "\1->digits" "a->d->d + b->d; x->dd"
  = "a->digits->d + b->digits; x->dd"%string.
Proof. vm_compute. reflexivity. Qed.

Example sub_lookahead :
  Re.sub "->l\b(?!ocation|ine|ength|abel|anguage)" "->location"
    "a->l->l + b->line"
  = "a->location->location + b->line"%string.
Proof. vm_compute. reflexivity. Qed.

Example sub_positive_lookahead :
  Re.sub "\bN\b(?=\s*\))" "NULL_STRING_SLICE" "f(N ) + N; (N)"
  = "f(NULL_STRING_SLICE ) + N; (NULL_STRING_SLICE)"%string.
Proof. vm_compute. reflexivity. Qed.

Example sub_not :
  Re.sub "!\s*([a-zA-Z_])" "not \1" "!!x + !  y != z"
  = "!not x + not y != z"%string.
Proof. vm_compute. reflexivity. Qed.

(** Empty matches are replaced too, next to a non-empty match as well. *)
Example sub_empty_matches :
  Re.sub "x*" "-" "abxd" = "-a-b--d-"%string.
Proof. vm_compute. reflexivity. Qed.

Example matches_function_definition :
  Re.matches reformat.function_definition "static No **f (int a, char b){" = true /\
  Re.matches reformat.function_definition "  int f(void) {" = false /\
  Re.matches reformat.function_definition "int x;" = false.
Proof. vm_compute. repeat split; reflexivity. Qed.

Example replace_all_occurrences :
  Py.replace "abcabcab" "abc" "X" = "XXab"%string /\
  Py.contains "bca" "abcabcab" = true /\
  Py.contains "cc" "abcabcab" = false.
Proof. vm_compute. repeat split; reflexivity. Qed.

Example readlines_keeps_terminators :
  Py.readlines ("a" ++ String Py.LF ("b" ++ String Py.LF "c"))
  = [("a" ++ String Py.LF EmptyString)%string;
     ("b" ++ String Py.LF EmptyString)%string; "c"%string] /\
  Py.split_lines ("a" ++ String Py.LF ("b" ++ String Py.LF EmptyString))
  = ["a"%string; "b"%string; EmptyString].
Proof. vm_compute. split; reflexivity. Qed.

(** The Arena step rewrites the definition and every stand-alone [A],
    the one in the comment included. *)
Example expand_arena_demo :
  complete_expansion.expand_arena
    "typedef struct { char *b, *p, *e; } A; /* A */ A*a;"
  = ("typedef struct" ++ nl ++ "{" ++ nl
     ++ "  char *base, *pointer, *end;" ++ nl
     ++ "} Arena_Allocator; /* Arena_Allocator */ Arena_Allocator*a;")%string.
Proof. vm_compute. reflexivity. Qed.

(* ================================================================== *)
(** * Patterns that start with [(\w+)] on a text that starts with a word *)
(* ================================================================== *)

Lemma word_set_step (d : bool) (c : ascii) (t : list ascii)
    (prev : option ascii) (cs : list (nat * list ascii))
    (k : Re.mstate -> option Re.mstate) :
  Re.run d word_set (Re.MState prev (c :: t) cs) k
  = if Re.is_word c then k (Re.MState (Some c) t cs) else None.
Proof.
  simpl. unfold Re.step_char. simpl. rewrite orb_false_r. reflexivity.
Qed.

Lemma word_set_end (d : bool) (prev : option ascii)
    (cs : list (nat * list ascii)) (k : Re.mstate -> option Re.mstate) :
  Re.run d word_set (Re.MState prev [] cs) k = None.
Proof. reflexivity. Qed.

Lemma star_loop_step
    (body : Re.mstate -> (Re.mstate -> option Re.mstate) -> option Re.mstate)
    (k : Re.mstate -> option Re.mstate) (fuel : nat) (st : Re.mstate) :
  Re.star_loop body k (S fuel) st
  = match body st
            (fun st' =>
               if length (Re.rest st') <? length (Re.rest st)
               then Re.star_loop body k fuel st' else None) with
    | Some res => Some res
    | None => k st
    end.
Proof. reflexivity. Qed.

(** The greedy loop tries the longest word first. *)
Lemma star_loop_word_body
    (body : Re.mstate -> (Re.mstate -> option Re.mstate) -> option Re.mstate)
    (k : Re.mstate -> option Re.mstate) (tl : list ascii) :
  (forall c t prev cs k',
     body (Re.MState prev (c :: t) cs) k'
     = if Re.is_word c then k' (Re.MState (Some c) t cs) else None) ->
  (forall prev cs k', body (Re.MState prev [] cs) k' = None) ->
  starts_nonword tl = true ->
  forall (w : list ascii) (fuel : nat) (prev : option ascii)
         (cs : list (nat * list ascii)),
    word_text w = true ->
    length w <= fuel ->
    Re.star_loop body k fuel (Re.MState prev (w ++ tl) cs)
    = splits k prev cs w tl.
Proof.
  intros Hstep Hend Htl.
  induction w as [|c w IH]; intros fuel prev cs Hw Hfuel.
  - simpl app. simpl splits. destruct fuel as [|fuel]; [reflexivity|].
    rewrite star_loop_step.
    destruct tl as [|c t].
    + rewrite Hend. reflexivity.
    + rewrite Hstep. simpl in Htl.
      apply negb_true_iff in Htl. rewrite Htl. reflexivity.
  - destruct fuel as [|fuel]; [simpl in Hfuel; lia|].
    simpl in Hw. apply andb_prop in Hw. destruct Hw as [Hc Hw].
    simpl app. rewrite star_loop_step, Hstep, Hc.
    cbn [Re.rest].
    replace (length (w ++ tl) <? length (c :: w ++ tl)) with true
      by (symmetry; apply Nat.ltb_lt; simpl; lia).
    rewrite IH by (auto; simpl in Hfuel; lia).
    reflexivity.
Qed.

Lemma star_loop_word (d : bool) (k : Re.mstate -> option Re.mstate)
    (tl : list ascii) :
  starts_nonword tl = true ->
  forall (w : list ascii) (fuel : nat) (prev : option ascii)
         (cs : list (nat * list ascii)),
    word_text w = true ->
    length w <= fuel ->
    Re.star_loop (Re.run d word_set) k fuel (Re.MState prev (w ++ tl) cs)
    = splits k prev cs w tl.
Proof.
  apply star_loop_word_body.
  - intros. apply word_set_step.
  - intros. apply word_set_end.
Qed.

(** When the continuation rejects every text that starts with a word
    character, only the split after the whole word counts. *)
Lemma splits_whole (k : Re.mstate -> option Re.mstate) (tl : list ascii) :
  (forall b c t cs, Re.is_word c = true -> k (Re.MState b (c :: t) cs) = None) ->
  forall (w : list ascii) (prev : option ascii) (cs : list (nat * list ascii)),
    word_text w = true ->
    splits k prev cs w tl = k (Re.MState (prev_after prev w) tl cs).
Proof.
  intros Hk. induction w as [|c w IH]; intros prev cs Hw; [reflexivity|].
  simpl in Hw. apply andb_prop in Hw. destruct Hw as [Hc Hw].
  simpl splits. rewrite IH by exact Hw. simpl prev_after.
  destruct (k (Re.MState (prev_after (Some c) w) tl cs)); [reflexivity|].
  simpl app. now rewrite Hk.
Qed.

Lemma punct_rejects_word (d : bool) (K : Re.regex) :
  starts_with_punct K = true ->
  forall b c t cs k,
    Re.is_word c = true -> Re.run d K (Re.MState b (c :: t) cs) k = None.
Proof.
  unfold starts_with_punct. intros HK b c t cs k Hc.
  destruct (first_char K) as [c0|] eqn:E; [|discriminate].
  apply negb_true_iff in HK.
  assert (Hne : Ascii.eqb c0 c = false).
  { destruct (Ascii.eqb c0 c) eqn:Ec; [|reflexivity].
    apply Ascii.eqb_eq in Ec. subst. congruence. }
  destruct K as [ | c1 | | | r1 r2 | | | | | | ]; try discriminate.
  - simpl in E. injection E as ->. simpl. unfold Re.step_char. simpl.
    now rewrite Hne.
  - destruct r1; try discriminate.
    simpl in E. injection E as ->. simpl. unfold Re.step_char. simpl.
    now rewrite Hne.
Qed.

Lemma consumed_prefix (x tl : list ascii) (b b' : option ascii)
    (cs cs' : list (nat * list ascii)) :
  Re.consumed (Re.MState b (x ++ tl) cs) (Re.MState b' tl cs') = x.
Proof.
  unfold Re.consumed. simpl. rewrite length_app.
  replace (length x + length tl - length tl) with (length x) by lia.
  rewrite firstn_app, Nat.sub_diag, firstn_all. simpl. apply app_nil_r.
Qed.

(** A match of [(\w+)K] at the start of a word [x] followed by [tl] is a
    match of [K] at [tl], with [x] as its first group. *)
Lemma match_word_group (d : bool) (K : Re.regex) (x tl : list ascii)
    (prev : option ascii) :
  x <> [] -> word_text x = true -> starts_nonword tl = true ->
  starts_with_punct K = true ->
  Re.match_here d (word_group K) prev (x ++ tl)
  = Re.run d K (Re.MState (prev_after prev x) tl [(1, x)]) Some.
Proof.
  intros Hne Hx Htl HK.
  destruct x as [|c x]; [congruence|].
  simpl in Hx. apply andb_prop in Hx. destruct Hx as [Hc Hx].
  unfold Re.match_here, word_group, Re.Plus.
  cbn [Re.run]. simpl app. rewrite word_set_step, Hc.
  cbn [Re.rest].
  rewrite star_loop_word;
    [|assumption|assumption|rewrite length_app; lia].
  rewrite splits_whole.
  - cbn [Re.before Re.rest Re.caps].
    change (c :: x ++ tl) with ((c :: x) ++ tl).
    rewrite consumed_prefix. reflexivity.
  - intros b c' t cs Hc'. cbn [Re.before Re.rest Re.caps].
    apply punct_rejects_word; assumption.
  - exact Hx.
Qed.

Lemma sub_go_miss (d : bool) (r : Re.regex) (tpl : list Re.titem)
    (prev : option ascii) (c : ascii) (t : list ascii) :
  Re.match_here d r prev (c :: t) = None ->
  Re.sub_go d r tpl 0 prev (c :: t) = c :: Re.sub_go d r tpl 0 (Some c) t.
Proof. intros H. cbn [Re.sub_go]. now rewrite H. Qed.

Lemma sub_go_hit (d : bool) (r : Re.regex) (tpl : list Re.titem)
    (prev : option ascii) (s m : list ascii) (st : Re.mstate) :
  Re.match_here d r prev s = Some st ->
  s = m ++ Re.rest st -> 0 < length m ->
  Re.sub_go d r tpl 0 prev s
  = Re.expand tpl (Re.caps st)
    ++ Re.sub_go d r tpl 0 (prev_after prev m) (Re.rest st).
Proof.
  intros E Em Lm.
  destruct s as [|c t].
  { destruct m; [simpl in Lm; lia|discriminate]. }
  cbn [Re.sub_go]. rewrite E.
  assert (Hlm : length (c :: t) - length (Re.rest st) = length m).
  { rewrite Em at 1. rewrite length_app. lia. }
  rewrite Hlm.
  destruct (length m) as [|k] eqn:Lk; [lia|].
  replace k with (length m - 1) by lia.
  now rewrite (sub_go_after_match d r tpl c t m (Re.rest st) prev Em) by lia.
Qed.

(** [(\w+)K] on a word followed by a text where [K] does not match: the
    word is copied. *)
Lemma sub_go_word_miss (d : bool) (K : Re.regex) (tpl : list Re.titem)
    (tl : list ascii) :
  starts_nonword tl = true ->
  starts_with_punct K = true ->
  (forall b cs, Re.run d K (Re.MState b tl cs) Some = None) ->
  forall (x : list ascii) (prev : option ascii),
    word_text x = true ->
    Re.sub_go d (word_group K) tpl 0 prev (x ++ tl)
    = x ++ Re.sub_go d (word_group K) tpl 0 (prev_after prev x) tl.
Proof.
  intros Htl HK Hfail. induction x as [|c x IH]; intros prev Hx; [reflexivity|].
  simpl app. rewrite sub_go_miss.
  - simpl in Hx. apply andb_prop in Hx. destruct Hx as [_ Hx].
    now rewrite IH.
  - change (c :: x ++ tl) with ((c :: x) ++ tl).
    rewrite match_word_group by (auto; discriminate).
    apply Hfail.
Qed.

(** [(\w+)K] on a word followed by a text where [K] matches: the word
    and the match of [K] are replaced together, the word being group 1. *)
Lemma sub_go_word_hit (d : bool) (K : Re.regex) (tpl : list Re.titem)
    (x tl rest' : list ascii) (prev b' : option ascii) :
  x <> [] -> word_text x = true -> starts_nonword tl = true ->
  starts_with_punct K = true ->
  (forall b cs, Re.run d K (Re.MState b tl cs) Some = Some (Re.MState b' rest' cs)) ->
  exists prev',
    Re.sub_go d (word_group K) tpl 0 prev (x ++ tl)
    = Re.expand tpl [(1, x)]
      ++ Re.sub_go d (word_group K) tpl 0 prev' rest'.
Proof.
  intros Hne Hx Htl HK Hrun.
  pose proof (match_word_group d K x tl prev Hne Hx Htl HK) as Hm.
  rewrite Hrun in Hm.
  destruct (match_here_split _ _ _ _ _ Hm) as (m & Em). cbn [Re.rest] in Em.
  assert (Lm : 0 < length m).
  { specialize (Hrun None []).
    apply run_suffix in Hrun. destruct Hrun as (st' & m' & E' & Hs).
    injection Hs as ->. cbn [Re.rest] in E'.
    apply (f_equal (@length ascii)) in Em.
    apply (f_equal (@length ascii)) in E'.
    rewrite !length_app in *.
    destruct x; [congruence|]. simpl in Em. lia. }
  exists (prev_after prev m).
  apply (sub_go_hit d (word_group K) tpl prev (x ++ tl) m _ Hm); auto.
Qed.

Lemma expand_literals (l : list ascii) (cs : list (nat * list ascii)) :
  Re.expand (map Re.TLit l) cs = l.
Proof. induction l as [|c l IH]; simpl; [reflexivity|now rewrite IH]. Qed.

Lemma expand_group_then_literals (x l : list ascii) :
  Re.expand (Re.TRef 1 :: map Re.TLit l) [(1, x)] = x ++ l.
Proof. simpl. now rewrite expand_literals. Qed.

Lemma identifier_word (x : string) :
  identifier x = true ->
  list_ascii_of_string x <> [] /\ word_text (list_ascii_of_string x) = true.
Proof.
  unfold identifier. intros H. apply andb_prop in H. destruct H as [Hne Hw].
  split; [|exact Hw].
  intros E. destruct x; [discriminate|discriminate].
Qed.

Lemma identifier_free_of_accesses (x : string) :
  identifier x = true -> free_of_accesses x = true.
Proof.
  intros H. apply identifier_word in H. destruct H as [_ Hw].
  unfold free_of_accesses, word_text in *.
  rewrite forallb_forall in *. intros c Hc. specialize (Hw c Hc).
  apply negb_true_iff. apply orb_false_iff.
  split; apply Ascii.eqb_neq; intros ->; vm_compute in Hw; discriminate.
Qed.

(** One pass [(\w+)K -> \1 lits] over an identifier followed by [y]. *)
Lemma sub_word_miss (pattern repl x y y' : string) (K : Re.regex) :
  Re.compile pattern = Some (word_group K) ->
  starts_with_punct K = true ->
  identifier x = true ->
  starts_nonword (list_ascii_of_string y) = true ->
  (forall b cs,
     Re.run false K (Re.MState b (list_ascii_of_string y) cs) Some = None) ->
  (forall prev, sub_from prev pattern repl y = y') ->
  Re.sub pattern repl (x ++ y) = (x ++ y')%string.
Proof.
  intros Hc HK Hx Hy Hfail Hrest.
  apply identifier_word in Hx. destruct Hx as [_ Hw].
  unfold Re.sub, Re.sub_flags. rewrite Hc, list_of_append.
  rewrite sub_go_word_miss by assumption.
  rewrite string_of_app, string_of_list_ascii_of_string.
  f_equal. rewrite <- (Hrest (prev_after None (list_ascii_of_string x))).
  unfold sub_from. now rewrite Hc.
Qed.

Lemma sub_word_hit (pattern repl x y lits out : string) (K : Re.regex)
    (b' : option ascii) (rest' : list ascii) :
  Re.compile pattern = Some (word_group K) ->
  starts_with_punct K = true ->
  Re.template repl = Re.TRef 1 :: map Re.TLit (list_ascii_of_string lits) ->
  identifier x = true ->
  starts_nonword (list_ascii_of_string y) = true ->
  (forall b cs,
     Re.run false K (Re.MState b (list_ascii_of_string y) cs) Some
     = Some (Re.MState b' rest' cs)) ->
  (forall prev,
     string_of_list_ascii
       (Re.sub_go false (word_group K) (Re.template repl) 0 prev rest') = out) ->
  Re.sub pattern repl (x ++ y) = (x ++ lits ++ out)%string.
Proof.
  intros Hc HK Ht Hx Hy Hrun Hrest.
  apply identifier_word in Hx. destruct Hx as [Hne Hw].
  unfold Re.sub, Re.sub_flags. rewrite Hc, list_of_append.
  destruct (sub_go_word_hit false K (Re.template repl)
              (list_ascii_of_string x) (list_ascii_of_string y) rest' None b'
              Hne Hw Hy HK Hrun) as (prev' & E).
  rewrite E, string_of_app, Hrest.
  rewrite Ht, expand_group_then_literals, string_of_app.
  rewrite !string_of_list_ascii_of_string.
  now rewrite string_append_assoc.
Qed.

(* ================================================================== *)
(** * The line range of fix_bigint_fields.py *)
(* ================================================================== *)

Lemma bigint_loop_seq (n a : nat) (lines : list string) :
  a + n <= length lines ->
  let body := fun ls i =>
    match nth_error ls i with
    | Some line => Py.set_item ls i (fix_bigint_fields.fix_line line)
    | None => ls
    end in
  forall j, a <= j < a + n ->
    nth_error (fold_left body (seq a n) lines) j
    = option_map fix_bigint_fields.fix_line (nth_error lines j).
Proof.
  intros Hlen body. revert a lines Hlen.
  induction n as [|n IH]; intros a lines Hlen j Hj; [lia|].
  simpl fold_left.
  assert (Ha : a < length lines) by lia.
  destruct (nth_error lines a) as [line|] eqn:Ea.
  2:{ apply nth_error_None in Ea. lia. }
  assert (Hb : body lines a = Py.set_item lines a (fix_bigint_fields.fix_line line)).
  { unfold body. now rewrite Ea. }
  rewrite Hb.
  destruct (Nat.eq_dec j a) as [->|Hne].
  - destruct (bigint_loop_generic (seq (S a) n)
                (Py.set_item lines a (fix_bigint_fields.fix_line line))) as [_ Hout].
    fold body in Hout. rewrite Hout.
    + rewrite set_item_same by assumption. now rewrite Ea.
    + rewrite in_seq. lia.
  - rewrite IH.
    + now rewrite set_item_other by auto.
    + rewrite set_item_length. lia.
    + lia.
Qed.

(** Characters without a carriage return are read as they are. *)
Lemma read_text_cr_free (chars : string) :
  TextIO.cr_free chars = true -> TextIO.read_text chars = chars.
Proof.
  unfold TextIO.cr_free, TextIO.read_text. intros H.
  rewrite <- (string_of_list_ascii_of_string chars) at 2. f_equal.
  induction (list_ascii_of_string chars) as [|c t IH]; [reflexivity|].
  cbn [forallb] in H. apply andb_true_iff in H. destruct H as [Hc Ht].
  cbn [TextIO.universal_newlines].
  apply negb_true_iff in Hc. rewrite Hc. f_equal. now apply IH.
Qed.

(** C8, the claim as it stands, fails: the lines outside the range are
    not written back byte for byte.  The script reads in text mode, which
    turns the line ends CR LF into LF, and writes what it read: a file of
    two lines that end in CR LF, both far before line 74, comes back with
    both lines ending in LF. *)
Lemma crlf_line_ends_rewritten :
  length (Py.readlines (TextIO.read_text crlf_chars)) = 2 /\
  IO.result fix_bigint_fields.main crlf_demo = IO.Done tt /\
  IO.files (IO.exec fix_bigint_fields.main crlf_demo) fix_bigint_fields.path
  = Some ("int a;" ++ nl ++ "int b;" ++ nl)%string /\
  TextIO.write_text ("int a;" ++ nl ++ "int b;" ++ nl) <> crlf_chars.
Proof.
  repeat apply conj; vm_compute; first [reflexivity | discriminate].
Qed.

(** C8, amended.  Line-range framing of the bigint pass, on the text that
    text mode reads: whatever text [ada83.c] holds, fix_bigint_fields.py
    writes back the lines it read (their concatenation is the text
    itself), with lines 74 through 307 (1-indexed; indices 73..306)
    replaced by their rewritten form and every line before line 74 and
    after line 307 exactly as it was read.  When the characters of the
    file hold no carriage return, the text read is these characters, so
    the lines outside the range come back character for character. *)
Theorem bigint_pass_frame (w : IO.world) (content : string) :
  IO.files w fix_bigint_fields.path = Some content ->
  exists lines' : list string,
    IO.files (IO.exec fix_bigint_fields.main w) fix_bigint_fields.path
      = Some (Py.writelines lines') /\
    Py.writelines (Py.readlines content) = content /\
    length lines' = length (Py.readlines content) /\
    (forall i, i < 73 \/ 307 <= i ->
       nth_error lines' i = nth_error (Py.readlines content) i) /\
    (forall i, 73 <= i < 307 ->
       nth_error lines' i
       = option_map fix_bigint_fields.fix_line
           (nth_error (Py.readlines content) i)) /\
    (forall chars : string,
       content = TextIO.read_text chars -> TextIO.cr_free chars = true ->
       content = chars /\
       TextIO.write_text (Py.writelines lines') = Py.writelines lines').
Proof.
  intros Hfile.
  destruct w as [fs args out err ck sd env];
    cbn [IO.files IO.argv IO.stdout IO.stderr] in *.
  exists (fix_bigint_fields.loop (Py.readlines content)).
  split.
  { unfold fix_bigint_fields.main, IO.exec, IO.bind, IO.read_file.
    cbn [IO.files]. rewrite Hfile.
    unfold IO.write_file, IO.print, IO.update. cbn [snd IO.files].
    reflexivity. }
  split; [apply writelines_readlines|].
  set (lines := Py.readlines content).
  unfold fix_bigint_fields.loop.
  pose proof (bigint_loop_generic
                (Py.range fix_bigint_fields.start_line
                   (Nat.min fix_bigint_fields.end_line (length lines))) lines)
    as [Hlen Hout].
  split; [exact Hlen|]. split; [|split].
  - intros i Hi. apply Hout. rewrite range_spec.
    unfold fix_bigint_fields.start_line, fix_bigint_fields.end_line. lia.
  - intros i Hi.
    destruct (Nat.lt_ge_cases i (length lines)) as [Hin|Hge].
    + unfold Py.range. apply bigint_loop_seq;
        unfold fix_bigint_fields.start_line, fix_bigint_fields.end_line; lia.
    + rewrite Hout.
      * assert (E : nth_error lines i = None) by now apply nth_error_None.
        now rewrite E.
      * rewrite range_spec. lia.
  - intros chars E Hcr. split; [|reflexivity].
    rewrite E. now apply read_text_cr_free.
Qed.

Lemma bigint_pass_frame_witness :
  exists lines' : list string,
    IO.files (IO.exec fix_bigint_fields.main bigint_demo) fix_bigint_fields.path
      = Some (Py.writelines lines') /\
    Py.writelines (Py.readlines (repeat_line 80 "u->d = v.n;"))
      = repeat_line 80 "u->d = v.n;" /\
    length lines' = length (Py.readlines (repeat_line 80 "u->d = v.n;")) /\
    (forall i, i < 73 \/ 307 <= i ->
       nth_error lines' i
       = nth_error (Py.readlines (repeat_line 80 "u->d = v.n;")) i) /\
    (forall i, 73 <= i < 307 ->
       nth_error lines' i
       = option_map fix_bigint_fields.fix_line
           (nth_error (Py.readlines (repeat_line 80 "u->d = v.n;")) i)) /\
    (forall chars : string,
       repeat_line 80 "u->d = v.n;" = TextIO.read_text chars ->
       TextIO.cr_free chars = true ->
       repeat_line 80 "u->d = v.n;" = chars /\
       TextIO.write_text (Py.writelines lines') = Py.writelines lines').
Proof.
  apply (bigint_pass_frame bigint_demo (repeat_line 80 "u->d = v.n;")).
  reflexivity.
Defined.

Example bigint_demo_lines :
  let lines' := fix_bigint_fields.loop
                  (Py.readlines (repeat_line 80 "u->d = v.n;")) in
  nth_error lines' 2 = Some ("u->d = v.n;" ++ String Py.LF EmptyString)%string /\
  nth_error lines' 74
    = Some ("u->digits = v.count;" ++ String Py.LF EmptyString)%string.
Proof. vm_compute. split; reflexivity. Qed.

(* ================================================================== *)
(** * The literal patches *)
(* ================================================================== *)

Ltac run_patch Hfile :=
  unfold IO.exec, IO.bind, IO.read_file;
  cbn [IO.files IO.argv IO.stdout IO.stderr];
  rewrite Hfile;
  unfold patched;
  repeat match goal with
         | |- context [Py.contains ?o ?c] => destruct (Py.contains o c)
         | |- context [Py.find ?c ?p] => destruct (Py.find c p)
         end;
  reflexivity.

Lemma fix_npd_files (w : IO.world) (content : string) :
  IO.files w ada83_c = Some content ->
  IO.files (IO.exec fix_npd.main w)
  = patched w content fix_npd.old_pattern fix_npd.new_pattern.
Proof.
  intros Hfile.
  destruct w as [fs args out err ck sd env];
    cbn [IO.files IO.argv IO.stdout IO.stderr] in *.
  unfold fix_npd.main. run_patch Hfile.
Qed.

Lemma fix_nfd_files (w : IO.world) (content : string) :
  IO.files w ada83_c = Some content ->
  IO.files (IO.exec fix_nfd.main w)
  = patched w content fix_nfd.old_pattern fix_nfd.new_pattern.
Proof.
  intros Hfile.
  destruct w as [fs args out err ck sd env];
    cbn [IO.files IO.argv IO.stdout IO.stderr] in *.
  unfold fix_nfd.main. run_patch Hfile.
Qed.

Lemma fix_pragma_ultra_simple_files (w : IO.world) (content : string) :
  IO.files w ada83_c = Some content ->
  IO.files (IO.exec fix_pragma_ultra_simple.main w)
  = patched w content fix_pragma_ultra_simple.old_pattern
      fix_pragma_ultra_simple.new_pattern.
Proof.
  intros Hfile.
  destruct w as [fs args out err ck sd env];
    cbn [IO.files IO.argv IO.stdout IO.stderr] in *.
  unfold fix_pragma_ultra_simple.main. run_patch Hfile.
Qed.

Lemma fix_declarations_out_files (w : IO.world) (content : string) :
  IO.files w ada83_c = Some content ->
  IO.files (IO.exec fix_declarations_out.main w)
  = if Py.contains fix_declarations_out.old_npd content
       || Py.contains fix_declarations_out.old_nfd (declarations_out_step1 content)
    then IO.update (IO.files w) ada83_c
           (declarations_out_step2 (declarations_out_step1 content))
    else IO.files w.
Proof.
  intros Hfile.
  destruct w as [fs args out err ck sd env];
    cbn [IO.files IO.argv IO.stdout IO.stderr] in *.
  unfold fix_declarations_out.main.
  unfold IO.exec, IO.bind, IO.read_file.
  cbn [IO.files IO.argv IO.stdout IO.stderr]. rewrite Hfile.
  unfold declarations_out_step2, declarations_out_step1.
  destruct (Py.contains fix_declarations_out.old_npd content);
    cbn -[Py.contains Py.replace String.append fix_declarations_out.old_nfd
          fix_declarations_out.new_nfd fix_declarations_out.old_npd
          fix_declarations_out.new_npd].
  - destruct (Py.contains fix_declarations_out.old_nfd
                (Py.replace content fix_declarations_out.old_npd
                   fix_declarations_out.new_npd)); reflexivity.
  - destruct (Py.contains fix_declarations_out.old_nfd content); reflexivity.
Qed.

Lemma fix_pragma_out_files (w : IO.world) (content : string) :
  IO.files w ada83_c = Some content ->
  IO.files (IO.exec fix_pragma_out.main w)
  = patched w content fix_pragma_out.old_pattern fix_pragma_out.new_pattern.
Proof.
  intros Hfile.
  destruct w as [fs args out err ck sd env];
    cbn [IO.files IO.argv IO.stdout IO.stderr] in *.
  unfold fix_pragma_out.main. run_patch Hfile.
Qed.

Lemma fix_pragma_out_v3_files (w : IO.world) (content : string) :
  IO.files w ada83_c = Some content ->
  IO.files (IO.exec fix_pragma_out_v3.main w)
  = patched w content fix_pragma_out_v3.old_pattern fix_pragma_out_v3.new_pattern.
Proof.
  intros Hfile.
  destruct w as [fs args out err ck sd env];
    cbn [IO.files IO.argv IO.stdout IO.stderr] in *.
  unfold fix_pragma_out_v3.main. run_patch Hfile.
Qed.

Lemma fix_pragma_import_direct_files (w : IO.world) (content : string) :
  IO.files w ada83_c = Some content ->
  IO.files (IO.exec fix_pragma_import_direct.main w)
  = patched w content fix_pragma_import_direct.old_start
      fix_pragma_import_direct.new_start.
Proof.
  intros Hfile.
  destruct w as [fs args out err ck sd env];
    cbn [IO.files IO.argv IO.stdout IO.stderr] in *.
  unfold fix_pragma_import_direct.main. run_patch Hfile.
Qed.

Lemma fix_call_frame_files (w : IO.world) (content : string) :
  IO.files w ada83_c = Some content ->
  IO.files (IO.exec fix_call_frame.main w)
  = patched w content fix_call_frame.old_pattern fix_call_frame.new_pattern.
Proof.
  intros Hfile.
  destruct w as [fs args out err ck sd env];
    cbn [IO.files IO.argv IO.stdout IO.stderr] in *.
  unfold fix_call_frame.main. run_patch Hfile.
Qed.

Lemma fix_sp_fallback_files (w : IO.world) (content : string) :
  IO.files w ada83_c = Some content ->
  IO.files (IO.exec fix_sp_fallback.main w)
  = patched w content fix_sp_fallback.old_pattern fix_sp_fallback.new_pattern.
Proof.
  intros Hfile.
  destruct w as [fs args out err ck sd env];
    cbn [IO.files IO.argv IO.stdout IO.stderr] in *.
  unfold fix_sp_fallback.main. run_patch Hfile.
Qed.

(** C9, the claim as it stands, fails for fix_declarations_out.py, which
    has two fragments: on a file that holds the N_PD fragment and not the
    N_FD one, it writes the file with the N_PD patch alone.  The expected
    N_FD fragment is absent and the file is changed all the same, with one
    of the two patches. *)
Lemma declarations_half_patched :
  Py.contains fix_declarations_out.old_npd declarations_demo_text = true /\
  Py.contains fix_declarations_out.old_nfd declarations_demo_text = false /\
  IO.result fix_declarations_out.main declarations_demo = IO.Done tt /\
  IO.files (IO.exec fix_declarations_out.main declarations_demo) ada83_c
  = Some ("int a;" ++ fix_declarations_out.new_npd ++ "int b;")%string /\
  IO.stdout (IO.exec fix_declarations_out.main declarations_demo)
  = ("Fixing N_PD case..." ++ nl ++ "Done! Fixed 1 cases." ++ nl)%string /\
  IO.files (IO.exec fix_declarations_out.main declarations_demo) ada83_c
  <> IO.files declarations_demo ada83_c.
Proof.
  repeat apply conj; vm_compute; first [reflexivity | discriminate].
Qed.

(** C9, amended.  With [content] the text of [ada83.c], each literal
    patch script with one fragment (the N_PD and N_FD patches, the pragma
    patches, the call-frame and the sp-fallback patch) either finds its
    fragment and writes the file with every occurrence replaced, or writes
    nothing at all, leaving every file as it was; the text written is the
    complete replacement.  fix_declarations_out.py replaces its two
    fragments in turn, the second in the text the first replacement left,
    and writes once, when it found at least one: the file is left as it
    was only when neither fragment is found. *)
Theorem literal_patches_atomic (w : IO.world) (content : string) :
  IO.files w ada83_c = Some content ->
  IO.files (IO.exec fix_npd.main w)
  = (if Py.contains fix_npd.old_pattern content
     then IO.update (IO.files w) ada83_c
            (Py.replace content fix_npd.old_pattern fix_npd.new_pattern)
     else IO.files w) /\
  IO.files (IO.exec fix_nfd.main w)
  = (if Py.contains fix_nfd.old_pattern content
     then IO.update (IO.files w) ada83_c
            (Py.replace content fix_nfd.old_pattern fix_nfd.new_pattern)
     else IO.files w) /\
  IO.files (IO.exec fix_declarations_out.main w)
  = (if Py.contains fix_declarations_out.old_npd content
        || Py.contains fix_declarations_out.old_nfd
             (declarations_out_step1 content)
     then IO.update (IO.files w) ada83_c
            (declarations_out_step2 (declarations_out_step1 content))
     else IO.files w) /\
  IO.files (IO.exec fix_pragma_ultra_simple.main w)
  = (if Py.contains fix_pragma_ultra_simple.old_pattern content
     then IO.update (IO.files w) ada83_c
            (Py.replace content fix_pragma_ultra_simple.old_pattern
               fix_pragma_ultra_simple.new_pattern)
     else IO.files w) /\
  IO.files (IO.exec fix_pragma_out.main w)
  = patched w content fix_pragma_out.old_pattern fix_pragma_out.new_pattern /\
  IO.files (IO.exec fix_pragma_out_v3.main w)
  = patched w content fix_pragma_out_v3.old_pattern
      fix_pragma_out_v3.new_pattern /\
  IO.files (IO.exec fix_pragma_import_direct.main w)
  = patched w content fix_pragma_import_direct.old_start
      fix_pragma_import_direct.new_start /\
  IO.files (IO.exec fix_call_frame.main w)
  = patched w content fix_call_frame.old_pattern fix_call_frame.new_pattern /\
  IO.files (IO.exec fix_sp_fallback.main w)
  = patched w content fix_sp_fallback.old_pattern fix_sp_fallback.new_pattern.
Proof.
  intros Hfile.
  repeat apply conj.
  - exact (fix_npd_files w content Hfile).
  - exact (fix_nfd_files w content Hfile).
  - exact (fix_declarations_out_files w content Hfile).
  - exact (fix_pragma_ultra_simple_files w content Hfile).
  - exact (fix_pragma_out_files w content Hfile).
  - exact (fix_pragma_out_v3_files w content Hfile).
  - exact (fix_pragma_import_direct_files w content Hfile).
  - exact (fix_call_frame_files w content Hfile).
  - exact (fix_sp_fallback_files w content Hfile).
Qed.

(** On a file that holds the fragment of fix_nfd.py and no other:
    fix_nfd.py rewrites it, the other patches leave every file alone. *)
Lemma literal_patches_atomic_witness :
  IO.files (IO.exec fix_npd.main patch_demo) = IO.files patch_demo /\
  IO.files (IO.exec fix_nfd.main patch_demo)
  = IO.update (IO.files patch_demo) ada83_c
      ("int a;" ++ fix_nfd.new_pattern ++ "int b;")%string /\
  IO.files (IO.exec fix_declarations_out.main patch_demo)
  = IO.files patch_demo /\
  IO.files (IO.exec fix_pragma_ultra_simple.main patch_demo)
  = IO.files patch_demo /\
  IO.files (IO.exec fix_pragma_out.main patch_demo) = IO.files patch_demo /\
  IO.files (IO.exec fix_pragma_out_v3.main patch_demo) = IO.files patch_demo /\
  IO.files (IO.exec fix_pragma_import_direct.main patch_demo)
  = IO.files patch_demo /\
  IO.files (IO.exec fix_call_frame.main patch_demo) = IO.files patch_demo /\
  IO.files (IO.exec fix_sp_fallback.main patch_demo) = IO.files patch_demo.
Proof.
  exact (literal_patches_atomic patch_demo patch_demo_text eq_refl).
Defined.

(* ================================================================== *)
(** * Determinism *)
(* ================================================================== *)

Ltac io_unfold :=
  unfold IO.result, IO.exec, IO.bind, IO.read_file, IO.write_file, IO.print,
    IO.eprint, IO.sys_argv, IO.sys_exit, IO.ret, same_view, argv1;
  cbn [fst snd IO.files IO.argv IO.stdout IO.stderr IO.clock IO.seed IO.environ].


























Example run_one_output :
  IO.stdout (IO.exec expand_identifiers.main run_one)
  = ("Fat_Pointer x = STRING_LITERAL(NULL_STRING_SLICE);"
       ++ String Py.LF EmptyString)%string.
Proof. vm_compute. reflexivity. Qed.

(* ================================================================== *)
(** * What a substitution pass keeps and what it changes *)
(* ================================================================== *)

Lemma sub_flags_pass (dotall : bool) (pattern repl code : string) :
  compiles pattern = true ->
  pass dotall pattern repl code (Re.sub_flags dotall pattern repl code).
Proof.
  unfold compiles, pass, Re.sub_flags.
  destruct (Re.compile pattern) as [r|]; [intros _|discriminate].
  destruct (sub_go_decomposes dotall r (Re.template repl)
              (length (list_ascii_of_string code))
              (list_ascii_of_string code) None (le_n _)) as (ps & Hd & Ho).
  exists r, ps. repeat split; auto.
  - eapply decomposes_source; eauto.
  - now rewrite string_list_roundtrip.
Qed.

Lemma apply_subs_cascade (subs : list (string * string)) :
  forallb (fun pr => compiles (fst pr)) subs = true ->
  forall code, cascade subs code (apply_subs subs code).
Proof.
  induction subs as [|[p rp] subs IH]; intros Hc code.
  - constructor.
  - simpl in Hc. apply andb_prop in Hc. destruct Hc as [Hp Hs].
    unfold apply_subs. simpl fold_left.
    econstructor.
    + apply (sub_flags_pass false p rp code Hp).
    + apply IH. exact Hs.
Qed.

(** C1, the claim as it stands, fails: the text of a string literal and of
    a comment is rewritten when it matches.  [replace_boolean_operators]
    turns the C statement [s = "a&&b"; /* A||B */] into
    [s = "a and b"; /* A or B */]. *)
Lemma literal_and_comment_rewritten :
  reformat.replace_boolean_operators
    ("s = " ++ dq ++ "a&&b" ++ dq ++ "; /* A||B */")%string
  = ("s = " ++ dq ++ "a and b" ++ dq ++ "; /* A or B */")%string
  /\
  reformat.replace_boolean_operators
    ("s = " ++ dq ++ "a&&b" ++ dq ++ "; /* A||B */")%string
  <> ("s = " ++ dq ++ "a&&b" ++ dq ++ "; /* A||B */")%string.
Proof.
  split; [vm_compute; reflexivity|].
  vm_compute. discriminate.
Qed.

(** C1, amended.  Conservativeness of a pass: for every input, each
    [re.sub] pass of [replace_boolean_operators], of the Arena step of
    [expand_all] and of the field-access cascades emits only characters
    copied in place from its input and, for each match of its pattern in
    context, the expansion of its replacement template.  The matching is
    textual: no owner type is involved and text inside literals and
    comments is matched like any other. *)
Theorem passes_conservative (code : string) :
  cascade reformat.boolean_subs code (reformat.replace_boolean_operators code) /\
  (exists mid,
     pass true complete_expansion.arena_pattern complete_expansion.arena_repl
       code mid /\
     pass false "\bA\b(?!\w)" "Arena_Allocator" mid
       (complete_expansion.expand_arena code)) /\
  cascade fix_field_accesses.subs code
    (fix_field_accesses.fix_field_accesses code) /\
  cascade apply_all_field_fixes.subs code
    (apply_all_field_fixes.apply_all_fixes code).
Proof.
  split; [|split; [|split]].
  - apply apply_subs_cascade. vm_compute. reflexivity.
  - eexists. split.
    + apply sub_flags_pass. vm_compute. reflexivity.
    + unfold complete_expansion.expand_arena, Re.sub.
      apply sub_flags_pass. vm_compute. reflexivity.
  - apply apply_subs_cascade. vm_compute. reflexivity.
  - apply apply_subs_cascade. vm_compute. reflexivity.
Qed.

(* ================================================================== *)
(** * Renaming by spelling *)
(* ================================================================== *)

(** C2, the claim as it stands, fails: on [p.n = 1; b.n = 2;] the bigint
    substitutions and the two general cascades give
    [p.count = 1; b.count = 2;], the String_Slice substitutions give
    [p.n = 1; b.length = 2;]; none gives [p.count = 1; b.size = 2;]. *)
Lemma no_type_disambiguation :
  fix_bigint_fields.fix_line "p.n = 1; b.n = 2;"
  = "p.count = 1; b.count = 2;"%string /\
  fix_string_slice_fields.rewrite "p.n = 1; b.n = 2;"
  = "p.n = 1; b.length = 2;"%string /\
  fix_field_accesses.fix_field_accesses "p.n = 1; b.n = 2;"
  = "p.count = 1; b.count = 2;"%string /\
  apply_all_field_fixes.apply_all_fixes "p.n = 1; b.n = 2;"
  = "p.count = 1; b.count = 2;"%string /\
  fix_bigint_fields.fix_line "p.n = 1; b.n = 2;"
  <> "p.count = 1; b.size = 2;"%string /\
  fix_string_slice_fields.rewrite "p.n = 1; b.n = 2;"
  <> "p.count = 1; b.size = 2;"%string.
Proof.
  repeat split; vm_compute; first [reflexivity | discriminate].
Qed.

(* ================================================================== *)
(** * Rules that conflict *)
(* ================================================================== *)


(* ================================================================== *)
(** * The order of the substitutions *)
(* ================================================================== *)

(** C6, the claim as it stands, fails: the same substitutions applied in
    another order give another result on [t.l.l]. *)
Lemma order_matters :
  Permutation.Permutation apply_all_field_fixes.subs subs_standalone_first /\
  apply_subs apply_all_field_fixes.subs "t.l.l" = "t.location.line"%string /\
  apply_subs subs_standalone_first "t.l.l" = "t.location.location"%string /\
  apply_subs subs_standalone_first "t.l.l"
  <> apply_subs apply_all_field_fixes.subs "t.l.l".
Proof.
  split; [|split; [|split]].
  - unfold apply_all_field_fixes.subs, subs_standalone_first.
    apply Permutation.Permutation_app_head, Permutation.Permutation_app_comm.
  - vm_compute. reflexivity.
  - vm_compute. reflexivity.
  - vm_compute. discriminate.
Qed.

Lemma apply_subs_app (subs1 subs2 : list (string * string)) (code : string) :
  apply_subs (subs1 ++ subs2) code = apply_subs subs2 (apply_subs subs1 code).
Proof. unfold apply_subs. apply fold_left_app. Qed.

(* ================================================================== *)
(** * Chained accesses *)
(* ================================================================== *)

(** C7, the claim as it stands, fails: [apply_all_fixes] turns [a->f->s]
    into [a->filename->string], [fix_field_accesses] turns it into
    [a->filename->is_negative], fix_source_location.py leaves it as it is;
    no script produces [a->field->size]. *)
Lemma chain_not_typed :
  apply_all_field_fixes.apply_all_fixes "a->f->s" = "a->filename->string"%string /\
  fix_field_accesses.fix_field_accesses "a->f->s"
  = "a->filename->is_negative"%string /\
  fix_source_location.rewrite "a->f->s" = "a->f->s"%string /\
  apply_all_field_fixes.apply_all_fixes "a->f->s" <> "a->field->size"%string /\
  fix_source_location.rewrite "a->f->s" <> "a->field->size"%string.
Proof.
  repeat split; vm_compute; first [reflexivity | discriminate].
Qed.

(* ================================================================== *)
(** * Applying the reformatter twice *)
(* ================================================================== *)

Lemma add_spacing_fold (lines acc : list string) (prev : bool) :
  fst (fold_left reformat.add_spacing_step lines (acc, prev))
  = acc ++ spaced (negb (length acc =? 0)) prev lines.
Proof.
  revert acc prev. induction lines as [|l ls IH]; intros acc prev.
  - simpl. now rewrite app_nil_r.
  - change (fold_left reformat.add_spacing_step (l :: ls) (acc, prev))
      with (fold_left reformat.add_spacing_step ls
              (reformat.add_spacing_step (acc, prev) l)).
    unfold reformat.add_spacing_step at 2.
    cbn [spaced]. fold (is_function_definition l).
    destruct (is_function_definition l).
    + rewrite IH.
      destruct (negb (length acc =? 0) && negb prev).
      * rewrite !length_app. simpl length.
        replace (length acc + 1 + 1 =? 0) with false
          by (symmetry; apply Nat.eqb_neq; lia).
        simpl negb. rewrite <- !app_assoc. reflexivity.
      * rewrite !length_app. simpl length.
        replace (length acc + 1 =? 0) with false
          by (symmetry; apply Nat.eqb_neq; lia).
        simpl negb. rewrite <- !app_assoc. reflexivity.
    + rewrite IH. rewrite !length_app. simpl length.
      replace (length acc + 1 =? 0) with false
        by (symmetry; apply Nat.eqb_neq; lia).
      simpl negb. rewrite <- !app_assoc. reflexivity.
Qed.

Lemma add_spacing_spaced (code : string) :
  reformat.add_spacing code
  = Py.join_lines (spaced false false (Py.split_lines code)).
Proof.
  unfold reformat.add_spacing. now rewrite add_spacing_fold.
Qed.

(** [split] and [join] *)

Lemma split_go_nonempty (s : list ascii) : Py.split_go s <> [].
Proof.
  destruct s as [|c t]; simpl; [discriminate|].
  destruct (Ascii.eqb c Py.LF); [discriminate|].
  destruct (Py.split_go t); discriminate.
Qed.

Lemma split_go_no_lf (s : list ascii) :
  Forall (fun l => no_lf l = true) (Py.split_go s).
Proof.
  induction s as [|c t IH]; simpl.
  - repeat constructor.
  - destruct (Ascii.eqb c Py.LF) eqn:E.
    + constructor; [reflexivity|exact IH].
    + destruct (Py.split_go t) as [|l ls].
      * repeat constructor. simpl. now rewrite E.
      * inversion IH; subst. constructor; [|assumption].
        simpl. rewrite E. assumption.
Qed.

Lemma split_go_line (a b : list ascii) :
  no_lf a = true ->
  Py.split_go (a ++ Py.LF :: b) = a :: Py.split_go b.
Proof.
  induction a as [|c a IH]; intros Ha; simpl.
  - reflexivity.
  - simpl in Ha. apply andb_prop in Ha. destruct Ha as [Hc Ha].
    apply negb_true_iff in Hc. rewrite Hc. now rewrite IH.
Qed.

Lemma split_go_last (a : list ascii) :
  no_lf a = true -> Py.split_go a = [a].
Proof.
  induction a as [|c a IH]; intros Ha; simpl; [reflexivity|].
  simpl in Ha. apply andb_prop in Ha. destruct Ha as [Hc Ha].
  apply negb_true_iff in Hc. rewrite Hc. now rewrite IH.
Qed.

Lemma split_join (ls : list string) :
  ls <> [] -> Forall line_ok ls -> Py.split_lines (Py.join_lines ls) = ls.
Proof.
  unfold Py.split_lines.
  induction ls as [|l ls IH]; intros Hne Hok; [congruence|].
  inversion Hok as [|? ? Hl Hls]; subst.
  destruct ls as [|l' ls'].
  - simpl. rewrite split_go_last by exact Hl. simpl.
    now rewrite string_of_list_ascii_of_string.
  - change (Py.join_lines (l :: l' :: ls'))
      with (l ++ String Py.LF (Py.join_lines (l' :: ls')))%string.
    rewrite list_of_append. cbn [list_ascii_of_string].
    rewrite split_go_line by exact Hl. cbn [map].
    rewrite IH by (auto; discriminate).
    now rewrite string_of_list_ascii_of_string.
Qed.

Lemma join_split_go (s : list ascii) :
  Py.join_lines (map string_of_list_ascii (Py.split_go s))
  = string_of_list_ascii s.
Proof.
  induction s as [|c t IH]; [reflexivity|].
  simpl Py.split_go.
  destruct (Ascii.eqb c Py.LF) eqn:E.
  - apply Ascii.eqb_eq in E. subst c.
    pose proof (split_go_nonempty t) as Hne.
    destruct (Py.split_go t) as [|l ls]; [congruence|].
    cbn [map] in *. cbn [string_of_list_ascii]. rewrite <- IH.
    reflexivity.
  - pose proof (split_go_nonempty t) as Hne.
    destruct (Py.split_go t) as [|l ls]; [congruence|].
    cbn [map] in *. cbn [string_of_list_ascii]. rewrite <- IH.
    destruct ls as [|l' ls']; reflexivity.
Qed.

Lemma join_split (code : string) : Py.join_lines (Py.split_lines code) = code.
Proof.
  unfold Py.split_lines. rewrite join_split_go.
  apply string_of_list_ascii_of_string.
Qed.

Lemma split_lines_ok (code : string) :
  Py.split_lines code <> [] /\ Forall line_ok (Py.split_lines code).
Proof.
  unfold Py.split_lines. split.
  - pose proof (split_go_nonempty (list_ascii_of_string code)).
    destruct (Py.split_go (list_ascii_of_string code)); [congruence|discriminate].
  - apply Forall_map. eapply Forall_impl; [|apply split_go_no_lf].
    intros l Hl. unfold line_ok. now rewrite string_list_roundtrip.
Qed.

(** The blank lines [add_spacing] inserts *)

Lemma blank_line_is_no_function : is_function_definition EmptyString = false.
Proof. vm_compute. reflexivity. Qed.

Lemma spaced_ok (ls : list string) :
  forall ne prev,
    Forall line_ok ls -> Forall line_ok (spaced ne prev ls).
Proof.
  induction ls as [|l ls IH]; intros ne prev Hok; simpl; [constructor|].
  inversion Hok; subst.
  destruct (is_function_definition l).
  - destruct (ne && negb prev); simpl; repeat constructor; auto.
  - constructor; auto.
Qed.

Lemma spaced_nonempty (ls : list string) (ne prev : bool) :
  ls <> [] -> spaced ne prev ls <> [].
Proof.
  destruct ls as [|l ls]; [congruence|]. intros _. simpl.
  destruct (is_function_definition l); [|discriminate].
  destruct (ne && negb prev); discriminate.
Qed.

Lemma spaced_length (ls : list string) :
  forall ne prev, length ls <= length (spaced ne prev ls).
Proof.
  induction ls as [|l ls IH]; intros ne prev; simpl; [lia|].
  destruct (is_function_definition l).
  - rewrite length_app. simpl. specialize (IH true true). lia.
  - simpl. specialize (IH true false). lia.
Qed.

(** A second pass inserts at least as many blank lines as the first. *)
Lemma spaced_twice_length (ls : list string) :
  forall ne prev,
    2 * length (spaced ne prev ls)
    <= length (spaced ne prev (spaced ne prev ls)) + length ls.
Proof.
  induction ls as [|l ls IH]; intros ne prev; [simpl; lia|].
  cbn [spaced].
  destruct (is_function_definition l) eqn:El.
  - destruct (ne && negb prev) eqn:Eb.
    + cbn [app spaced]. rewrite blank_line_is_no_function.
      cbn [spaced]. rewrite El. cbn [andb negb app length].
      specialize (IH true true). lia.
    + cbn [app spaced]. rewrite El, Eb. cbn [app length].
      specialize (IH true true). lia.
  - cbn [spaced]. rewrite El. cbn [length].
    specialize (IH true false). lia.
Qed.

Lemma spaced_same_length (ls : list string) :
  forall ne prev,
    length (spaced ne prev ls) = length ls -> spaced ne prev ls = ls.
Proof.
  induction ls as [|l ls IH]; intros ne prev H; [reflexivity|].
  cbn [spaced] in *.
  destruct (is_function_definition l).
  - destruct (ne && negb prev).
    + cbn [app length] in H. pose proof (spaced_length ls true true). lia.
    + cbn [app length] in *. f_equal. apply IH. lia.
  - cbn [length] in H. f_equal. apply IH. lia.
Qed.

Lemma spaced_fixed_iff (ls : list string) :
  forall ne prev, spaced ne prev ls = ls <-> inserts_blank ne prev ls = false.
Proof.
  induction ls as [|l ls IH]; intros ne prev; [simpl; tauto|].
  cbn [spaced inserts_blank].
  destruct (is_function_definition l).
  - destruct (ne && negb prev); cbn [app orb].
    + split; [|discriminate]. intros H.
      apply (f_equal (@length string)) in H. cbn [length] in H.
      pose proof (spaced_length ls true true). lia.
    + rewrite <- IH. split; [now intros [= ->]|now intros ->].
  - rewrite <- IH. split; [now intros [= ->]|now intros ->].
Qed.

Lemma spaced_idempotent_iff (ls : list string) (ne prev : bool) :
  spaced ne prev (spaced ne prev ls) = spaced ne prev ls
  <-> spaced ne prev ls = ls.
Proof.
  split.
  - intros H. apply spaced_same_length.
    apply (f_equal (@length string)) in H.
    pose proof (spaced_twice_length ls ne prev).
    pose proof (spaced_length ls ne prev). lia.
  - intros H. now rewrite !H.
Qed.

(** [transform] is what reformat.py prints. *)
Lemma reformat_main_prints (w : IO.world) (script file code : string) :
  IO.argv w = [script; file] ->
  IO.files w file = Some code ->
  IO.result reformat.main w = IO.Done tt /\
  IO.stdout (IO.exec reformat.main w)
  = (IO.stdout w ++ reformat.transform code ++ nl)%string.
Proof.
  intros Hargv Hfile.
  destruct w as [fs args out err ck sd env];
    cbn [IO.files IO.argv IO.stdout IO.stderr] in *.
  subst args.
  unfold reformat.main, reformat.transform.
  generalize reformat.TYPE_NAMES reformat.FUNCTION_NAMES
    reformat.ENUM_CONSTANTS reformat.COMMON_VARS
    reformat.apply_transformations reformat.replace_boolean_operators
    reformat.add_spacing.
  intros types functions enums vars apply booleans spacing.
  unfold IO.result, IO.exec, IO.bind, IO.sys_argv, IO.read_file.
  cbn [length Nat.eqb negb nth IO.argv IO.files]. rewrite Hfile.
  split; reflexivity.
Qed.

(** C3, the claim as it stands, fails: a second run of the reformatter
    (and of its spacing pass alone) inserts another blank line before the
    function definition. *)
Lemma reformat_not_idempotent :
  let input := ("int x;" ++ nl ++ "int f(void) {")%string in
  reformat.transform input
  = ("int x;" ++ nl ++ nl ++ "int f(void) {")%string /\
  reformat.transform (reformat.transform input)
  = ("int x;" ++ nl ++ nl ++ nl ++ "int f(void) {")%string /\
  reformat.transform (reformat.transform input) <> reformat.transform input /\
  reformat.add_spacing (reformat.add_spacing input) <> reformat.add_spacing input.
Proof.
  repeat split; vm_compute; first [reflexivity | discriminate].
Qed.

(** C3, amended.  For every input, applying [add_spacing] twice gives the
    same text as applying it once exactly when the first application
    changes nothing, and that is exactly when it inserts no blank line:
    every line that starts a function definition is the first line or
    follows another such line. *)
Theorem add_spacing_idempotent_iff (code : string) :
  (reformat.add_spacing (reformat.add_spacing code) = reformat.add_spacing code
   <-> reformat.add_spacing code = code) /\
  (reformat.add_spacing code = code
   <-> inserts_blank false false (Py.split_lines code) = false).
Proof.
  destruct (split_lines_ok code) as [Hne Hok].
  assert (Hfix : reformat.add_spacing code = code
                 <-> spaced false false (Py.split_lines code) = Py.split_lines code).
  { rewrite add_spacing_spaced. split.
    - intros H. apply (f_equal Py.split_lines) in H.
      rewrite split_join in H; auto using spaced_nonempty, spaced_ok.
    - intros ->. apply join_split. }
  split.
  - rewrite Hfix, <- spaced_idempotent_iff.
    rewrite !add_spacing_spaced.
    rewrite split_join by auto using spaced_nonempty, spaced_ok.
    split.
    + intros H. apply (f_equal Py.split_lines) in H.
      rewrite !split_join in H
        by auto using spaced_nonempty, spaced_ok.
      exact H.
    + now intros ->.
  - rewrite Hfix. apply spaced_fixed_iff.
Qed.

(* ================================================================== *)
(** * Accesses through a base of unknown type *)
(* ================================================================== *)

(** A pattern that must start with the character [c] matches nowhere in a
    text free of [c]. *)
Lemma sub_go_past (d : bool) (r : Re.regex) (tpl : list Re.titem) (c : ascii) :
  first_char r = Some c ->
  forall (w rest : list ascii) (prev : option ascii),
    forallb (fun x => negb (Ascii.eqb x c)) w = true ->
    Re.sub_go d r tpl 0 prev (w ++ rest)
    = w ++ Re.sub_go d r tpl 0 (prev_after prev w) rest.
Proof.
  intros Hr. induction w as [|x w IH]; intros rest prev Hw; [reflexivity|].
  simpl in Hw. apply andb_prop in Hw. destruct Hw as [Hx Hw].
  apply negb_true_iff in Hx.
  assert (Hno : Re.match_here d r prev ((x :: w) ++ rest) = None).
  { unfold Re.match_here.
    destruct r as [ | c0 | | | r1 r2 | | | | | | ]; try discriminate.
    - simpl in Hr. injection Hr as ->. simpl. unfold Re.step_char. simpl.
      rewrite Ascii.eqb_sym, Hx. reflexivity.
    - destruct r1; try discriminate.
      simpl in Hr. injection Hr as ->. simpl. unfold Re.step_char. simpl.
      rewrite Ascii.eqb_sym, Hx. reflexivity. }
  simpl app in *. cbn [Re.sub_go]. rewrite Hno.
  rewrite IH by exact Hw. reflexivity.
Qed.

Lemma free_of_accesses_char (x : string) (c : ascii) :
  free_of_accesses x = true ->
  Ascii.eqb c "." || Ascii.eqb c "-" = true ->
  forallb (fun a => negb (Ascii.eqb a c)) (list_ascii_of_string x) = true.
Proof.
  unfold free_of_accesses. intros Hx Hc.
  apply forallb_forall. intros a Ha.
  rewrite forallb_forall in Hx. specialize (Hx a Ha).
  apply negb_true_iff. apply negb_true_iff in Hx.
  apply orb_false_iff in Hx. destruct Hx as [H1 H2].
  apply orb_true_iff in Hc. destruct Hc as [Hc|Hc];
    apply Ascii.eqb_eq in Hc; subst c; assumption.
Qed.

Lemma sub_past_base (x y pattern repl : string) :
  starts_with_access pattern = true ->
  free_of_accesses x = true ->
  Re.sub pattern repl (x ++ y)
  = (x ++ sub_from (prev_after None (list_ascii_of_string x)) pattern repl y)%string.
Proof.
  unfold starts_with_access, Re.sub, Re.sub_flags, sub_from.
  destruct (Re.compile pattern) as [r|]; [|discriminate].
  destruct (first_char r) as [c|] eqn:Hc; [|discriminate].
  intros Hacc Hx.
  rewrite list_of_append.
  rewrite (sub_go_past false r (Re.template repl) c Hc)
    by (apply free_of_accesses_char; assumption).
  rewrite string_of_app. now rewrite string_of_list_ascii_of_string.
Qed.

Lemma apply_subs_past_base (subs : list (string * string)) (x : string) :
  forallb (fun pr => starts_with_access (fst pr)) subs = true ->
  free_of_accesses x = true ->
  forall y,
    apply_subs subs (x ++ y)
    = (x ++ apply_subs_from (prev_after None (list_ascii_of_string x)) subs y)%string.
Proof.
  intros Hs Hx. unfold apply_subs, apply_subs_from.
  induction subs as [|[p rp] subs IH]; intros y; [reflexivity|].
  simpl in Hs. apply andb_prop in Hs. destruct Hs as [Hp Hs].
  simpl fold_left. rewrite sub_past_base by assumption.
  apply IH. exact Hs.
Qed.






(* ================================================================== *)
(** * Renaming whatever the identifier *)
(* ================================================================== *)

(** Rewrites the innermost [re.sub] of a cascade over [x ++ y], where [x]
    is an identifier, [y] a known text and the pattern has the shape
    [(\w+)K]: either [K] matches at [y] and the identifier is replaced
    with it, or it does not and the identifier is copied. *)
Ltac word_pass :=
  match goal with
  | |- context [Re.sub ?p ?rp (?x ++ ?y)%string] =>
      let r := eval vm_compute in (Re.compile p) in
      lazymatch r with
      | Some (Re.Cat _ ?K) =>
          let res := eval vm_compute in
            (Re.run false K (Re.MState None (list_ascii_of_string y) []) Some) in
          lazymatch res with
          | None =>
              let y' := eval vm_compute in (sub_from None p rp y) in
              rewrite (sub_word_miss p rp x y y' K);
              [ | vm_compute; reflexivity | vm_compute; reflexivity
                | assumption | vm_compute; reflexivity
                | intros; vm_compute; reflexivity
                | intros; vm_compute; reflexivity ]
          | Some (Re.MState ?b' ?rest' _) =>
              let t := eval vm_compute in (Re.template rp) in
              let lits := eval vm_compute in (template_literals t) in
              let out := eval vm_compute in
                (string_of_list_ascii
                   (Re.sub_go false (word_group K) t 0 None rest')) in
              rewrite (sub_word_hit p rp x y lits out K b' rest');
              [ | vm_compute; reflexivity | vm_compute; reflexivity
                | vm_compute; reflexivity
                | assumption | vm_compute; reflexivity
                | intros; vm_compute; reflexivity
                | intros; vm_compute; reflexivity ]
          end
      end
  end;
  cbn [String.append].

(** C2, amended.  The member token [n] is renamed from the spelling of the
    access, not from the static type of its base: for every identifier
    [x], whatever it denotes, the bigint substitutions (applied to a line
    of their range) turn [x.n] into [x.count], so that on
    [p.n = 1; b.n = 2;] both occurrences are renamed alike and the result
    is [p.count = 1; b.count = 2;]; the String_Slice substitutions, which
    are keyed on the variable names [a], [b] and [s], leave [p.n] alone
    and give [p.n = 1; b.length = 2;]. *)
Theorem member_renamed_by_spelling (x : string) :
  identifier x = true ->
  fix_bigint_fields.fix_line (x ++ ".n = 1;") = (x ++ ".count = 1;")%string /\
  fix_bigint_fields.fix_line "p.n = 1; b.n = 2;" = "p.count = 1; b.count = 2;"%string /\
  fix_string_slice_fields.rewrite "p.n = 1; b.n = 2;"
  = "p.n = 1; b.length = 2;"%string.
Proof.
  intros Hx. split; [|split].
  - unfold fix_bigint_fields.fix_line, apply_subs, fix_bigint_fields.subs.
    cbn [fold_left fst snd].
    do 8 word_pass.
    reflexivity.
  - vm_compute. reflexivity.
  - vm_compute. reflexivity.
Qed.

Lemma member_renamed_by_spelling_witness :
  fix_bigint_fields.fix_line ("box" ++ ".n = 1;") = ("box" ++ ".count = 1;")%string /\
  fix_bigint_fields.fix_line "p.n = 1; b.n = 2;" = "p.count = 1; b.count = 2;"%string /\
  fix_string_slice_fields.rewrite "p.n = 1; b.n = 2;"
  = "p.n = 1; b.length = 2;"%string.
Proof.
  apply (member_renamed_by_spelling "box"). reflexivity.
Defined.

Lemma location_chain_after_any (prev : option ascii) :
  apply_subs_from prev apply_all_field_fixes.subs_specific ".l.l" = ".l.l"%string /\
  apply_subs_from prev apply_all_field_fixes.subs_specific ".l.c" = ".l.c"%string /\
  apply_subs_from prev apply_all_field_fixes.subs_specific ".l.f" = ".l.f"%string /\
  apply_subs_from prev apply_all_field_fixes.subs_standalone ".location.line"
  = ".location.line"%string /\
  apply_subs_from prev apply_all_field_fixes.subs_standalone ".location.column"
  = ".location.column"%string /\
  apply_subs_from prev apply_all_field_fixes.subs_standalone ".location.filename"
  = ".location.filename"%string.
Proof. repeat split; vm_compute; reflexivity. Qed.

(** For every identifier [t], the source order of [apply_all_fixes] turns
    [t.l.l], [t.l.c] and [t.l.f] into [t.location.line],
    [t.location.column] and [t.location.filename]. *)
Lemma location_chain_source_order (t : string) :
  identifier t = true ->
  apply_all_field_fixes.apply_all_fixes (t ++ ".l.l")
  = (t ++ ".location.line")%string /\
  apply_all_field_fixes.apply_all_fixes (t ++ ".l.c")
  = (t ++ ".location.column")%string /\
  apply_all_field_fixes.apply_all_fixes (t ++ ".l.f")
  = (t ++ ".location.filename")%string.
Proof.
  intros Ht.
  pose proof (identifier_free_of_accesses t Ht) as Hfree.
  assert (Hs1 : forallb (fun pr => starts_with_access (fst pr))
                  apply_all_field_fixes.subs_specific = true)
    by (vm_compute; reflexivity).
  assert (Hs2 : forallb (fun pr => starts_with_access (fst pr))
                  apply_all_field_fixes.subs_standalone = true)
    by (vm_compute; reflexivity).
  set (prev := prev_after None (list_ascii_of_string t)).
  destruct (location_chain_after_any prev) as (E1 & E2 & E3 & E4 & E5 & E6).
  assert (Hchain : forall y y',
            apply_subs_from prev apply_all_field_fixes.subs_specific y = y ->
            apply_subs apply_all_field_fixes.subs_location_chain (t ++ y)
            = (t ++ y')%string ->
            apply_subs_from prev apply_all_field_fixes.subs_standalone y' = y' ->
            apply_all_field_fixes.apply_all_fixes (t ++ y) = (t ++ y')%string).
  { intros y y' Hy1 Hy2 Hy3.
    unfold apply_all_field_fixes.apply_all_fixes, apply_all_field_fixes.subs.
    rewrite !apply_subs_app.
    rewrite (apply_subs_past_base _ t Hs1 Hfree). fold prev. rewrite Hy1, Hy2.
    rewrite (apply_subs_past_base _ t Hs2 Hfree). fold prev. now rewrite Hy3. }
  split; [|split].
  - apply Hchain; [exact E1| |exact E4].
    unfold apply_subs, apply_all_field_fixes.subs_location_chain.
    cbn [fold_left fst snd]. do 3 word_pass. reflexivity.
  - apply Hchain; [exact E2| |exact E5].
    unfold apply_subs, apply_all_field_fixes.subs_location_chain.
    cbn [fold_left fst snd]. do 3 word_pass. reflexivity.
  - apply Hchain; [exact E3| |exact E6].
    unfold apply_subs, apply_all_field_fixes.subs_location_chain.
    cbn [fold_left fst snd]. do 3 word_pass. reflexivity.
Qed.

(** With the stand-alone letters applied before the [Token.location]
    patterns, both links of [t.l.l] become [location]. *)
Lemma location_chain_other_order (t : string) :
  identifier t = true ->
  apply_subs subs_standalone_first (t ++ ".l.l")
  = (t ++ ".location.location")%string.
Proof.
  intros Ht.
  pose proof (identifier_free_of_accesses t Ht) as Hfree.
  assert (Hs1 : forallb (fun pr => starts_with_access (fst pr))
                  apply_all_field_fixes.subs_specific = true)
    by (vm_compute; reflexivity).
  assert (Hs2 : forallb (fun pr => starts_with_access (fst pr))
                  apply_all_field_fixes.subs_standalone = true)
    by (vm_compute; reflexivity).
  set (prev := prev_after None (list_ascii_of_string t)).
  assert (E1 : apply_subs_from prev apply_all_field_fixes.subs_specific ".l.l"
               = ".l.l"%string) by (vm_compute; reflexivity).
  assert (E2 : apply_subs_from prev apply_all_field_fixes.subs_standalone ".l.l"
               = ".location.location"%string) by (vm_compute; reflexivity).
  unfold subs_standalone_first. rewrite !apply_subs_app.
  rewrite (apply_subs_past_base _ t Hs1 Hfree). fold prev. rewrite E1.
  rewrite (apply_subs_past_base _ t Hs2 Hfree). fold prev. rewrite E2.
  unfold apply_subs, apply_all_field_fixes.subs_location_chain.
  cbn [fold_left fst snd]. do 3 word_pass. reflexivity.
Qed.

(** C6, amended.  The result depends on the order of the substitutions,
    and [apply_all_fixes] fixes one: for every input it is the specific
    patterns, then the [Token.location] patterns, then the stand-alone
    single letters, each group working on the output of the one before.
    For every identifier [t] this order turns [t.l.l] into
    [t.location.line]; with the stand-alone letters before the
    [Token.location] patterns the same substitutions turn it into
    [t.location.location]. *)
Theorem order_fixed_by_source (code t : string) :
  identifier t = true ->
  apply_all_field_fixes.apply_all_fixes code
  = apply_subs apply_all_field_fixes.subs_standalone
      (apply_subs apply_all_field_fixes.subs_location_chain
         (apply_subs apply_all_field_fixes.subs_specific code)) /\
  apply_all_field_fixes.apply_all_fixes (t ++ ".l.l")
  = (t ++ ".location.line")%string /\
  apply_subs subs_standalone_first (t ++ ".l.l")
  = (t ++ ".location.location")%string.
Proof.
  intros Ht. split; [|split].
  - unfold apply_all_field_fixes.apply_all_fixes, apply_all_field_fixes.subs.
    now rewrite !apply_subs_app.
  - exact (proj1 (location_chain_source_order t Ht)).
  - exact (location_chain_other_order t Ht).
Qed.

Lemma order_fixed_by_source_witness :
  apply_all_field_fixes.apply_all_fixes "x = t.l.l;"
  = apply_subs apply_all_field_fixes.subs_standalone
      (apply_subs apply_all_field_fixes.subs_location_chain
         (apply_subs apply_all_field_fixes.subs_specific "x = t.l.l;")) /\
  apply_all_field_fixes.apply_all_fixes ("t" ++ ".l.l")
  = ("t" ++ ".location.line")%string /\
  apply_subs subs_standalone_first ("t" ++ ".l.l")
  = ("t" ++ ".location.location")%string.
Proof.
  apply (order_fixed_by_source "x = t.l.l;" "t"). reflexivity.
Defined.

(** C7, amended.  A chain is rewritten link by link from the spelling of
    each link, and by fixed two-level patterns; no field type is recorded
    or looked up.  For every identifier [t], whatever it denotes, the
    [Token.location] patterns of [apply_all_fixes] turn [t.l.l], [t.l.c]
    and [t.l.f] into [t.location.line], [t.location.column] and
    [t.location.filename].  [apply_all_fixes] turns [a->f->s] into
    [a->filename->string], and fix_source_location.py turns
    [KW[i].keyword.s] into [KW[i].keyword.string].  With the two rules of
    the claim written the way the scripts write rules,
    [apply_transformations] does produce [a->field->size], and it
    produces [b->field->size] from [b->f->s] as well. *)
Theorem chain_rewritten_by_spelling (t : string) :
  identifier t = true ->
  apply_all_field_fixes.apply_all_fixes (t ++ ".l.l")
  = (t ++ ".location.line")%string /\
  apply_all_field_fixes.apply_all_fixes (t ++ ".l.c")
  = (t ++ ".location.column")%string /\
  apply_all_field_fixes.apply_all_fixes (t ++ ".l.f")
  = (t ++ ".location.filename")%string /\
  apply_all_field_fixes.apply_all_fixes "a->f->s" = "a->filename->string"%string /\
  fix_source_location.rewrite "KW[i].keyword.s" = "KW[i].keyword.string"%string /\
  reformat.apply_transformations "a->f->s; b->f->s"
    (Py.dict_of [("->f\b", "->field"); ("->s\b", "->size")]%string)
  = "a->field->size; b->field->size"%string.
Proof.
  intros Ht.
  destruct (location_chain_source_order t Ht) as (H1 & H2 & H3).
  repeat apply conj; try assumption; vm_compute; reflexivity.
Qed.

Lemma chain_rewritten_by_spelling_witness :
  apply_all_field_fixes.apply_all_fixes ("tok" ++ ".l.l")
  = ("tok" ++ ".location.line")%string /\
  apply_all_field_fixes.apply_all_fixes ("tok" ++ ".l.c")
  = ("tok" ++ ".location.column")%string /\
  apply_all_field_fixes.apply_all_fixes ("tok" ++ ".l.f")
  = ("tok" ++ ".location.filename")%string /\
  apply_all_field_fixes.apply_all_fixes "a->f->s" = "a->filename->string"%string /\
  fix_source_location.rewrite "KW[i].keyword.s" = "KW[i].keyword.string"%string /\
  reformat.apply_transformations "a->f->s; b->f->s"
    (Py.dict_of [("->f\b", "->field"); ("->s\b", "->size")]%string)
  = "a->field->size; b->field->size"%string.
Proof.
  apply (chain_rewritten_by_spelling "tok"). reflexivity.
Defined.

(* ================================================================== *)
(** * Conflicting rules: the first one wins *)
(* ================================================================== *)



(* ================================================================== *)
(** * [str.replace] and a fragment that begins its own replacement *)
(* ================================================================== *)

Lemma prefix_of_app (p s : list ascii) :
  Py.prefix_of p s = true <-> exists t, s = p ++ t.
Proof.
  revert s. induction p as [|a p IH]; intros s; cbn [Py.prefix_of].
  - split; [intros _; now exists s | reflexivity].
  - destruct s as [|b s].
    + split; [discriminate | intros [t Ht]; discriminate].
    + rewrite andb_true_iff, Ascii.eqb_eq, IH. split.
      * intros [-> [t ->]]. now exists t.
      * intros [t Ht]. injection Ht as -> ->. split; [reflexivity|now exists t].
Qed.

Lemma prefix_of_longer (p q s : list ascii) :
  Py.prefix_of p q = true -> Py.prefix_of p (q ++ s) = true.
Proof.
  rewrite !prefix_of_app. intros [t ->]. exists (t ++ s). now rewrite app_assoc.
Qed.

Lemma contains_go_here (p s : list ascii) :
  Py.prefix_of p s = true -> Py.contains_go p s = true.
Proof. intros H. destruct s; cbn [Py.contains_go]; now rewrite H. Qed.

Lemma contains_go_later (p : list ascii) (c : ascii) (s : list ascii) :
  Py.contains_go p s = true -> Py.contains_go p (c :: s) = true.
Proof. intros H. cbn [Py.contains_go]. rewrite H. apply orb_true_r. Qed.

Lemma prefix_of_length (p s : list ascii) :
  Py.prefix_of p s = true -> length p <= length s.
Proof.
  rewrite prefix_of_app. intros [t ->]. rewrite length_app. lia.
Qed.

(** [replace] with a replacement that starts with the fragment leaves the
    fragment in the text. *)
Lemma replace_go_keeps (old new : list ascii) :
  old <> [] -> Py.prefix_of old new = true ->
  forall s, Py.contains_go old s = true ->
    Py.contains_go old (Py.replace_go old new 0 s) = true.
Proof.
  intros Hne Hpre. induction s as [|c t IH]; intros Hc.
  - cbn [Py.contains_go] in Hc. rewrite orb_false_r in Hc.
    destruct old; [contradiction|discriminate].
  - cbn [Py.replace_go]. destruct (Py.prefix_of old (c :: t)) eqn:E.
    + destruct (length old) eqn:El.
      * destruct old; [contradiction|discriminate].
      * apply contains_go_here. apply prefix_of_longer. exact Hpre.
    + apply contains_go_later. apply IH.
      cbn [Py.contains_go] in Hc. rewrite E in Hc. exact Hc.
Qed.

Lemma replace_go_length (old new : list ascii) :
  old <> [] -> length old <= length new ->
  forall s n, length s - n <= length (Py.replace_go old new n s).
Proof.
  intros Hne Hlen. induction s as [|c t IH]; intros n.
  - cbn. lia.
  - cbn [Py.replace_go]. destruct n as [|n].
    + destruct (Py.prefix_of old (c :: t)) eqn:E.
      * destruct (length old) eqn:El.
        { destruct old; [contradiction|discriminate]. }
        rewrite length_app. specialize (IH n).
        apply prefix_of_length in E. cbn [length] in *. lia.
      * specialize (IH 0). cbn [length]. lia.
    + specialize (IH n). cbn [length]. lia.
Qed.

Lemma replace_go_grows (old new : list ascii) :
  old <> [] -> length old < length new ->
  forall s, Py.contains_go old s = true ->
    length s < length (Py.replace_go old new 0 s).
Proof.
  intros Hne Hlen. induction s as [|c t IH]; intros Hc.
  - cbn [Py.contains_go] in Hc. rewrite orb_false_r in Hc.
    destruct old; [contradiction|discriminate].
  - cbn [Py.replace_go]. destruct (Py.prefix_of old (c :: t)) eqn:E.
    + destruct (length old) eqn:El.
      * destruct old; [contradiction|discriminate].
      * rewrite length_app.
        pose proof (replace_go_length old new Hne ltac:(lia) t n) as Hr.
        apply prefix_of_length in E. cbn [length] in *. lia.
    + cbn [Py.contains_go] in Hc. rewrite E in Hc. cbn [orb] in Hc.
      specialize (IH Hc). cbn [length]. lia.
Qed.

Lemma string_length_of_list (l : list ascii) :
  String.length (string_of_list_ascii l) = length l.
Proof. induction l as [|c l IH]; cbn; [reflexivity|now rewrite IH]. Qed.

Lemma list_length_of_string (s : string) :
  length (list_ascii_of_string s) = String.length s.
Proof. induction s as [|c s IH]; cbn; [reflexivity|now rewrite IH]. Qed.

Lemma replace_keeps (content old new : string) :
  old <> EmptyString ->
  Py.prefix_of (list_ascii_of_string old) (list_ascii_of_string new) = true ->
  Py.contains old content = true ->
  Py.contains old (Py.replace content old new) = true.
Proof.
  intros Hne Hpre Hc. unfold Py.contains, Py.replace in *.
  rewrite string_list_roundtrip.
  apply replace_go_keeps; try assumption.
  destruct old; [contradiction|discriminate].
Qed.

Lemma replace_grows (content old new : string) :
  old <> EmptyString ->
  String.length old < String.length new ->
  Py.contains old content = true ->
  String.length content < String.length (Py.replace content old new).
Proof.
  intros Hne Hlen Hc. unfold Py.contains, Py.replace in *.
  rewrite string_length_of_list, <- (list_length_of_string content).
  apply replace_go_grows; try assumption.
  - destruct old; [contradiction|discriminate].
  - now rewrite !list_length_of_string.
Qed.

Lemma sp_fallback_step (w : IO.world) (content : string) :
  IO.files w ada83_c = Some content ->
  Py.contains fix_sp_fallback.old_pattern content = true ->
  IO.files (IO.exec fix_sp_fallback.main w) ada83_c
  = Some (Py.replace content fix_sp_fallback.old_pattern
            fix_sp_fallback.new_pattern).
Proof.
  intros Hf Hc. rewrite (fix_sp_fallback_files w content Hf).
  unfold patched. rewrite Hc. unfold IO.update. now rewrite String.eqb_refl.
Qed.

(** X1.  fix_sp_fallback.py is not a one-time patch.  The fragment it
    looks for is the beginning of the text it puts in its place, so when
    the file holds the fragment, the file written holds it again: a second
    run finds it and rewrites the file once more, and each run leaves the
    file strictly longer than it found it. *)
Theorem sp_fallback_applies_again (w : IO.world) (content : string) :
  IO.files w ada83_c = Some content ->
  Py.contains fix_sp_fallback.old_pattern content = true ->
  exists once twice : string,
    IO.files (IO.exec fix_sp_fallback.main w) ada83_c = Some once /\
    IO.files (IO.exec fix_sp_fallback.main (IO.exec fix_sp_fallback.main w))
             ada83_c = Some twice /\
    Py.contains fix_sp_fallback.old_pattern once = true /\
    String.length content < String.length once /\
    String.length once < String.length twice.
Proof.
  intros Hf Hc.
  set (old := fix_sp_fallback.old_pattern) in *.
  set (new := fix_sp_fallback.new_pattern).
  assert (Hne : old <> EmptyString) by (vm_compute; discriminate).
  assert (Hpre : Py.prefix_of (list_ascii_of_string old)
                   (list_ascii_of_string new) = true)
    by (vm_compute; reflexivity).
  assert (Hlen : String.length old < String.length new)
    by (vm_compute; lia).
  pose proof (replace_keeps content old new Hne Hpre Hc) as Hc1.
  pose proof (sp_fallback_step w content Hf Hc) as H1.
  pose proof (sp_fallback_step _ _ H1 Hc1) as H2.
  exists (Py.replace content old new),
         (Py.replace (Py.replace content old new) old new).
  repeat apply conj; try assumption.
  - apply replace_grows; assumption.
  - apply replace_grows; assumption.
Qed.

Lemma sp_fallback_applies_again_witness :
  exists once twice : string,
    IO.files (IO.exec fix_sp_fallback.main sp_fallback_demo) ada83_c
    = Some once /\
    IO.files (IO.exec fix_sp_fallback.main
                (IO.exec fix_sp_fallback.main sp_fallback_demo)) ada83_c
    = Some twice /\
    Py.contains fix_sp_fallback.old_pattern once = true /\
    String.length ("{" ++ fix_sp_fallback.old_pattern ++ "}") < String.length once /\
    String.length once < String.length twice.
Proof.
  apply (sp_fallback_applies_again sp_fallback_demo
           ("{" ++ fix_sp_fallback.old_pattern ++ "}")).
  - reflexivity.
  - vm_compute. reflexivity.
Defined.

(* ================================================================== *)
(** * Literal patterns: [re.sub] as [str.replace] *)
(* ================================================================== *)

Lemma run_literal (d : bool) (l : list ascii) :
  forall (st : Re.mstate) (k : Re.mstate -> option Re.mstate),
    Re.run d (literal l) st k
    = if Py.prefix_of l (Re.rest st)
      then k (Re.MState (prev_after (Re.before st) l)
                        (skipn (length l) (Re.rest st)) (Re.caps st))
      else None.
Proof.
  induction l as [|c l IH]; intros [b s cs] k.
  - reflexivity.
  - destruct l as [|c' l'].
    + cbn [literal Re.run]. unfold Re.step_char.
      cbn [Re.rest Re.caps Re.before Py.prefix_of prev_after length skipn].
      destruct s as [|a t]; [reflexivity|].
      destruct (Ascii.eqb c a) eqn:E; [|reflexivity].
      apply Ascii.eqb_eq in E. subst a.
      destruct t; reflexivity.
    + change (literal (c :: c' :: l'))
        with (Re.Cat (Re.Lit c) (literal (c' :: l'))).
      cbn [Re.run]. unfold Re.step_char.
      cbn [Re.rest Re.caps Re.before].
      destruct s as [|a t]; [reflexivity|].
      change (Py.prefix_of (c :: c' :: l') (a :: t))
        with (Ascii.eqb c a && Py.prefix_of (c' :: l') t).
      destruct (Ascii.eqb c a) eqn:E; [|reflexivity].
      apply Ascii.eqb_eq in E. subst a.
      rewrite IH. reflexivity.
Qed.

Lemma match_literal (d : bool) (l : list ascii) (prev : option ascii)
    (s : list ascii) :
  Re.match_here d (literal l) prev s
  = if Py.prefix_of l s
    then Some (Re.MState (prev_after prev l) (skipn (length l) s) [])
    else None.
Proof. unfold Re.match_here. now rewrite run_literal. Qed.

(** [re.sub] with a literal pattern and a literal replacement is
    [str.replace]. *)
Lemma sub_go_literal (d : bool) (l n : list ascii) :
  l <> [] ->
  forall (s : list ascii) (skip : nat) (prev : option ascii),
    Re.sub_go d (literal l) (map Re.TLit n) skip prev s
    = Py.replace_go l n skip s.
Proof.
  intros Hne. induction s as [|c t IH]; intros skip prev.
  - cbn [Re.sub_go Py.replace_go]. destruct skip; [|reflexivity].
    rewrite match_literal.
    destruct l; [contradiction|reflexivity].
  - cbn [Re.sub_go Py.replace_go]. destruct skip as [|k]; [|apply IH].
    rewrite match_literal.
    destruct (Py.prefix_of l (c :: t)) eqn:E.
    + cbn [Re.rest Re.caps].
      pose proof (prefix_of_length _ _ E) as Hlen.
      rewrite length_skipn.
      replace (length (c :: t) - (length (c :: t) - length l))
        with (length l) by lia.
      destruct (length l) eqn:El.
      * destruct l; [contradiction|discriminate].
      * rewrite expand_literals. now rewrite IH.
    + now rewrite IH.
Qed.

Lemma replace_go_same (l : list ascii) :
  l <> [] ->
  forall (s : list ascii) (n : nat), Py.replace_go l l n s = skipn n s.
Proof.
  intros Hne. induction s as [|c t IH]; intros n.
  - cbn [Py.replace_go]. destruct n, l; reflexivity.
  - cbn [Py.replace_go]. destruct n as [|n]; [|apply IH].
    cbn [skipn].
    destruct (Py.prefix_of l (c :: t)) eqn:E.
    + destruct (length l) eqn:El.
      * destruct l; [contradiction|discriminate].
      * rewrite IH. apply prefix_of_app in E. destruct E as [r Hr].
        destruct l as [|a l']; [contradiction|].
        injection Hr as -> ->. injection El as <-.
        cbn [app]. f_equal. f_equal.
        rewrite skipn_app, skipn_all, Nat.sub_diag. reflexivity.
    + now rewrite IH.
Qed.

Lemma sub_is_replace (pattern repl old : string) :
  Re.compile pattern = Some (literal (list_ascii_of_string old)) ->
  old <> EmptyString ->
  Re.template repl = map Re.TLit (list_ascii_of_string repl) ->
  forall code, Re.sub pattern repl code = Py.replace code old repl.
Proof.
  intros Hc Hne Ht code. unfold Re.sub, Re.sub_flags, Py.replace.
  rewrite Hc, Ht. f_equal. apply sub_go_literal.
  destruct old; [contradiction|discriminate].
Qed.

Lemma replace_same (code old : string) :
  old <> EmptyString -> Py.replace code old old = code.
Proof.
  intros Hne. unfold Py.replace. rewrite replace_go_same.
  - apply string_of_list_ascii_of_string.
  - destruct old; [contradiction|discriminate].
Qed.

(** X2.  The last three substitutions of [expand_all] replace
    [(u)->count], [(u)->digits] and [(u)->is_negative] by themselves: on
    every text they change nothing, and Phase 2 of [expand_all] computes
    what its field substitutions alone compute. *)
Theorem normalize_fixes_change_nothing (code : string) :
  apply_subs complete_expansion.normalize_subs code = code /\
  complete_expansion.expand_fields code
  = apply_subs complete_expansion.field_subs code.
Proof.
  assert (H : forall c, apply_subs complete_expansion.normalize_subs c = c).
  { intros c.
    unfold apply_subs, complete_expansion.normalize_subs.
    cbn [fold_left fst snd].
    rewrite (sub_is_replace "\(u\)->count" "(u)->count" "(u)->count")
      by (vm_compute; first [reflexivity | discriminate]).
    rewrite replace_same by discriminate.
    rewrite (sub_is_replace "\(u\)->digits" "(u)->digits" "(u)->digits")
      by (vm_compute; first [reflexivity | discriminate]).
    rewrite replace_same by discriminate.
    rewrite (sub_is_replace "\(u\)->is_negative" "(u)->is_negative"
               "(u)->is_negative")
      by (vm_compute; first [reflexivity | discriminate]).
    now rewrite replace_same by discriminate. }
  split; [apply H|].
  unfold complete_expansion.expand_fields. rewrite apply_subs_app. apply H.
Qed.

(* ================================================================== *)
(** * A pattern that matches nowhere *)
(* ================================================================== *)

Lemma sub_go_no_match (d : bool) (r : Re.regex) (tpl : list Re.titem) :
  forall (s : list ascii) (prev : option ascii),
    search_go d r prev s = false -> Re.sub_go d r tpl 0 prev s = s.
Proof.
  induction s as [|c t IH]; intros prev H; cbn [search_go] in H;
    cbn [Re.sub_go];
    destruct (Re.match_here d r prev _); try discriminate; [reflexivity|].
  now rewrite IH.
Qed.

Lemma sub_no_match (pattern repl code : string) :
  search pattern code = false -> Re.sub pattern repl code = code.
Proof.
  unfold search, Re.sub, Re.sub_flags.
  destruct (Re.compile pattern); [|reflexivity].
  intros H. rewrite sub_go_no_match by exact H.
  apply string_of_list_ascii_of_string.
Qed.

Lemma apply_subs_no_match (subs : list (string * string)) (code : string) :
  forallb (fun pr => negb (search (fst pr) code)) subs = true ->
  apply_subs subs code = code.
Proof.
  unfold apply_subs. induction subs as [|[p rp] subs IH]; intros H;
    cbn [fold_left fst snd]; [reflexivity|].
  cbn [forallb fst] in H. apply andb_true_iff in H. destruct H as [H1 H2].
  apply negb_true_iff in H1.
  rewrite sub_no_match by exact H1. apply IH. exact H2.
Qed.

(** X3.  The pattern [KW\[i\]\.keyword\.s] of fix_source_location.py ends
    without a word boundary, and its replacement [KW[i].keyword.string]
    begins with the text it matches.  On a text that holds
    [KW[i].keyword.s] (and where the Source_Location patterns and the
    [KW[i].t] pattern find nothing), the script replaces every occurrence
    of that fragment, whatever follows it; the result holds the fragment
    again and is strictly longer.  An expanded [KW[i].keyword.string]
    becomes [KW[i].keyword.stringtring]. *)
Theorem keyword_string_grows_on_every_run (code : string) :
  forallb (fun pr => negb (search (fst pr) code))
          (firstn 9 fix_source_location.subs) = true ->
  search "KW\[i\]\.t\b"
         (Py.replace code "KW[i].keyword.s" "KW[i].keyword.string") = false ->
  Py.contains "KW[i].keyword.s" code = true ->
  fix_source_location.rewrite code
  = Py.replace code "KW[i].keyword.s" "KW[i].keyword.string" /\
  Py.contains "KW[i].keyword.s" (fix_source_location.rewrite code) = true /\
  String.length code < String.length (fix_source_location.rewrite code).
Proof.
  intros H9 H11 Hc.
  assert (E : fix_source_location.rewrite code
              = Py.replace code "KW[i].keyword.s" "KW[i].keyword.string").
  { unfold fix_source_location.rewrite.
    change fix_source_location.subs
      with (firstn 9 fix_source_location.subs
            ++ [("KW\[i\]\.keyword\.s", "KW[i].keyword.string");
                ("KW\[i\]\.t\b", "KW[i].token_kind")]%string).
    rewrite apply_subs_app, (apply_subs_no_match _ _ H9).
    unfold apply_subs. cbn [fold_left fst snd].
    rewrite (sub_is_replace "KW\[i\]\.keyword\.s" "KW[i].keyword.string"
               "KW[i].keyword.s")
      by (vm_compute; first [reflexivity | discriminate]).
    apply sub_no_match. exact H11. }
  rewrite E. repeat apply conj.
  - reflexivity.
  - apply replace_keeps; [discriminate | vm_compute; reflexivity | exact Hc].
  - apply replace_grows; [discriminate | vm_compute; lia | exact Hc].
Qed.

Lemma keyword_string_grows_on_every_run_witness :
  fix_source_location.rewrite "p = KW[i].keyword.string;"
  = Py.replace "p = KW[i].keyword.string;" "KW[i].keyword.s"
      "KW[i].keyword.string" /\
  Py.contains "KW[i].keyword.s"
    (fix_source_location.rewrite "p = KW[i].keyword.string;") = true /\
  String.length "p = KW[i].keyword.string;"
  < String.length (fix_source_location.rewrite "p = KW[i].keyword.string;").
Proof.
  apply (keyword_string_grows_on_every_run "p = KW[i].keyword.string;");
    vm_compute; reflexivity.
Defined.

(* ================================================================== *)
(** * Text without a member access *)
(* ================================================================== *)

Lemma run_needs (d : bool) (c : ascii) (r : Re.regex) :
  needs c r = true ->
  forall (st : Re.mstate) (k : Re.mstate -> option Re.mstate) (res : Re.mstate),
    Re.run d r st k = Some res ->
    exists st' m,
      Re.rest st = m ++ Re.rest st' /\ In c m /\ k st' = Some res.
Proof.
  induction r as [ |x| |neg items|r1 IH1 r2 IH2|r1 IH1 r2 IH2|r1 IH1
                 |n r1 IH1| | |neg r1 IH1];
    cbn [needs]; intros Hn st k res H; try discriminate.
  - (* Lit *)
    apply Ascii.eqb_eq in Hn. subst x.
    cbn [Re.run] in H. unfold Re.step_char in H.
    destruct (Re.rest st) as [|a t] eqn:E; [discriminate|].
    destruct (Ascii.eqb c a) eqn:Ea; [|discriminate].
    apply Ascii.eqb_eq in Ea. subst a.
    exists (Re.MState (Some c) t (Re.caps st)), [c].
    cbn [Re.rest]. repeat split; [now left | exact H].
  - (* Cat *)
    cbn [Re.run] in H. apply orb_true_iff in Hn. destruct Hn as [Hn|Hn].
    + destruct (IH1 Hn _ _ _ H) as (st1 & m1 & E1 & Hin & H1).
      destruct (run_suffix _ _ _ _ _ H1) as (st2 & m2 & E2 & H2).
      exists st2, (m1 ++ m2). rewrite E1, E2, app_assoc.
      repeat split; [apply in_or_app; now left | exact H2].
    + destruct (run_suffix _ _ _ _ _ H) as (st1 & m1 & E1 & H1).
      destruct (IH2 Hn _ _ _ H1) as (st2 & m2 & E2 & Hin & H2).
      exists st2, (m1 ++ m2). rewrite E1, E2, app_assoc.
      repeat split; [apply in_or_app; now right | exact H2].
  - (* Alt *)
    cbn [Re.run] in H. apply andb_true_iff in Hn. destruct Hn as [Hn1 Hn2].
    destruct (Re.run d r1 st k) eqn:E1.
    + injection H as <-. exact (IH1 Hn1 _ _ _ E1).
    + exact (IH2 Hn2 _ _ _ H).
  - (* Group *)
    cbn [Re.run] in H.
    destruct (IH1 Hn _ _ _ H) as (st1 & m1 & E1 & Hin & H1).
    exists (Re.MState (Re.before st1) (Re.rest st1)
              ((n, Re.consumed st st1) :: Re.caps st1)), m1.
    cbn [Re.rest]. repeat split; assumption.
Qed.

Lemma match_here_needs (d : bool) (c : ascii) (r : Re.regex)
    (prev : option ascii) (s : list ascii) :
  needs c r = true -> ~ In c s -> Re.match_here d r prev s = None.
Proof.
  intros Hn Hs. destruct (Re.match_here d r prev s) as [st|] eqn:E;
    [|reflexivity].
  unfold Re.match_here in E.
  destruct (run_needs d c r Hn _ _ _ E) as (st' & m & Es & Hin & _).
  cbn [Re.rest] in Es. exfalso. apply Hs. rewrite Es.
  apply in_or_app. now left.
Qed.

Lemma sub_go_needs (d : bool) (c : ascii) (r : Re.regex) (tpl : list Re.titem) :
  needs c r = true ->
  forall (s : list ascii) (prev : option ascii),
    ~ In c s -> Re.sub_go d r tpl 0 prev s = s.
Proof.
  intros Hn. induction s as [|a t IH]; intros prev Hs; cbn [Re.sub_go];
    rewrite (match_here_needs d c r prev _ Hn Hs); [reflexivity|].
  rewrite IH; [reflexivity|]. intros Hin. apply Hs. now right.
Qed.

Lemma free_of_accesses_not_in (x : string) (c : ascii) :
  free_of_accesses x = true ->
  Ascii.eqb c "." || Ascii.eqb c "-" = true ->
  ~ In c (list_ascii_of_string x).
Proof.
  unfold free_of_accesses. intros Hx Hc Hin.
  rewrite forallb_forall in Hx. specialize (Hx c Hin).
  rewrite Hc in Hx. discriminate.
Qed.

Lemma sub_without_access (pattern repl x : string) :
  needs_access pattern = true ->
  free_of_accesses x = true ->
  Re.sub pattern repl x = x.
Proof.
  unfold needs_access, Re.sub, Re.sub_flags. intros Hn Hx.
  destruct (Re.compile pattern) as [r|]; [|discriminate].
  apply orb_true_iff in Hn.
  destruct Hn as [Hn|Hn];
    (rewrite (sub_go_needs _ _ _ _ Hn);
     [apply string_of_list_ascii_of_string
     |apply free_of_accesses_not_in; [exact Hx|reflexivity]]).
Qed.

Lemma apply_subs_without_access (subs : list (string * string)) (x : string) :
  forallb (fun pr => needs_access (fst pr)) subs = true ->
  free_of_accesses x = true ->
  apply_subs subs x = x.
Proof.
  unfold apply_subs. intros Hs Hx.
  induction subs as [|[p rp] subs IH]; cbn [fold_left fst snd]; [reflexivity|].
  cbn [forallb fst] in Hs. apply andb_true_iff in Hs. destruct Hs as [H1 H2].
  rewrite sub_without_access by assumption. apply IH. exact H2.
Qed.

(** X4.  A text with no [.] and no [-] holds no member access, and the
    field cascades return it as it is: [fix_field_accesses],
    [apply_all_fixes], the line fix of fix_bigint_fields.py, the cascades
    of fix_string_slice_fields.py and fix_source_location.py, and Phase 2
    of [expand_all]. *)
Theorem text_without_access_untouched (x : string) :
  free_of_accesses x = true ->
  fix_field_accesses.fix_field_accesses x = x /\
  apply_all_field_fixes.apply_all_fixes x = x /\
  fix_bigint_fields.fix_line x = x /\
  fix_string_slice_fields.rewrite x = x /\
  fix_source_location.rewrite x = x /\
  complete_expansion.expand_fields x = x.
Proof.
  intros Hx. repeat apply conj;
    (apply apply_subs_without_access; [vm_compute; reflexivity | exact Hx]).
Qed.

Lemma text_without_access_untouched_witness :
  fix_field_accesses.fix_field_accesses "int n = d + s * (c);" = "int n = d + s * (c);"%string /\
  apply_all_field_fixes.apply_all_fixes "int n = d + s * (c);" = "int n = d + s * (c);"%string /\
  fix_bigint_fields.fix_line "int n = d + s * (c);" = "int n = d + s * (c);"%string /\
  fix_string_slice_fields.rewrite "int n = d + s * (c);" = "int n = d + s * (c);"%string /\
  fix_source_location.rewrite "int n = d + s * (c);" = "int n = d + s * (c);"%string /\
  complete_expansion.expand_fields "int n = d + s * (c);" = "int n = d + s * (c);"%string.
Proof.
  apply (text_without_access_untouched "int n = d + s * (c);"). reflexivity.
Defined.

(* ================================================================== *)
(** * What the matcher can find *)
(* ================================================================== *)

Lemma star_loop_derives (d : bool) (r : Re.regex)
    (k : Re.mstate -> option Re.mstate) (res : Re.mstate) :
  (forall st k', Re.run d r st k' = Some res ->
     exists st', derives d r st st' /\ k' st' = Some res) ->
  forall (fuel : nat) (st : Re.mstate),
    Re.star_loop (Re.run d r) k fuel st = Some res ->
    exists st', derives d (Re.Star r) st st' /\ k st' = Some res.
Proof.
  intros Hbody. induction fuel as [|fuel IH]; intros st H.
  - cbn [Re.star_loop] in H. exists st. split; [constructor|exact H].
  - rewrite star_loop_step in H.
    destruct (Re.run d r st _) as [res0|] eqn:E.
    + injection H as ->.
      destruct (Hbody _ _ E) as (st1 & D1 & H1).
      destruct (length (Re.rest st1) <? length (Re.rest st)); [|discriminate].
      destruct (IH _ H1) as (st2 & D2 & H2).
      exists st2. split; [|exact H2].
      eapply der_star_more; eassumption.
    + exists st. split; [constructor|exact H].
Qed.

Lemma run_derives (d : bool) (r : Re.regex) :
  forall (st : Re.mstate) (k : Re.mstate -> option Re.mstate) (res : Re.mstate),
    Re.run d r st k = Some res ->
    exists st', derives d r st st' /\ k st' = Some res.
Proof.
  induction r as [ |x| |neg items|r1 IH1 r2 IH2|r1 IH1 r2 IH2|r1 IH1
                 |n r1 IH1| | |neg r1 IH1];
    intros st k res H; cbn [Re.run] in H.
  - exists st. split; [constructor|exact H].
  - unfold Re.step_char in H.
    destruct (Re.rest st) as [|a t] eqn:E; [discriminate|].
    destruct (Ascii.eqb x a) eqn:Ea; [|discriminate].
    apply Ascii.eqb_eq in Ea. subst a.
    eexists. split; [apply der_lit; exact E|exact H].
  - unfold Re.step_char in H.
    destruct (Re.rest st) as [|a t] eqn:E; [discriminate|].
    destruct (d || negb (Ascii.eqb a "010")) eqn:Ea; [|discriminate].
    eexists. split; [eapply der_any; eassumption|exact H].
  - unfold Re.step_char in H.
    destruct (Re.rest st) as [|a t] eqn:E; [discriminate|].
    destruct (xorb neg _) eqn:Ea; [|discriminate].
    eexists. split; [eapply der_set; eassumption|exact H].
  - destruct (IH1 _ _ _ H) as (st1 & D1 & H1).
    destruct (IH2 _ _ _ H1) as (st2 & D2 & H2).
    exists st2. split; [eapply der_cat; eassumption|exact H2].
  - destruct (Re.run d r1 st k) eqn:E1.
    + injection H as ->. destruct (IH1 _ _ _ E1) as (st1 & D1 & H1).
      exists st1. split; [now apply der_alt_left|exact H1].
    + destruct (IH2 _ _ _ H) as (st1 & D1 & H1).
      exists st1. split; [now apply der_alt_right|exact H1].
  - eapply star_loop_derives; [|exact H]. intros st0 k' H0. exact (IH1 _ _ _ H0).
  - destruct (IH1 _ _ _ H) as (st1 & D1 & H1).
    eexists. split; [apply der_group; exact D1|exact H1].
  - destruct (xorb _ _) eqn:E; [|discriminate].
    exists st. split; [now apply der_bound|exact H].
  - destruct (Re.before st) eqn:E; [discriminate|].
    exists st. split; [now apply der_bol|exact H].
  - destruct (Re.run d r1 st Some) as [st1|] eqn:E.
    + destruct neg; [discriminate|].
      destruct (IH1 _ _ _ E) as (st2 & D2 & H2). injection H2 as ->.
      eexists. split; [apply der_ahead; exact D2|exact H].
    + destruct neg; [|discriminate].
      exists st. split; [now apply der_not_ahead|exact H].
Qed.

Lemma match_here_derives (d : bool) (r : Re.regex) (prev : option ascii)
    (s : list ascii) (st : Re.mstate) :
  Re.match_here d r prev s = Some st \/
  Re.match_here_nonempty d r prev s = Some st ->
  derives d r (Re.MState prev s []) st.
Proof.
  unfold Re.match_here, Re.match_here_nonempty. intros [H|H];
    destruct (run_derives _ _ _ _ _ H) as (st' & D & Hk).
  - now injection Hk as ->.
  - destruct (_ <? _); [|discriminate]. now injection Hk as ->.
Qed.

(** ** The characters of a match *)

Lemma in_all_ascii (c : ascii) : In c all_ascii.
Proof.
  unfold all_ascii. rewrite <- (ascii_nat_embedding c).
  apply in_map. apply in_seq. pose proof (nat_ascii_bounded c). lia.
Qed.

Lemma forallb_all_ascii (f : ascii -> bool) (c : ascii) :
  forallb f all_ascii = true -> f c = true.
Proof.
  intros H. rewrite forallb_forall in H. apply H. apply in_all_ascii.
Qed.

Lemma consumed_app (st st' : Re.mstate) (m : list ascii) :
  Re.rest st = m ++ Re.rest st' -> Re.consumed st st' = m.
Proof.
  intros E. unfold Re.consumed. rewrite E, length_app.
  replace (length m + length (Re.rest st') - length (Re.rest st'))
    with (length m) by lia.
  rewrite firstn_app, Nat.sub_diag, firstn_all. cbn [firstn].
  apply app_nil_r.
Qed.

Lemma no_group_caps (d : bool) (r : Re.regex) (st st' : Re.mstate) :
  derives d r st st' -> has_group r = false -> Re.caps st' = Re.caps st.
Proof.
  induction 1; cbn [has_group Re.caps]; intros Hg;
    try reflexivity; try discriminate.
  - apply orb_false_iff in Hg. destruct Hg as [H1 H2].
    rewrite IHderives2, IHderives1 by assumption. reflexivity.
  - apply orb_false_iff in Hg. destruct Hg as [H1 H2]. now apply IHderives.
  - apply orb_false_iff in Hg. destruct Hg as [H1 H2]. now apply IHderives.
  - rewrite IHderives2, IHderives1 by assumption. reflexivity.
  - now apply IHderives.
Qed.

Lemma derives_chars (P : ascii -> bool) (d : bool) (r : Re.regex)
    (st st' : Re.mstate) :
  derives d r st st' ->
  chars_in P d r = true ->
  exists m,
    Re.rest st = m ++ Re.rest st' /\
    forallb P m = true /\
    (caps_in P (Re.caps st) = true -> caps_in P (Re.caps st') = true).
Proof.
  induction 1; cbn [chars_in]; intros Hc.
  - exists []. repeat split; auto.
  - exists [c]. cbn [Re.rest Re.caps forallb app]. rewrite Hc.
    repeat split; auto.
  - exists [c]. cbn [Re.rest Re.caps forallb app].
    apply (forallb_all_ascii _ c) in Hc. cbv beta in Hc. rewrite H0 in Hc. cbn [implb] in Hc.
    rewrite Hc. repeat split; auto.
  - exists [c]. cbn [Re.rest Re.caps forallb app].
    apply (forallb_all_ascii _ c) in Hc. cbv beta in Hc. rewrite H0 in Hc. cbn [implb] in Hc.
    rewrite Hc. repeat split; auto.
  - apply andb_true_iff in Hc. destruct Hc as [H1 H2].
    destruct (IHderives1 H1) as (m1 & E1 & P1 & C1).
    destruct (IHderives2 H2) as (m2 & E2 & P2 & C2).
    exists (m1 ++ m2). rewrite E1, E2, app_assoc, forallb_app, P1, P2.
    repeat split; auto.
  - apply andb_true_iff in Hc. destruct Hc as [H1 H2]. now apply IHderives.
  - apply andb_true_iff in Hc. destruct Hc as [H1 H2]. now apply IHderives.
  - exists []. repeat split; auto.
  - destruct (IHderives1 Hc) as (m1 & E1 & P1 & C1).
    destruct (IHderives2 Hc) as (m2 & E2 & P2 & C2).
    exists (m1 ++ m2). rewrite E1, E2, app_assoc, forallb_app, P1, P2.
    repeat split; auto.
  - destruct (IHderives Hc) as (m1 & E1 & P1 & C1).
    exists m1. cbn [Re.rest Re.caps]. repeat split; [exact E1|exact P1|].
    intros Hcs. cbn [caps_in forallb snd].
    rewrite (consumed_app _ _ _ E1), P1. exact (C1 Hcs).
  - exists []. repeat split; auto.
  - exists []. repeat split; auto.
  - exists []. cbn [Re.rest Re.caps]. repeat split; auto.
    apply negb_true_iff in Hc.
    now rewrite (no_group_caps _ _ _ _ H Hc).
  - exists []. repeat split; auto.
Qed.

Lemma lookup_group_in (P : ascii -> bool) (n : nat)
    (cs : list (nat * list ascii)) :
  caps_in P cs = true -> forallb P (Re.lookup_group n cs) = true.
Proof.
  induction cs as [|[m txt] cs IH]; cbn [Re.lookup_group caps_in forallb snd];
    [reflexivity|].
  intros H. apply andb_true_iff in H. destruct H as [H1 H2].
  destruct (n =? m); [exact H1|now apply IH].
Qed.

Lemma expand_in (P : ascii -> bool) (tpl : list Re.titem)
    (cs : list (nat * list ascii)) :
  template_in P tpl = true -> caps_in P cs = true ->
  forallb P (Re.expand tpl cs) = true.
Proof.
  intros Ht Hcs. induction tpl as [|[c|n] tpl IH];
    cbn [Re.expand template_in forallb] in *; [reflexivity| |].
  - apply andb_true_iff in Ht. destruct Ht as [H1 H2].
    now rewrite H1, IH.
  - rewrite forallb_app, lookup_group_in, IH by assumption. reflexivity.
Qed.

Lemma decomposes_in (P : ascii -> bool) (d : bool) (r : Re.regex)
    (tpl : list Re.titem) (prev : option ascii) (s : list ascii)
    (ps : list piece) :
  chars_in P d r = true -> template_in P tpl = true ->
  decomposes d r tpl prev s ps -> Forall (piece_in P) ps.
Proof.
  intros Hr Ht. induction 1 as [prev|prev c t ps Hd IH|prev m tail st ps Hm Hrest Hd IH].
  - constructor.
  - constructor; [exact I|exact IH].
  - constructor; [|exact IH].
    apply match_here_derives in Hm.
    destruct (derives_chars P _ _ _ _ Hm Hr) as (m' & E & Pm & Hcs).
    cbn [Re.rest Re.caps] in E, Hcs. rewrite Hrest in E.
    apply app_inv_tail in E. subst m'.
    split; [exact Pm|]. apply expand_in; [exact Ht|]. now apply Hcs.
Qed.

(* ================================================================== *)
(** * Line feeds *)
(* ================================================================== *)

Lemma count_lf_app (a b : list ascii) :
  count_lf (a ++ b) = count_lf a + count_lf b.
Proof. unfold count_lf. now rewrite filter_app, length_app. Qed.

Lemma count_lf_none (l : list ascii) :
  forallb not_lf l = true -> count_lf l = 0.
Proof.
  unfold count_lf, not_lf. induction l as [|c l IH]; cbn [forallb filter];
    [reflexivity|].
  intros H. apply andb_true_iff in H. destruct H as [H1 H2].
  apply negb_true_iff in H1. rewrite Ascii.eqb_sym in H1. rewrite H1.
  now apply IH.
Qed.

Lemma pieces_count_lf (ps : list piece) :
  Forall (piece_in not_lf) ps ->
  count_lf (flat_map piece_output ps) = count_lf (flat_map piece_source ps).
Proof.
  induction 1 as [|p ps Hp _ IH]; cbn [flat_map]; [reflexivity|].
  rewrite !count_lf_app, IH. f_equal.
  destruct p as [c|m out]; [reflexivity|].
  destruct Hp as [Hm Ho]. cbn [piece_output piece_source].
  now rewrite !count_lf_none.
Qed.

Lemma sub_go_count_lf (r : Re.regex) (tpl : list Re.titem)
    (prev : option ascii) (s : list ascii) :
  chars_in not_lf false r = true -> template_in not_lf tpl = true ->
  count_lf (Re.sub_go false r tpl 0 prev s) = count_lf s.
Proof.
  intros Hr Ht.
  destruct (sub_go_decomposes false r tpl (length s) s prev (le_n _))
    as (ps & Hd & ->).
  rewrite pieces_count_lf by (eapply decomposes_in; eassumption).
  now rewrite (decomposes_source _ _ _ _ _ _ Hd).
Qed.

Lemma sub_count_lf (pr : string * string) (code : string) :
  keeps_lines pr = true ->
  count_lf (list_ascii_of_string (Re.sub (fst pr) (snd pr) code))
  = count_lf (list_ascii_of_string code).
Proof.
  unfold keeps_lines, Re.sub, Re.sub_flags.
  destruct (Re.compile (fst pr)) as [r|]; [|reflexivity].
  intros H. apply andb_true_iff in H. destruct H as [H1 H2].
  rewrite string_list_roundtrip. now apply sub_go_count_lf.
Qed.

Lemma apply_subs_count_lf (subs : list (string * string)) :
  forallb keeps_lines subs = true ->
  forall code,
    count_lf (list_ascii_of_string (apply_subs subs code))
    = count_lf (list_ascii_of_string code).
Proof.
  unfold apply_subs. induction subs as [|pr subs IH]; intros H code;
    cbn [fold_left]; [reflexivity|].
  cbn [forallb] in H. apply andb_true_iff in H. destruct H as [H1 H2].
  rewrite IH by exact H2. now apply sub_count_lf.
Qed.

Lemma split_go_length (s : list ascii) :
  length (Py.split_go s) = S (count_lf s).
Proof.
  unfold count_lf. induction s as [|c t IH]; [reflexivity|].
  cbn [Py.split_go filter]. rewrite (Ascii.eqb_sym Py.LF c).
  destruct (Ascii.eqb c Py.LF).
  - cbn [length]. now rewrite IH.
  - destruct (Py.split_go t) as [|l ls]; [discriminate|].
    cbn [length] in *. exact IH.
Qed.

Lemma split_lines_length (code : string) :
  length (Py.split_lines code) = S (count_lf (list_ascii_of_string code)).
Proof. unfold Py.split_lines. rewrite length_map. apply split_go_length. Qed.

Lemma apply_subs_lines (subs : list (string * string)) (code : string) :
  forallb keeps_lines subs = true ->
  length (Py.split_lines (apply_subs subs code))
  = length (Py.split_lines code).
Proof.
  intros H. rewrite !split_lines_length. f_equal.
  now apply apply_subs_count_lf.
Qed.

(** X5.  No substitution of the field cascades can consume or produce a
    line feed: the text each cascade returns has as many lines as the text
    it was given. *)
Theorem field_fixes_keep_line_count (code : string) :
  length (Py.split_lines (fix_field_accesses.fix_field_accesses code))
  = length (Py.split_lines code) /\
  length (Py.split_lines (apply_all_field_fixes.apply_all_fixes code))
  = length (Py.split_lines code) /\
  length (Py.split_lines (fix_bigint_fields.fix_line code))
  = length (Py.split_lines code) /\
  length (Py.split_lines (fix_string_slice_fields.rewrite code))
  = length (Py.split_lines code) /\
  length (Py.split_lines (fix_source_location.rewrite code))
  = length (Py.split_lines code) /\
  length (Py.split_lines (complete_expansion.expand_fields code))
  = length (Py.split_lines code).
Proof.
  repeat apply conj; apply apply_subs_lines; vm_compute; reflexivity.
Qed.

(* ================================================================== *)
(** * The boolean operators *)
(* ================================================================== *)

Lemma prefix_pair (c a : ascii) (l : list ascii) :
  Py.prefix_of [c; c] (a :: l) = Ascii.eqb c a && head_is c l.
Proof.
  cbn [Py.prefix_of]. destruct l as [|b l]; cbn [head_is Py.prefix_of];
    [reflexivity|]. now rewrite andb_true_r.
Qed.

Lemma contains_pair_cons (c a : ascii) (l : list ascii) :
  Py.contains_go [c; c] (a :: l)
  = (Ascii.eqb c a && head_is c l) || Py.contains_go [c; c] l.
Proof.
  change (Py.contains_go [c; c] (a :: l))
    with (Py.prefix_of [c; c] (a :: l) || Py.contains_go [c; c] l).
  now rewrite prefix_pair.
Qed.

Lemma contains_pair_nil (c : ascii) : Py.contains_go [c; c] [] = false.
Proof. reflexivity. Qed.

Lemma contains_pair_after (c : ascii) (out l : list ascii) :
  forallb (differs c) out = true ->
  Py.contains_go [c; c] (out ++ l) = Py.contains_go [c; c] l.
Proof.
  induction out as [|a out IH]; cbn [forallb app]; [reflexivity|].
  intros H. apply andb_true_iff in H. destruct H as [H1 H2].
  rewrite contains_pair_cons, IH by exact H2.
  unfold differs in H1. apply negb_true_iff in H1. now rewrite H1.
Qed.

Lemma contains_pair_tail (c : ascii) (m l : list ascii) :
  Py.contains_go [c; c] (m ++ l) = false -> Py.contains_go [c; c] l = false.
Proof.
  induction m as [|a m IH]; cbn [app]; [auto|].
  rewrite contains_pair_cons. intros H. apply orb_false_iff in H.
  apply IH. apply H.
Qed.

Lemma head_is_app (c : ascii) (out l : list ascii) :
  out <> [] -> forallb (differs c) out = true -> head_is c (out ++ l) = false.
Proof.
  destruct out as [|a out]; [contradiction|]. intros _ H.
  cbn [forallb] in H. apply andb_true_iff in H. destruct H as [H _].
  unfold differs in H. apply negb_true_iff in H. exact H.
Qed.

Lemma pieces_pair_free (c : ascii) (d : bool) (r : Re.regex)
    (tpl : list Re.titem) (prev : option ascii) (s : list ascii)
    (ps : list piece) :
  decomposes d r tpl prev s ps ->
  Forall (piece_avoids c) ps ->
  Py.contains_go [c; c] s = false ->
  Py.contains_go [c; c] (flat_map piece_output ps) = false /\
  (head_is c (flat_map piece_output ps) = true -> head_is c s = true).
Proof.
  induction 1 as [prev|prev a t ps Hd IH|prev m tail st ps Hm Hrest Hd IH];
    intros Hps Hs.
  - split; [reflexivity|auto].
  - apply Forall_inv_tail in Hps.
    rewrite contains_pair_cons in Hs. apply orb_false_iff in Hs.
    destruct Hs as [Hs1 Hs2].
    destruct (IH Hps Hs2) as [IH1 IH2].
    cbn [flat_map piece_output app]. split; [|auto].
    rewrite contains_pair_cons, IH1, orb_false_r.
    destruct (Ascii.eqb c a); [|reflexivity]. cbn [andb] in *.
    destruct (head_is c (flat_map piece_output ps)); [|reflexivity].
    rewrite IH2 in Hs1 by reflexivity. discriminate.
  - pose proof (Forall_inv Hps) as [Hne Hout].
    apply Forall_inv_tail in Hps.
    destruct (IH Hps (contains_pair_tail _ _ _ Hs)) as [IH1 IH2].
    cbn [flat_map piece_output]. split.
    + now rewrite contains_pair_after.
    + rewrite head_is_app by assumption. discriminate.
Qed.

Lemma decomposes_avoids (c : ascii) (d : bool) (r : Re.regex)
    (tpl : list Re.titem) (prev : option ascii) (s : list ascii)
    (ps : list piece) :
  chars_in (differs c) d r = true ->
  template_in (differs c) tpl = true ->
  starts_with_literal tpl = true ->
  decomposes d r tpl prev s ps -> Forall (piece_avoids c) ps.
Proof.
  intros Hr Ht Hl Hd.
  pose proof (decomposes_in _ _ _ _ _ _ _ Hr Ht Hd) as Hin.
  induction Hd as [prev|prev a t ps Hd IH|prev m tail st ps Hm Hrest Hd IH].
  - constructor.
  - constructor; [exact I|]. apply IH. now apply Forall_inv_tail in Hin.
  - constructor; [|apply IH; now apply Forall_inv_tail in Hin].
    apply Forall_inv in Hin. destruct Hin as [_ Ho]. split; [|exact Ho].
    destruct tpl as [|[a|n] tpl]; try discriminate Hl. cbn [Re.expand].
    discriminate.
Qed.

Lemma sub_go_pair_free (c : ascii) (r : Re.regex) (tpl : list Re.titem)
    (s : list ascii) :
  chars_in (differs c) false r = true ->
  template_in (differs c) tpl = true ->
  starts_with_literal tpl = true ->
  Py.contains_go [c; c] s = false ->
  Py.contains_go [c; c] (Re.sub_go false r tpl 0 None s) = false.
Proof.
  intros Hr Ht Hl Hs.
  destruct (sub_go_decomposes false r tpl (length s) s None (le_n _))
    as (ps & Hd & ->).
  eapply pieces_pair_free; [exact Hd| |exact Hs].
  eapply decomposes_avoids; eassumption.
Qed.

Lemma sub_pair_free (c : ascii) (pr : string * string) (code : string) :
  avoids c pr = true ->
  Py.contains (String c (String c EmptyString)) code = false ->
  Py.contains (String c (String c EmptyString))
    (Re.sub (fst pr) (snd pr) code) = false.
Proof.
  unfold avoids, Py.contains, Re.sub, Re.sub_flags.
  destruct (Re.compile (fst pr)) as [r|]; [|auto].
  intros H Hs. apply andb_true_iff in H. destruct H as [H H3].
  apply andb_true_iff in H. destruct H as [H1 H2].
  rewrite string_list_roundtrip. now apply sub_go_pair_free.
Qed.

(** [replace] of a doubled character by a text without it leaves no
    doubled character behind. *)
Lemma replace_go_pair_free (c : ascii) (new : list ascii) :
  new <> [] -> forallb (differs c) new = true ->
  forall (s : list ascii) (n : nat),
    Py.contains_go [c; c] (Py.replace_go [c; c] new n s) = false /\
    (n = 0 -> head_is c (Py.replace_go [c; c] new n s) = true ->
     head_is c s = true).
Proof.
  intros Hne Hnew. induction s as [|a t IH]; intros n.
  - cbn [Py.replace_go]. destruct n; split; auto.
  - cbn [Py.replace_go]. destruct n as [|n].
    + rewrite prefix_pair. destruct (Ascii.eqb c a && head_is c t) eqn:E.
      * cbn [length]. split.
        { rewrite contains_pair_after by exact Hnew. apply IH. }
        { intros _. now rewrite head_is_app. }
      * destruct (IH 0) as [IH1 IH2]. split.
        { rewrite contains_pair_cons, IH1, orb_false_r.
          destruct (Ascii.eqb c a); [|reflexivity]. cbn [andb] in *.
          destruct (head_is c (Py.replace_go [c; c] new 0 t)); [|reflexivity].
          rewrite IH2 in E by reflexivity. discriminate. }
        { intros _ H. exact H. }
    + split; [apply IH|discriminate].
Qed.

Lemma replace_pair_free (c : ascii) (code new : string) :
  new <> EmptyString ->
  forallb (differs c) (list_ascii_of_string new) = true ->
  Py.contains (String c (String c EmptyString))
    (Py.replace code (String c (String c EmptyString)) new) = false.
Proof.
  intros Hne Hnew. unfold Py.contains, Py.replace.
  rewrite string_list_roundtrip. cbn [list_ascii_of_string].
  apply replace_go_pair_free; [|exact Hnew].
  destruct new; [contradiction|discriminate].
Qed.

(** X6.  Whatever the input, the text [replace_boolean_operators] returns
    holds neither [&&] nor [||]: replacing the pairs leaves no two [&] and
    no two [|] side by side, and the two [not] substitutions cannot bring
    any together. *)
Theorem boolean_operators_all_replaced (code : string) :
  Py.contains "&&" (reformat.replace_boolean_operators code) = false /\
  Py.contains "||" (reformat.replace_boolean_operators code) = false.
Proof.
  unfold reformat.replace_boolean_operators, apply_subs, reformat.boolean_subs.
  cbn [fold_left fst snd].
  rewrite (sub_is_replace "&&" " and " "&&")
    by (vm_compute; first [reflexivity | discriminate]).
  rewrite (sub_is_replace "\|\|" " or " "||")
    by (vm_compute; first [reflexivity | discriminate]).
  set (c1 := Py.replace code "&&" " and ").
  set (c2 := Py.replace c1 "||" " or ").
  assert (A1 : Py.contains "&&" c1 = false)
    by (apply (replace_pair_free "&"); [discriminate|reflexivity]).
  assert (B2 : Py.contains "||" c2 = false)
    by (apply (replace_pair_free "|"); [discriminate|reflexivity]).
  assert (A2 : Py.contains "&&" c2 = false).
  { unfold c2.
    rewrite <- (sub_is_replace "\|\|" " or " "||")
      by (vm_compute; first [reflexivity | discriminate]).
    apply (sub_pair_free "&" ("\|\|", " or ")%string);
      [vm_compute; reflexivity|exact A1]. }
  split.
  - apply (sub_pair_free "&" ("!\s*\(", "not (")%string);
      [vm_compute; reflexivity|].
    apply (sub_pair_free "&" ("!\s*([a-zA-Z_])", "not \1")%string);
      [vm_compute; reflexivity|exact A2].
  - apply (sub_pair_free "|" ("!\s*\(", "not (")%string);
      [vm_compute; reflexivity|].
    apply (sub_pair_free "|" ("!\s*([a-zA-Z_])", "not \1")%string);
      [vm_compute; reflexivity|exact B2].
Qed.

(* ================================================================== *)
(** * The lines of a file *)
(* ================================================================== *)

Lemma ends_lf_app (a b : list ascii) :
  b <> [] -> ends_lf (a ++ b) = ends_lf b.
Proof.
  intros Hb. induction a as [|c a IH]; [reflexivity|].
  cbn [app ends_lf]. destruct (a ++ b) eqn:E.
  - apply app_eq_nil in E. destruct E as [_ E]. contradiction.
  - exact IH.
Qed.

Lemma ends_lf_none (l : list ascii) :
  forallb not_lf l = true -> ends_lf l = false.
Proof.
  induction l as [|c l IH]; [reflexivity|]. cbn [forallb ends_lf].
  intros H. apply andb_true_iff in H. destruct H as [H1 H2].
  destruct l; [|now apply IH].
  unfold not_lf in H1. now apply negb_true_iff in H1.
Qed.

Lemma ends_lf_split (l : list ascii) :
  ends_lf l = true -> exists b, l = b ++ [Py.LF].
Proof.
  induction l as [|c l IH]; [discriminate|]. cbn [ends_lf].
  destruct l as [|c' l'].
  - intros H. apply Ascii.eqb_eq in H. subst c. now exists [].
  - intros H. destruct (IH H) as [b Hb]. exists (c :: b). now rewrite Hb.
Qed.

Lemma count_lf_zero (l : list ascii) :
  count_lf l = 0 -> forallb not_lf l = true.
Proof.
  unfold count_lf, not_lf. induction l as [|c l IH]; [reflexivity|].
  cbn [filter forallb]. rewrite (Ascii.eqb_sym Py.LF c).
  destruct (Ascii.eqb c Py.LF); [discriminate|]. exact IH.
Qed.

Lemma full_line_iff (l : list ascii) :
  full_line l <-> ends_lf l = true /\ count_lf l = 1.
Proof.
  split.
  - intros (b & -> & Hb). split.
    + now rewrite ends_lf_app by discriminate.
    + rewrite count_lf_app, count_lf_none by exact Hb. reflexivity.
  - intros [He Hc]. destruct (ends_lf_split l He) as [b ->].
    exists b. split; [reflexivity|].
    rewrite count_lf_app in Hc. apply count_lf_zero.
    change (count_lf [Py.LF]) with 1 in Hc. lia.
Qed.

Lemma last_line_iff (l : list ascii) :
  last_line l <-> l <> [] /\ count_lf l = 0.
Proof.
  unfold last_line. split; intros [H1 H2]; (split; [exact H1|]).
  - now apply count_lf_none.
  - now apply count_lf_zero.
Qed.

Lemma readlines_go_line (b rest : list ascii) :
  forallb not_lf b = true ->
  Py.readlines_go (b ++ Py.LF :: rest) = (b ++ [Py.LF]) :: Py.readlines_go rest.
Proof.
  induction b as [|c b IH]; cbn [forallb app Py.readlines_go].
  - intros _. now rewrite Ascii.eqb_refl.
  - intros H. apply andb_true_iff in H. destruct H as [H1 H2].
    unfold not_lf in H1. apply negb_true_iff in H1. rewrite H1.
    now rewrite IH.
Qed.

Lemma readlines_go_last (l : list ascii) :
  last_line l -> Py.readlines_go l = [l].
Proof.
  intros [Hne Hl]. induction l as [|c l IH]; [contradiction|].
  cbn [forallb Py.readlines_go] in *.
  apply andb_true_iff in Hl. destruct Hl as [H1 H2].
  unfold not_lf in H1. apply negb_true_iff in H1. rewrite H1.
  destruct l as [|c' l']; [reflexivity|].
  rewrite IH; [reflexivity|discriminate|exact H2].
Qed.

Lemma readlines_go_ok (s : list ascii) : lines_ok (Py.readlines_go s).
Proof.
  induction s as [|c t IH]; cbn [Py.readlines_go]; [constructor|].
  destruct (Ascii.eqb c Py.LF) eqn:E.
  - apply Ascii.eqb_eq in E. subst c.
    apply ok_cons; [|exact IH]. now exists [].
  - assert (Hc : not_lf c = true) by (unfold not_lf; now rewrite E).
    inversion IH as [|l [Hne Hl]|l ls (b & -> & Hb) Hls].
    + apply ok_last. split; [discriminate|]. cbn [forallb]. now rewrite Hc.
    + apply ok_last. split; [discriminate|]. cbn [forallb]. now rewrite Hc, Hl.
    + apply ok_cons; [|exact Hls]. exists (c :: b). split; [reflexivity|].
      cbn [forallb]. now rewrite Hc, Hb.
Qed.

Lemma readlines_go_of_lines (ls : list (list ascii)) :
  lines_ok ls -> Py.readlines_go (concat ls) = ls.
Proof.
  induction 1 as [|l Hl|l ls (b & -> & Hb) Hls IH]; cbn [concat].
  - reflexivity.
  - rewrite app_nil_r. now apply readlines_go_last.
  - rewrite <- app_assoc. cbn [app]. rewrite readlines_go_line by exact Hb.
    now rewrite IH.
Qed.

Lemma lines_ok_set_item (ls : list (list ascii)) :
  lines_ok ls ->
  forall (i : nat) (l v : list ascii),
    nth_error ls i = Some l ->
    (full_line l -> full_line v) -> (last_line l -> last_line v) ->
    lines_ok (Py.set_item ls i v).
Proof.
  induction 1 as [|l0 Hl|l0 ls Hl Hls IH]; intros i l v Hi Hf Hlast.
  - destruct i; discriminate.
  - destruct i as [|i]; cbn [Py.set_item].
    + injection Hi as ->. apply ok_last. now apply Hlast.
    + destruct i; discriminate.
  - destruct i as [|i]; cbn [Py.set_item].
    + injection Hi as ->. apply ok_cons; [now apply Hf|exact Hls].
    + apply ok_cons; [exact Hl|]. eapply IH; eassumption.
Qed.

(** ** A substitution inside one line *)

Lemma expand_nonempty (tpl : list Re.titem) (cs : list (nat * list ascii)) :
  has_literal tpl = true -> Re.expand tpl cs <> [].
Proof.
  induction tpl as [|[c|n] tpl IH]; cbn [has_literal existsb Re.expand].
  - discriminate.
  - intros _. discriminate.
  - intros H E. apply app_eq_nil in E. destruct E as [_ E]. now apply IH.
Qed.

Lemma match_needs_nonempty (d : bool) (c : ascii) (r : Re.regex)
    (prev : option ascii) (m tail : list ascii) (st : Re.mstate) :
  needs c r = true ->
  Re.match_here d r prev (m ++ tail) = Some st \/
  Re.match_here_nonempty d r prev (m ++ tail) = Some st ->
  Re.rest st = tail -> m <> [].
Proof.
  intros Hn Hm Hrest.
  assert (exists st' m', m ++ tail = m' ++ Re.rest st' /\ In c m' /\ st' = st)
    as (st' & m' & E & Hin & ->).
  { unfold Re.match_here, Re.match_here_nonempty in Hm.
    destruct Hm as [Hm|Hm];
      destruct (run_needs d c r Hn _ _ _ Hm) as (st' & m' & E & Hin & Hk);
      exists st', m'; cbn [Re.rest] in E; repeat split; auto.
    - now injection Hk.
    - destruct (_ <? _); [now injection Hk|discriminate]. }
  rewrite Hrest in E. apply app_inv_tail in E. subst m'.
  intros ->. contradiction.
Qed.

Lemma decomposes_within_line (c : ascii) (r : Re.regex) (tpl : list Re.titem)
    (prev : option ascii) (s : list ascii) (ps : list piece) :
  chars_in not_lf false r = true -> template_in not_lf tpl = true ->
  has_literal tpl = true -> needs c r = true ->
  decomposes false r tpl prev s ps -> Forall piece_within_line ps.
Proof.
  intros Hr Ht Hl Hn Hd.
  pose proof (decomposes_in _ _ _ _ _ _ _ Hr Ht Hd) as Hin.
  induction Hd as [prev|prev a t ps Hd IH|prev m tail st ps Hm Hrest Hd IH].
  - constructor.
  - constructor; [exact I|]. apply IH. now apply Forall_inv_tail in Hin.
  - constructor; [|apply IH; now apply Forall_inv_tail in Hin].
    apply Forall_inv in Hin. destruct Hin as [Hmm Ho].
    repeat split; try assumption.
    + eapply match_needs_nonempty; eassumption.
    + now apply expand_nonempty.
Qed.

Lemma pieces_source_nonempty (ps : list piece) :
  Forall piece_within_line ps -> ps <> [] -> flat_map piece_source ps <> [].
Proof.
  intros H Hne. destruct ps as [|p ps]; [contradiction|].
  apply Forall_inv in H. cbn [flat_map].
  destruct p as [a|m out]; [discriminate|].
  destruct H as [Hm _]. intros E. apply app_eq_nil in E. now destruct E.
Qed.

Lemma pieces_output_nonempty (ps : list piece) :
  Forall piece_within_line ps -> ps <> [] -> flat_map piece_output ps <> [].
Proof.
  intros H Hne. destruct ps as [|p ps]; [contradiction|].
  apply Forall_inv in H. cbn [flat_map].
  destruct p as [a|m out]; [discriminate|].
  destruct H as (_ & Ho & _). intros E. apply app_eq_nil in E. now destruct E.
Qed.

Lemma pieces_ends_lf (ps : list piece) :
  Forall piece_within_line ps ->
  ends_lf (flat_map piece_output ps) = ends_lf (flat_map piece_source ps).
Proof.
  induction 1 as [|p ps Hp Hps IH]; [reflexivity|]. cbn [flat_map].
  destruct ps as [|q ps].
  - cbn [flat_map]. rewrite !app_nil_r.
    destruct p as [a|m out]; [reflexivity|].
    destruct Hp as (_ & _ & Hm & Ho). cbn [piece_output piece_source].
    now rewrite !ends_lf_none.
  - rewrite !ends_lf_app; [exact IH| |].
    + apply pieces_source_nonempty; [exact Hps|discriminate].
    + apply pieces_output_nonempty; [exact Hps|discriminate].
Qed.

Lemma sub_go_line (c : ascii) (r : Re.regex) (tpl : list Re.titem)
    (l : list ascii) :
  chars_in not_lf false r = true -> template_in not_lf tpl = true ->
  has_literal tpl = true -> needs c r = true ->
  (full_line l -> full_line (Re.sub_go false r tpl 0 None l)) /\
  (last_line l -> last_line (Re.sub_go false r tpl 0 None l)).
Proof.
  intros Hr Ht Hl Hn.
  pose proof (sub_go_count_lf r tpl None l Hr Ht) as Hcount.
  destruct (sub_go_decomposes false r tpl (length l) l None (le_n _))
    as (ps & Hd & E).
  pose proof (decomposes_within_line c _ _ _ _ _ Hr Ht Hl Hn Hd) as Hps.
  pose proof (pieces_ends_lf ps Hps) as Hends.
  pose proof (decomposes_source _ _ _ _ _ _ Hd) as Hsrc.
  rewrite <- E, Hsrc in Hends.
  split.
  - rewrite !full_line_iff. intros [H1 H2]. now rewrite Hends, Hcount.
  - rewrite !last_line_iff. intros [H1 H2]. split; [|now rewrite Hcount].
    rewrite E. apply pieces_output_nonempty; [exact Hps|].
    intros ->. apply H1. now rewrite <- Hsrc.
Qed.

Lemma sub_line (pr : string * string) (l : string) :
  within_line pr = true ->
  (full_line (list_ascii_of_string l) ->
   full_line (list_ascii_of_string (Re.sub (fst pr) (snd pr) l))) /\
  (last_line (list_ascii_of_string l) ->
   last_line (list_ascii_of_string (Re.sub (fst pr) (snd pr) l))).
Proof.
  unfold within_line, Re.sub, Re.sub_flags.
  destruct (Re.compile (fst pr)) as [r|]; [|auto].
  intros H. apply andb_true_iff in H. destruct H as [H H4].
  apply andb_true_iff in H. destruct H as [H H3].
  apply andb_true_iff in H. destruct H as [H1 H2].
  rewrite string_list_roundtrip.
  apply orb_true_iff in H4. destruct H4 as [H4|H4];
    eapply sub_go_line; eassumption.
Qed.

Lemma apply_subs_line (subs : list (string * string)) :
  forallb within_line subs = true ->
  forall l : string,
    (full_line (list_ascii_of_string l) ->
     full_line (list_ascii_of_string (apply_subs subs l))) /\
    (last_line (list_ascii_of_string l) ->
     last_line (list_ascii_of_string (apply_subs subs l))).
Proof.
  unfold apply_subs. induction subs as [|pr subs IH]; intros H l;
    cbn [fold_left]; [auto|].
  cbn [forallb] in H. apply andb_true_iff in H. destruct H as [H1 H2].
  destruct (sub_line pr l H1) as [F1 L1].
  destruct (IH H2 (Re.sub (fst pr) (snd pr) l)) as [F2 L2].
  split; auto.
Qed.

(** ** The loop of fix_bigint_fields.py *)

Lemma map_set_item {A B : Type} (f : A -> B) (l : list A) (i : nat) (v : A) :
  map f (Py.set_item l i v) = Py.set_item (map f l) i (f v).
Proof.
  revert i. induction l as [|x l IH]; intros [|i]; cbn [Py.set_item map];
    try reflexivity. now rewrite IH.
Qed.

Lemma bigint_loop_lines_ok (idxs : list nat) (lines : list string) :
  lines_ok (map list_ascii_of_string lines) ->
  lines_ok (map list_ascii_of_string
    (fold_left
       (fun ls i =>
          match nth_error ls i with
          | Some line => Py.set_item ls i (fix_bigint_fields.fix_line line)
          | None => ls
          end) idxs lines)).
Proof.
  revert lines. induction idxs as [|i idxs IH]; intros lines H;
    cbn [fold_left]; [exact H|].
  apply IH. destruct (nth_error lines i) as [line|] eqn:E; [|exact H].
  rewrite map_set_item.
  assert (Hw : forallb within_line fix_bigint_fields.subs = true)
    by (vm_compute; reflexivity).
  destruct (apply_subs_line _ Hw line) as [F L].
  eapply lines_ok_set_item; [exact H| |exact F|exact L].
  rewrite nth_error_map, E. reflexivity.
Qed.

Lemma readlines_writelines (lines : list string) :
  lines_ok (map list_ascii_of_string lines) ->
  Py.readlines (Py.writelines lines) = lines.
Proof.
  intros H. unfold Py.readlines, Py.writelines.
  assert (E : map string_of_list_ascii (map list_ascii_of_string lines) = lines).
  { rewrite map_map. rewrite <- (map_id lines) at 2.
    apply map_ext. intros s. apply string_of_list_ascii_of_string. }
  replace (String.concat EmptyString lines)
    with (string_of_list_ascii (concat (map list_ascii_of_string lines))).
  - rewrite string_list_roundtrip, readlines_go_of_lines by exact H. exact E.
  - rewrite <- string_concat_empty_map. now rewrite E.
Qed.

(** X7.  The text fix_bigint_fields.py writes reads back as the lines its
    loop produced: a rewritten line is never empty and holds a line feed
    only at its end, as the line read did, so [readlines] cuts the new
    text where the loop left it.  The file keeps its number of lines. *)
Theorem bigint_rewrite_reads_back (content : string) :
  Py.readlines (fix_bigint_fields.rewrite content)
  = fix_bigint_fields.loop (Py.readlines content) /\
  length (Py.readlines (fix_bigint_fields.rewrite content))
  = length (Py.readlines content).
Proof.
  assert (E : Py.readlines (fix_bigint_fields.rewrite content)
              = fix_bigint_fields.loop (Py.readlines content)).
  { unfold fix_bigint_fields.rewrite. apply readlines_writelines.
    unfold fix_bigint_fields.loop. apply bigint_loop_lines_ok.
    unfold Py.readlines. rewrite map_map.
    rewrite (map_ext _ (fun l => l)) by (intros l; apply string_list_roundtrip).
    rewrite map_id. apply readlines_go_ok. }
  split; [exact E|]. rewrite E.
  unfold fix_bigint_fields.loop.
  apply (bigint_loop_generic _ (Py.readlines content)).
Qed.

(* ================================================================== *)
(** * Negative look-aheads after a word boundary *)
(* ================================================================== *)

Lemma star_loop_ext
    (body : Re.mstate -> (Re.mstate -> option Re.mstate) -> option Re.mstate)
    (k1 k2 : Re.mstate -> option Re.mstate) :
  (forall st k k', (forall st', k st' = k' st') -> body st k = body st k') ->
  (forall st, k1 st = k2 st) ->
  forall (fuel : nat) (st : Re.mstate),
    Re.star_loop body k1 fuel st = Re.star_loop body k2 fuel st.
Proof.
  intros Hbody Hk. induction fuel as [|fuel IH]; intros st.
  - apply Hk.
  - rewrite !star_loop_step.
    rewrite (Hbody st _ (fun st' =>
               if length (Re.rest st') <? length (Re.rest st)
               then Re.star_loop body k2 fuel st' else None)).
    + now rewrite Hk.
    + intros st'. now rewrite IH.
Qed.

Lemma run_ext (d : bool) (r : Re.regex) :
  forall (st : Re.mstate) (k1 k2 : Re.mstate -> option Re.mstate),
    (forall st', k1 st' = k2 st') -> Re.run d r st k1 = Re.run d r st k2.
Proof.
  induction r as [ |x| |neg items|r1 IH1 r2 IH2|r1 IH1 r2 IH2|r1 IH1
                 |n r1 IH1| | |neg r1 IH1];
    intros st k1 k2 Hk; cbn [Re.run].
  - apply Hk.
  - unfold Re.step_char. destruct (Re.rest st); [reflexivity|].
    destruct (Ascii.eqb x a); [apply Hk|reflexivity].
  - unfold Re.step_char. destruct (Re.rest st); [reflexivity|].
    destruct (d || _); [apply Hk|reflexivity].
  - unfold Re.step_char. destruct (Re.rest st); [reflexivity|].
    destruct (xorb neg _); [apply Hk|reflexivity].
  - apply IH1. intros st'. now apply IH2.
  - rewrite (IH1 st k1 k2 Hk), (IH2 st k1 k2 Hk). reflexivity.
  - apply star_loop_ext; [|exact Hk]. intros st0 k k' H. now apply IH1.
  - apply IH1. intros st'. apply Hk.
  - destruct (xorb _ _); [apply Hk|reflexivity].
  - destruct (Re.before st); [reflexivity|apply Hk].
  - destruct (Re.run d r1 st Some); destruct neg; try reflexivity; apply Hk.
Qed.

Lemma word_start_fails (d : bool) (r : Re.regex) :
  word_start r = true ->
  forall (st : Re.mstate) (k : Re.mstate -> option Re.mstate),
    Re.word_after st = false -> Re.run d r st k = None.
Proof.
  induction r as [ |x| |neg items|r1 IH1 r2 IH2|r1 IH1 r2 IH2|r1 IH1
                 |n r1 IH1| | |neg r1 IH1];
    cbn [word_start]; intros Hw st k Ha; try discriminate; cbn [Re.run].
  - unfold Re.step_char, Re.word_after in *.
    destruct (Re.rest st) as [|a t]; [reflexivity|].
    destruct (Ascii.eqb x a) eqn:E; [|reflexivity].
    apply Ascii.eqb_eq in E. subst a. rewrite Hw in Ha. discriminate.
  - destruct neg; [discriminate|].
    unfold Re.step_char, Re.word_after in *.
    destruct (Re.rest st) as [|a t]; [reflexivity|].
    apply (forallb_all_ascii _ a) in Hw. cbv beta in Hw.
    cbn [xorb]. destruct (existsb _ items); [|reflexivity].
    cbn [implb] in Hw. rewrite Hw in Ha. discriminate.
  - now apply IH1.
  - apply andb_true_iff in Hw. destruct Hw as [H1 H2].
    now rewrite IH1, IH2.
  - now apply IH1.
Qed.

Lemma similar_run (d : bool) (wb : bool) (r r' : Re.regex) :
  similar wb r r' ->
  forall (st : Re.mstate) (k : Re.mstate -> option Re.mstate),
    (wb = true -> Re.word_before st = true) ->
    Re.run d r st k = Re.run d r' st k.
Proof.
  induction 1 as [wb r|wb c r r' Hs IH|wb g r r' Hs IH|R HR]; intros st k Hb.
  - reflexivity.
  - cbn [Re.run]. unfold Re.step_char.
    destruct (Re.rest st) as [|a t]; [reflexivity|].
    destruct (Ascii.eqb c a) eqn:E; [|reflexivity].
    apply Ascii.eqb_eq in E. subst a. apply IH. intros Hc. exact Hc.
  - cbn [Re.run]. apply run_ext. intros st'. apply IH. discriminate.
  - cbn [Re.run]. rewrite (Hb eq_refl). cbn [xorb].
    destruct (Re.word_after st) eqn:Ea; cbn [negb]; [reflexivity|].
    now rewrite (word_start_fails d R HR st Some Ea).
Qed.

Lemma sub_go_ext (d : bool) (r r' : Re.regex) (tpl : list Re.titem) :
  (forall st k, Re.run d r st k = Re.run d r' st k) ->
  forall (s : list ascii) (skip : nat) (prev : option ascii),
    Re.sub_go d r tpl skip prev s = Re.sub_go d r' tpl skip prev s.
Proof.
  intros H. induction s as [|c t IH]; intros skip prev; cbn [Re.sub_go];
    unfold Re.match_here, Re.match_here_nonempty; rewrite !H.
  - reflexivity.
  - destruct skip; [|apply IH].
    destruct (Re.run d r' _ Some) as [st'|]; [|now rewrite IH].
    destruct (_ - _); [|now rewrite IH].
    destruct (Re.run d r' _ _); now rewrite !IH.
Qed.

Lemma sub_without_lookahead (pr : string * string) (code : string) :
  redundant_lookahead pr ->
  Re.sub (fst (without_lookahead pr)) (snd (without_lookahead pr)) code
  = Re.sub (fst pr) (snd pr) code.
Proof.
  intros (r & r' & E & E' & Hs). unfold Re.sub, Re.sub_flags.
  rewrite E, E'. cbn [without_lookahead snd]. f_equal. symmetry.
  apply sub_go_ext. intros st k. apply (similar_run _ _ _ _ Hs). discriminate.
Qed.

Lemma apply_subs_without_lookahead (subs : list (string * string)) :
  Forall redundant_lookahead subs ->
  forall code,
    apply_subs (map without_lookahead subs) code = apply_subs subs code.
Proof.
  unfold apply_subs. induction 1 as [|pr subs Hp _ IH]; intros code;
    cbn [map fold_left]; [reflexivity|].
  rewrite sub_without_lookahead by exact Hp. apply IH.
Qed.

Ltac solve_similar :=
  repeat first [ apply sim_refl
               | apply sim_drop; vm_compute; reflexivity
               | apply sim_lit
               | apply sim_cat ].

Ltac solve_redundant :=
  repeat (apply Forall_cons;
          [ match goal with
            | |- redundant_lookahead ?pr =>
                let r := eval vm_compute in (Re.compile (fst pr)) in
                let r' := eval vm_compute in
                  (Re.compile (fst (without_lookahead pr))) in
                lazymatch r with
                | Some ?a =>
                    lazymatch r' with
                    | Some ?b =>
                        exists a, b;
                        split; [vm_compute; reflexivity|];
                        split; [vm_compute; reflexivity|];
                        solve_similar
                    end
                end
            end
          | ]);
  apply Forall_nil.

(** X8.  The negative look-aheads of the field cascades do nothing.  Each
    of them (the [(?!\w)] of the 8 patterns of fix_bigint_fields.py, those
    of 23 patterns of [apply_all_fixes] and of 2 patterns of Phase 2 of
    [expand_all]) comes right after a [\b] that follows a word character,
    and forbids word characters only, which that [\b] already excludes.
    With the look-aheads cut out of the patterns, each cascade computes
    the same text on every input. *)
Theorem negative_lookaheads_are_redundant (code : string) :
  (apply_subs (map without_lookahead fix_bigint_fields.subs) code
   = fix_bigint_fields.fix_line code /\
   length (with_lookahead fix_bigint_fields.subs) = 8) /\
  (apply_subs (map without_lookahead apply_all_field_fixes.subs) code
   = apply_all_field_fixes.apply_all_fixes code /\
   length (with_lookahead apply_all_field_fixes.subs) = 23) /\
  (apply_subs (map without_lookahead complete_expansion.field_subs) code
   = apply_subs complete_expansion.field_subs code /\
   length (with_lookahead complete_expansion.field_subs) = 2).
Proof.
  assert (H1 : Forall redundant_lookahead fix_bigint_fields.subs).
  { unfold fix_bigint_fields.subs. solve_redundant. }
  assert (H2 : Forall redundant_lookahead apply_all_field_fixes.subs).
  { unfold apply_all_field_fixes.subs, apply_all_field_fixes.subs_specific,
      apply_all_field_fixes.subs_location_chain,
      apply_all_field_fixes.subs_standalone.
    cbn [app]. solve_redundant. }
  assert (H3 : Forall redundant_lookahead complete_expansion.field_subs).
  { unfold complete_expansion.field_subs. solve_redundant. }
  split; [split|split; split].
  - apply apply_subs_without_lookahead. exact H1.
  - vm_compute. reflexivity.
  - apply apply_subs_without_lookahead. exact H2.
  - vm_compute. reflexivity.
  - apply apply_subs_without_lookahead. exact H3.
  - vm_compute. reflexivity.
Qed.

(* ================================================================== *)
(** * Tables that rename whole words *)
(* ================================================================== *)

Lemma text_eqb_eq (a b : list ascii) : text_eqb a b = true <-> a = b.
Proof.
  revert b. induction a as [|x a IH]; intros [|y b]; cbn [text_eqb];
    try (split; [discriminate|discriminate]); [split; reflexivity|].
  rewrite andb_true_iff, Ascii.eqb_eq, IH. split.
  - intros [-> ->]. reflexivity.
  - intros E. injection E as -> ->. auto.
Qed.

Lemma run_word_then_bound (d : bool) (K : list ascii) :
  forall (st : Re.mstate) (k : Re.mstate -> option Re.mstate),
    Re.run d (word_then_bound K) st k
    = if Py.prefix_of K (Re.rest st)
      then
        let st' := Re.MState (prev_after (Re.before st) K)
                             (skipn (length K) (Re.rest st)) (Re.caps st) in
        if xorb (Re.word_before st') (Re.word_after st') then k st' else None
      else None.
Proof.
  induction K as [|c K IH]; intros [b s cs] k.
  - reflexivity.
  - cbn [word_then_bound Re.run]. unfold Re.step_char.
    cbn [Re.rest Re.caps Re.before Py.prefix_of].
    destruct s as [|a t]; [reflexivity|].
    destruct (Ascii.eqb c a) eqn:E; [|reflexivity].
    apply Ascii.eqb_eq in E. subst a. rewrite IH. reflexivity.
Qed.

Section WholeWord.

Variable d : bool.
Variables K R : list ascii.
Hypothesis K_nonempty : K <> [].
Hypothesis K_word : word_text K = true.

Lemma whole_word_inside (p c : ascii) (t : list ascii) :
  Re.is_word p = true -> Re.is_word c = true ->
  Re.match_here d (whole_word K) (Some p) (c :: t) = None.
Proof.
  intros Hp Hc. unfold Re.match_here, whole_word. cbn [Re.run].
  unfold Re.word_before, Re.word_after. cbn [Re.before Re.rest].
  now rewrite Hp, Hc.
Qed.

Lemma whole_word_at_other (prev : option ascii) (c : ascii) (t : list ascii) :
  Re.is_word c = false -> Re.match_here d (whole_word K) prev (c :: t) = None.
Proof.
  intros Hc. unfold Re.match_here, whole_word. cbn [Re.run].
  destruct (xorb _ _); [|reflexivity].
  rewrite run_word_then_bound. cbn [Re.rest].
  destruct K as [|k0 K']; [contradiction|].
  cbn [Py.prefix_of]. destruct (Ascii.eqb k0 c) eqn:E; [|reflexivity].
  apply Ascii.eqb_eq in E. subst c.
  cbn [word_text forallb] in K_word. apply andb_true_iff in K_word.
  destruct K_word as [Hk _]. unfold word_text in *. congruence.
Qed.

Lemma whole_word_at_end (prev : option ascii) :
  Re.match_here d (whole_word K) prev [] = None.
Proof.
  unfold Re.match_here, whole_word. cbn [Re.run].
  destruct (xorb _ _); [|reflexivity].
  rewrite run_word_then_bound. cbn [Re.rest].
  destruct K; [contradiction|reflexivity].
Qed.

Lemma prev_after_word (prev : option ascii) (w : list ascii) :
  w <> [] -> word_text w = true ->
  exists p, prev_after prev w = Some p /\ Re.is_word p = true.
Proof.
  revert prev. induction w as [|c w IH]; intros prev Hne Hw; [contradiction|].
  cbn [prev_after]. unfold word_text in *. cbn [forallb] in Hw.
  apply andb_true_iff in Hw. destruct Hw as [Hc Hw].
  destruct w as [|c' w'].
  - exists c. split; [reflexivity|exact Hc].
  - apply IH; [discriminate|exact Hw].
Qed.

Lemma prefix_of_word (w rest : list ascii) :
  word_text K = true -> word_text w = true -> starts_nonword rest = true ->
  Py.prefix_of K (w ++ rest) = true ->
  Py.prefix_of K w = true.
Proof.
  clear K_nonempty K_word. revert w.
  induction K as [|k0 K' IH]; intros w HK Hw Hrest H; [reflexivity|].
  unfold word_text in *. cbn [forallb] in HK.
  apply andb_true_iff in HK. destruct HK as [Hk HK].
  destruct w as [|c w].
  - cbn [app] in H. destruct rest as [|c rest]; [discriminate|].
    cbn [Py.prefix_of] in H. apply andb_true_iff in H. destruct H as [E _].
    apply Ascii.eqb_eq in E. subst c. cbn [starts_nonword] in Hrest.
    rewrite Hk in Hrest. discriminate.
  - cbn [app Py.prefix_of forallb] in *.
    apply andb_true_iff in H. destruct H as [E H].
    apply andb_true_iff in Hw. destruct Hw as [_ Hw].
    rewrite E. cbn [andb]. now apply IH.
Qed.

(** At the start of a word [w]: a match exactly when [w] is [K]. *)
Lemma whole_word_at_start (prev : option ascii) (w rest : list ascii) :
  w <> [] -> word_text w = true -> starts_nonword rest = true ->
  match prev with Some p => Re.is_word p | None => false end = false ->
  Re.match_here d (whole_word K) prev (w ++ rest)
  = if text_eqb w K
    then Some (Re.MState (prev_after prev K) rest [])
    else None.
Proof.
  intros Hne Hw Hrest Hprev. unfold Re.match_here, whole_word.
  cbn [Re.run]. unfold Re.word_before at 1, Re.word_after at 1.
  cbn [Re.before Re.rest]. rewrite Hprev.
  destruct w as [|c w']; [contradiction|]. cbn [app].
  assert (Hc : Re.is_word c = true).
  { unfold word_text in Hw. cbn [forallb] in Hw.
    now apply andb_true_iff in Hw. }
  rewrite Hc. cbn [xorb]. rewrite run_word_then_bound. cbn [Re.rest Re.before Re.caps].
  change (c :: w' ++ rest) with ((c :: w') ++ rest).
  set (w := c :: w') in *.
  destruct (Py.prefix_of K (w ++ rest)) eqn:Epre.
  - pose proof (prefix_of_word w rest K_word Hw Hrest Epre) as Hkw.
    apply prefix_of_app in Hkw. destruct Hkw as [u Hu].
    rewrite Hu, <- app_assoc, skipn_app, skipn_all, Nat.sub_diag.
    cbn [skipn app]. cbv zeta.
    destruct (prev_after_word prev K K_nonempty K_word) as (p & Ep & Hp).
    unfold Re.word_before, Re.word_after. cbn [Re.before Re.rest].
    rewrite Ep, Hp.
    destruct u as [|c1 u'].
    + cbn [app]. rewrite app_nil_r.
      assert (E : text_eqb K K = true) by now apply text_eqb_eq.
      rewrite E.
      destruct rest as [|c2 rest']; [reflexivity|].
      cbn [starts_nonword] in Hrest. apply negb_true_iff in Hrest.
      now rewrite Hrest.
    + cbn [app].
      assert (Hc1 : Re.is_word c1 = true).
      { rewrite Hu in Hw. unfold word_text in Hw. rewrite forallb_app in Hw.
        apply andb_true_iff in Hw. destruct Hw as [_ Hw].
        cbn [forallb] in Hw. now apply andb_true_iff in Hw. }
      rewrite Hc1. cbn [xorb].
      destruct (text_eqb (K ++ c1 :: u') K) eqn:E; [|reflexivity].
      apply text_eqb_eq in E.
      apply (f_equal (@length ascii)) in E. rewrite length_app in E.
      cbn [length] in E. lia.
  - destruct (text_eqb w K) eqn:E; [|reflexivity].
    apply text_eqb_eq in E. rewrite <- E in Epre.
    assert (Py.prefix_of w (w ++ rest) = true)
      by (apply prefix_of_app; now exists rest).
    congruence.
Qed.

(** Inside a word nothing matches: the word is copied. *)
Lemma whole_word_copies (rest : list ascii) :
  forall (w : list ascii) (p : ascii),
    Re.is_word p = true -> word_text w = true ->
    Re.sub_go d (whole_word K) (map Re.TLit R) 0 (Some p) (w ++ rest)
    = w ++ Re.sub_go d (whole_word K) (map Re.TLit R) 0 (prev_after (Some p) w) rest.
Proof.
  induction w as [|c w IH]; intros p Hp Hw; [reflexivity|].
  unfold word_text in Hw. cbn [forallb] in Hw.
  apply andb_true_iff in Hw. destruct Hw as [Hc Hw].
  cbn [app]. rewrite sub_go_miss by (now apply whole_word_inside).
  cbn [prev_after]. now rewrite IH.
Qed.

Lemma rename_word_go_word (rest : list ascii) :
  forall (w acc : list ascii),
    word_text w = true ->
    rename_word_go K R acc (w ++ rest) = rename_word_go K R (acc ++ w) rest.
Proof.
  induction w as [|c w IH]; intros acc Hw.
  - now rewrite app_nil_r.
  - unfold word_text in Hw. cbn [forallb] in Hw.
    apply andb_true_iff in Hw. destruct Hw as [Hc Hw].
    cbn [app rename_word_go]. rewrite Hc, IH by exact Hw.
    now rewrite <- app_assoc.
Qed.

Lemma rename_word_go_flush (acc rest : list ascii) :
  starts_nonword rest = true ->
  rename_word_go K R acc rest
  = (if text_eqb acc K then R else acc) ++ rename_word_go K R [] rest.
Proof.
  destruct rest as [|c t]; cbn [starts_nonword rename_word_go].
  - intros _. destruct K; [contradiction|]. cbn [text_eqb].
    now rewrite app_nil_r.
  - intros Hc. apply negb_true_iff in Hc. rewrite Hc.
    destruct K; [contradiction|]. reflexivity.
Qed.

(** A text starts with a word, possibly empty, that ends where the text
    ends or at a character outside [\w]. *)
Lemma take_word (s : list ascii) :
  exists w rest,
    s = w ++ rest /\ word_text w = true /\ starts_nonword rest = true.
Proof.
  induction s as [|c t (w & rest & E & Hw & Hr)].
  - exists [], []. repeat split.
  - destruct (Re.is_word c) eqn:Hc.
    + exists (c :: w), rest. rewrite E. repeat split; [|exact Hr].
      unfold word_text in *. cbn [forallb]. now rewrite Hc, Hw.
    + exists [], (c :: t). repeat split. cbn [starts_nonword]. now rewrite Hc.
Qed.

Lemma text_eqb_nil_key : text_eqb [] K = false.
Proof. destruct K; [contradiction|reflexivity]. Qed.

Lemma whole_word_renames :
  forall (n : nat) (s : list ascii) (prev : option ascii),
    length s <= n ->
    match prev with Some p => Re.is_word p | None => false end = false
    \/ starts_nonword s = true ->
    Re.sub_go d (whole_word K) (map Re.TLit R) 0 prev s = rename_word_go K R [] s.
Proof.
  induction n as [|n IH]; intros s prev Hlen Hctx.
  - destruct s; [|cbn in Hlen; lia].
    cbn [Re.sub_go rename_word_go]. rewrite whole_word_at_end.
    destruct K; [contradiction|reflexivity].
  - destruct s as [|c t].
    { cbn [Re.sub_go rename_word_go]. rewrite whole_word_at_end.
      destruct K; [contradiction|reflexivity]. }
    cbn [length] in Hlen.
    destruct (Re.is_word c) eqn:Hc.
    + destruct Hctx as [Hprev|Hs];
        [|cbn [starts_nonword] in Hs; rewrite Hc in Hs; discriminate].
      destruct (take_word t) as (w' & rest & E & Hw' & Hrest). subst t.
      assert (Hw : word_text (c :: w') = true).
      { unfold word_text in *. cbn [forallb]. now rewrite Hc, Hw'. }
      assert (Hlr : length rest <= n) by (rewrite length_app in Hlen; lia).
      change (c :: w' ++ rest) with ((c :: w') ++ rest).
      rewrite (rename_word_go_word rest (c :: w') [] Hw).
      change ([] ++ c :: w') with (c :: w').
      rewrite (rename_word_go_flush _ rest Hrest).
      pose proof (whole_word_at_start prev (c :: w') rest ltac:(discriminate)
                    Hw Hrest Hprev) as Hm.
      destruct (text_eqb (c :: w') K) eqn:EK.
      * apply text_eqb_eq in EK.
        rewrite (sub_go_hit d (whole_word K) (map Re.TLit R) prev _ (c :: w') _ Hm)
          by (cbn [Re.rest length]; first [reflexivity | lia]).
        cbn [Re.caps Re.rest]. rewrite expand_literals.
        f_equal. apply IH; [exact Hlr|now right].
      * cbn [app]. rewrite sub_go_miss by exact Hm.
        rewrite (whole_word_copies rest w' c Hc Hw'). cbn [app].
        f_equal. f_equal. apply IH; [exact Hlr|now right].
    + rewrite sub_go_miss by (now apply whole_word_at_other).
      cbn [rename_word_go]. rewrite Hc, text_eqb_nil_key. cbn [app].
      f_equal. apply IH; [lia|]. left. exact Hc.
Qed.

End WholeWord.

Lemma identifier_text (x : string) :
  identifier x = true ->
  list_ascii_of_string x <> [] /\ word_text (list_ascii_of_string x) = true.
Proof. apply identifier_word. Qed.

Lemma sub_whole_word (kv : string * string) (code : string) :
  whole_word_entry kv ->
  Re.sub (fst kv) (snd kv) code = rename_word (key (fst kv)) (snd kv) code.
Proof.
  intros (Hc & Hk & Ht). unfold Re.sub, Re.sub_flags, rename_word.
  rewrite Hc, Ht. f_equal.
  destruct (identifier_word _ Hk) as [Hne Hw].
  apply (whole_word_renames false _ _ Hne Hw (length (list_ascii_of_string code)));
    [apply le_n|now left].
Qed.

Lemma table_whole_word (table : list (string * string)) :
  Forall whole_word_entry table ->
  forall code,
    fold_left (fun c kv => Re.sub (fst kv) (snd kv) c) table code
    = fold_left (fun c kv => rename_word (key (fst kv)) (snd kv) c) table code.
Proof.
  induction 1 as [|kv table Hkv _ IH]; intros code; cbn [fold_left];
    [reflexivity|].
  rewrite sub_whole_word by exact Hkv. apply IH.
Qed.

Ltac solve_whole_words :=
  repeat (apply Forall_cons;
          [ repeat apply conj; vm_compute; reflexivity | ]);
  apply Forall_nil.

(** X9.  On ASCII text, with the tables [TYPE_NAMES], [ENUM_CONSTANTS]
    and [COMMON_VARS] of reformat.py, [apply_transformations] renames
    tokens: for each entry in turn, every maximal run of the characters
    [A-Za-z0-9_] that is exactly the entry's identifier is replaced by the
    entry's text, and everything else is copied.  An identifier inside a
    longer word is kept; one inside a string literal or a comment is
    renamed like any other.  (Next to a letter outside ASCII, Python's
    [\b] follows Unicode and the pattern does not match.) *)
Theorem tables_rename_whole_words (code : string) :
  Py.isascii code = true ->
  reformat.apply_transformations code reformat.TYPE_NAMES
  = fold_left (fun c kv => rename_word (key (fst kv)) (snd kv) c)
      reformat.TYPE_NAMES code /\
  reformat.apply_transformations code reformat.ENUM_CONSTANTS
  = fold_left (fun c kv => rename_word (key (fst kv)) (snd kv) c)
      reformat.ENUM_CONSTANTS code /\
  reformat.apply_transformations code reformat.COMMON_VARS
  = fold_left (fun c kv => rename_word (key (fst kv)) (snd kv) c)
      reformat.COMMON_VARS code.
Proof.
  assert (H1 : Forall whole_word_entry reformat.TYPE_NAMES).
  { let t := eval vm_compute in reformat.TYPE_NAMES in
    change reformat.TYPE_NAMES with t.
    solve_whole_words. }
  assert (H2 : Forall whole_word_entry reformat.ENUM_CONSTANTS).
  { let t := eval vm_compute in reformat.ENUM_CONSTANTS in
    change reformat.ENUM_CONSTANTS with t.
    solve_whole_words. }
  assert (H3 : Forall whole_word_entry reformat.COMMON_VARS).
  { let t := eval vm_compute in reformat.COMMON_VARS in
    change reformat.COMMON_VARS with t.
    solve_whole_words. }
  intros _. unfold reformat.apply_transformations.
  repeat apply conj; apply table_whole_word; assumption.
Qed.

Lemma tables_rename_whole_words_witness :
  reformat.apply_transformations "U *big; UX u; (S)s" reformat.TYPE_NAMES
  = fold_left (fun c kv => rename_word (key (fst kv)) (snd kv) c)
      reformat.TYPE_NAMES "U *big; UX u; (S)s"%string /\
  reformat.apply_transformations "U *big; UX u; (S)s" reformat.ENUM_CONSTANTS
  = fold_left (fun c kv => rename_word (key (fst kv)) (snd kv) c)
      reformat.ENUM_CONSTANTS "U *big; UX u; (S)s"%string /\
  reformat.apply_transformations "U *big; UX u; (S)s" reformat.COMMON_VARS
  = fold_left (fun c kv => rename_word (key (fst kv)) (snd kv) c)
      reformat.COMMON_VARS "U *big; UX u; (S)s"%string.
Proof.
  apply (tables_rename_whole_words "U *big; UX u; (S)s"). reflexivity.
Defined.

(* ================================================================== *)
(** * Tables that rename calls *)
(* ================================================================== *)

Lemma prefix_of_call (p : ascii) (rest : list ascii) :
  Re.is_word p = false -> starts_nonword rest = true ->
  forall K w : list ascii,
    word_text K = true -> word_text w = true ->
    Py.prefix_of (K ++ [p]) (w ++ rest) = text_eqb w K && head_is p rest.
Proof.
  intros Hp Hrest. unfold word_text.
  induction K as [|k K IH]; intros w HK Hw.
  - destruct w as [|c w']; cbn [app text_eqb andb].
    + destruct rest as [|c rest']; cbn [Py.prefix_of head_is]; [reflexivity|].
      now rewrite andb_true_r.
    + cbn [forallb] in Hw. apply andb_true_iff in Hw. destruct Hw as [Hc _].
      cbn [Py.prefix_of]. destruct (Ascii.eqb p c) eqn:E; [|reflexivity].
      apply Ascii.eqb_eq in E. subst c. congruence.
  - cbn [forallb] in HK. apply andb_true_iff in HK. destruct HK as [Hk HK].
    destruct w as [|c w']; cbn [app text_eqb andb].
    + destruct rest as [|c rest']; cbn [Py.prefix_of]; [reflexivity|].
      cbn [starts_nonword] in Hrest. apply negb_true_iff in Hrest.
      destruct (Ascii.eqb k c) eqn:E; [|reflexivity].
      apply Ascii.eqb_eq in E. subst c. congruence.
    + cbn [forallb] in Hw. apply andb_true_iff in Hw. destruct Hw as [_ Hw].
      cbn [Py.prefix_of]. rewrite (IH w' HK Hw), (Ascii.eqb_sym k c).
      now rewrite andb_assoc.
Qed.

Lemma prev_after_snoc (prev : option ascii) (a : list ascii) (x : ascii) :
  prev_after prev (a ++ [x]) = Some x.
Proof.
  revert prev. induction a as [|c a IH]; intros prev; [reflexivity|].
  cbn [app prev_after]. apply IH.
Qed.

Section Calls.

Variable d : bool.
Variables K R : list ascii.
Hypothesis K_nonempty : K <> [].
Hypothesis K_word : word_text K = true.

Lemma call_inside (p c : ascii) (t : list ascii) :
  Re.is_word p = true -> Re.is_word c = true ->
  Re.match_here d (call_of K) (Some p) (c :: t) = None.
Proof.
  intros Hp Hc. unfold Re.match_here, call_of. cbn [Re.run].
  unfold Re.word_before, Re.word_after. cbn [Re.before Re.rest].
  now rewrite Hp, Hc.
Qed.

Lemma call_at_other (prev : option ascii) (c : ascii) (t : list ascii) :
  Re.is_word c = false -> Re.match_here d (call_of K) prev (c :: t) = None.
Proof.
  intros Hc. unfold Re.match_here, call_of. cbn [Re.run].
  destruct (xorb _ _); [|reflexivity].
  rewrite run_literal. cbn [Re.rest].
  destruct K as [|k0 K']; [contradiction|].
  cbn [app Py.prefix_of]. destruct (Ascii.eqb k0 c) eqn:E; [|reflexivity].
  apply Ascii.eqb_eq in E. subst c.
  unfold word_text in K_word. cbn [forallb] in K_word.
  apply andb_true_iff in K_word. destruct K_word as [Hk _]. congruence.
Qed.

Lemma call_at_end (prev : option ascii) :
  Re.match_here d (call_of K) prev [] = None.
Proof.
  unfold Re.match_here, call_of. cbn [Re.run].
  destruct (xorb _ _); [|reflexivity].
  rewrite run_literal. cbn [Re.rest].
  destruct K; [contradiction|reflexivity].
Qed.

(** At the start of a word [w]: a match exactly when [w] is [K] and an
    opening parenthesis follows. *)
Lemma call_at_start (prev : option ascii) (w rest : list ascii) :
  w <> [] -> word_text w = true -> starts_nonword rest = true ->
  match prev with Some p => Re.is_word p | None => false end = false ->
  Re.match_here d (call_of K) prev (w ++ rest)
  = if text_eqb w K && head_is "(" rest
    then Some (Re.MState (Some "("%char) (tl rest) [])
    else None.
Proof.
  intros Hne Hw Hrest Hprev. unfold Re.match_here, call_of.
  cbn [Re.run]. unfold Re.word_before, Re.word_after.
  cbn [Re.before Re.rest]. rewrite Hprev.
  destruct w as [|c w']; [contradiction|]. cbn [app].
  assert (Hc : Re.is_word c = true).
  { unfold word_text in Hw. cbn [forallb] in Hw.
    now apply andb_true_iff in Hw. }
  rewrite Hc. cbn [xorb]. rewrite run_literal. cbn [Re.rest Re.before Re.caps].
  change (c :: w' ++ rest) with ((c :: w') ++ rest).
  rewrite (prefix_of_call "(" rest eq_refl Hrest K (c :: w') K_word Hw).
  destruct (text_eqb (c :: w') K) eqn:E; [|reflexivity].
  apply text_eqb_eq in E. rewrite E.
  destruct rest as [|c2 rest']; [reflexivity|]. cbn [head_is andb].
  destruct (Ascii.eqb "(" c2) eqn:E2; [|reflexivity].
  apply Ascii.eqb_eq in E2. subst c2. do 2 f_equal.
  - clear. induction K as [|k K' IH] in prev |- *; [reflexivity|].
    cbn [app prev_after]. apply IH.
  - rewrite length_app, skipn_app, skipn_all2 by (cbn [length]; lia).
    replace (length K + length ["("%char] - length K) with 1
      by (cbn [length]; lia).
    reflexivity.
Qed.

Lemma call_copies (rest : list ascii) :
  forall (w : list ascii) (p : ascii),
    Re.is_word p = true -> word_text w = true ->
    Re.sub_go d (call_of K) (map Re.TLit R) 0 (Some p) (w ++ rest)
    = w ++ Re.sub_go d (call_of K) (map Re.TLit R) 0 (prev_after (Some p) w) rest.
Proof.
  induction w as [|c w IH]; intros p Hp Hw; [reflexivity|].
  unfold word_text in Hw. cbn [forallb] in Hw.
  apply andb_true_iff in Hw. destruct Hw as [Hc Hw].
  cbn [app]. rewrite sub_go_miss by (now apply call_inside).
  cbn [prev_after]. now rewrite IH.
Qed.

Lemma rename_call_go_word (rest : list ascii) :
  forall (w acc : list ascii),
    word_text w = true ->
    rename_call_go K R acc (w ++ rest) = rename_call_go K R (acc ++ w) rest.
Proof.
  induction w as [|c w IH]; intros acc Hw.
  - now rewrite app_nil_r.
  - unfold word_text in Hw. cbn [forallb] in Hw.
    apply andb_true_iff in Hw. destruct Hw as [Hc Hw].
    cbn [app rename_call_go]. rewrite Hc, IH by exact Hw.
    now rewrite <- app_assoc.
Qed.

Lemma call_renames :
  forall (n : nat) (s : list ascii) (prev : option ascii),
    length s <= n ->
    match prev with Some p => Re.is_word p | None => false end = false
    \/ starts_nonword s = true ->
    Re.sub_go d (call_of K) (map Re.TLit R) 0 prev s = rename_call_go K R [] s.
Proof.
  induction n as [|n IH]; intros s prev Hlen Hctx.
  - destruct s; [|cbn in Hlen; lia].
    cbn [Re.sub_go rename_call_go]. now rewrite call_at_end.
  - destruct s as [|c t].
    { cbn [Re.sub_go rename_call_go]. now rewrite call_at_end. }
    cbn [length] in Hlen.
    destruct (Re.is_word c) eqn:Hc.
    + destruct Hctx as [Hprev|Hs];
        [|cbn [starts_nonword] in Hs; rewrite Hc in Hs; discriminate].
      destruct (take_word t) as (w' & rest & E & Hw' & Hrest). subst t.
      assert (Hw : word_text (c :: w') = true).
      { unfold word_text in *. cbn [forallb]. now rewrite Hc, Hw'. }
      assert (Hlr : length rest <= n) by (rewrite length_app in Hlen; lia).
      change (c :: w' ++ rest) with ((c :: w') ++ rest).
      rewrite (rename_call_go_word rest (c :: w') [] Hw).
      change ([] ++ c :: w') with (c :: w').
      pose proof (call_at_start prev (c :: w') rest ltac:(discriminate)
                    Hw Hrest Hprev) as Hm.
      destruct (text_eqb (c :: w') K && head_is "(" rest) eqn:EK.
      * apply andb_true_iff in EK. destruct EK as [EK Eh].
        destruct rest as [|c2 rest']; [discriminate|]. cbn [head_is] in Eh.
        pose proof Eh as Eh'. apply Ascii.eqb_eq in Eh'. subst c2.
        cbn [tl] in Hm.
        rewrite (sub_go_hit d _ _ prev _ ((c :: w') ++ ["("%char]) _ Hm)
          by (cbn [Re.rest]; first [now rewrite <- app_assoc
                                   | rewrite length_app; cbn [length]; lia]).
        cbn [Re.caps Re.rest]. rewrite expand_literals.
        cbn [rename_call_go]. change (Re.is_word "(") with false. cbv iota.
        rewrite EK, Eh. cbn [andb]. f_equal.
        apply IH; [cbn [length] in Hlr; lia|]. left.
        now rewrite prev_after_snoc.
      * cbn [app]. rewrite sub_go_miss by exact Hm.
        rewrite (call_copies rest w' c Hc Hw'). cbn [app].
        destruct rest as [|c2 rest'].
        { cbn [rename_call_go]. rewrite (IH [] _ ltac:(cbn; lia) (or_intror eq_refl)).
          cbn [rename_call_go]. now rewrite app_nil_r. }
        cbn [starts_nonword] in Hrest. apply negb_true_iff in Hrest.
        cbn [rename_call_go]. rewrite Hrest. cbn [head_is] in EK. rewrite EK.
        rewrite (IH (c2 :: rest') _ Hlr) by (right; cbn [starts_nonword]; now rewrite Hrest).
        cbn [rename_call_go]. rewrite Hrest.
        destruct K as [|k0 K0]; [contradiction|]. cbn [text_eqb andb app].
        reflexivity.
    + rewrite sub_go_miss by (now apply call_at_other).
      cbn [rename_call_go]. rewrite Hc.
      rewrite (text_eqb_nil_key K K_nonempty) by exact K_word.
      cbn [andb app]. f_equal. apply IH; [lia|]. left. exact Hc.
Qed.

End Calls.

Lemma sub_call (kv : string * string) (code : string) :
  call_entry kv ->
  Re.sub (fst kv) (snd kv) code = rename_call (key (fst kv)) (snd kv) code.
Proof.
  intros (Hc & Hk & Ht). unfold Re.sub, Re.sub_flags, rename_call.
  rewrite Hc, Ht. f_equal.
  destruct (identifier_word _ Hk) as [Hne Hw].
  apply (call_renames false _ _ Hne Hw (length (list_ascii_of_string code)));
    [apply le_n|now left].
Qed.

Lemma table_calls (table : list (string * string)) :
  Forall call_entry table ->
  forall code,
    fold_left (fun c kv => Re.sub (fst kv) (snd kv) c) table code
    = fold_left (fun c kv => rename_call (key (fst kv)) (snd kv) c) table code.
Proof.
  induction 1 as [|kv table Hkv _ IH]; intros code; cbn [fold_left];
    [reflexivity|].
  rewrite sub_call by exact Hkv. apply IH.
Qed.

(** X10.  On ASCII text, with the table [FUNCTION_NAMES] of reformat.py,
    [apply_transformations] renames calls: for each entry in turn, every
    maximal run of the characters [A-Za-z0-9_] that is exactly the entry's
    identifier and is directly followed by an opening parenthesis is
    replaced, with the parenthesis, by the entry's text.  The same name
    followed by a space, or by anything else, is kept. *)
Theorem function_table_renames_calls (code : string) :
  Py.isascii code = true ->
  reformat.apply_transformations code reformat.FUNCTION_NAMES
  = fold_left (fun c kv => rename_call (key (fst kv)) (snd kv) c)
      reformat.FUNCTION_NAMES code.
Proof.
  assert (H1 : Forall call_entry reformat.FUNCTION_NAMES).
  { let t := eval vm_compute in reformat.FUNCTION_NAMES in
    change reformat.FUNCTION_NAMES with t.
    solve_whole_words. }
  intros _. unfold reformat.apply_transformations. apply table_calls. exact H1.
Qed.

Lemma function_table_renames_calls_witness :
  reformat.apply_transformations "h = sh(s); sh (t); ush(u)"
    reformat.FUNCTION_NAMES
  = fold_left (fun c kv => rename_call (key (fst kv)) (snd kv) c)
      reformat.FUNCTION_NAMES "h = sh(s); sh (t); ush(u)"%string.
Proof.
  apply (function_table_renames_calls "h = sh(s); sh (t); ush(u)").
  reflexivity.
Defined.

(** X11.  On ASCII text, [apply_transformations] of
    expand_identifiers.py returns normally whatever the description, with
    the text renamed token by token: whole words for [TYPE_MAPPINGS] and
    [ENUM_MAPPINGS], names directly followed by an opening parenthesis for
    [FUNCTION_MAPPINGS]. *)
Theorem expand_identifiers_renames_tokens
    (code description : string) (w : IO.world) :
  Py.isascii code = true ->
  IO.result (expand_identifiers.apply_transformations code
               expand_identifiers.TYPE_MAPPINGS description) w
  = IO.Done (fold_left (fun c kv => rename_word (key (fst kv)) (snd kv) c)
               expand_identifiers.TYPE_MAPPINGS code) /\
  IO.result (expand_identifiers.apply_transformations code
               expand_identifiers.ENUM_MAPPINGS description) w
  = IO.Done (fold_left (fun c kv => rename_word (key (fst kv)) (snd kv) c)
               expand_identifiers.ENUM_MAPPINGS code) /\
  IO.result (expand_identifiers.apply_transformations code
               expand_identifiers.FUNCTION_MAPPINGS description) w
  = IO.Done (fold_left (fun c kv => rename_call (key (fst kv)) (snd kv) c)
               expand_identifiers.FUNCTION_MAPPINGS code).
Proof.
  assert (H1 : Forall whole_word_entry expand_identifiers.TYPE_MAPPINGS).
  { let t := eval vm_compute in expand_identifiers.TYPE_MAPPINGS in
    change expand_identifiers.TYPE_MAPPINGS with t.
    solve_whole_words. }
  assert (H2 : Forall whole_word_entry expand_identifiers.ENUM_MAPPINGS).
  { let t := eval vm_compute in expand_identifiers.ENUM_MAPPINGS in
    change expand_identifiers.ENUM_MAPPINGS with t.
    solve_whole_words. }
  assert (H3 : Forall call_entry expand_identifiers.FUNCTION_MAPPINGS).
  { let t := eval vm_compute in expand_identifiers.FUNCTION_MAPPINGS in
    change expand_identifiers.FUNCTION_MAPPINGS with t.
    solve_whole_words. }
  intros _.
  unfold expand_identifiers.apply_transformations, IO.result, IO.bind,
    IO.eprint, IO.ret.
  destruct w as [fs args out err c s env]. cbn [fst].
  split; [|split]; f_equal.
  - apply table_whole_word. exact H1.
  - apply table_whole_word. exact H2.
  - apply table_calls. exact H3.
Qed.

Lemma expand_identifiers_renames_tokens_witness :
  IO.result (expand_identifiers.apply_transformations "FP p = sn(VK_I);"
               expand_identifiers.TYPE_MAPPINGS "Type names") run_one
  = IO.Done (fold_left (fun c kv => rename_word (key (fst kv)) (snd kv) c)
               expand_identifiers.TYPE_MAPPINGS "FP p = sn(VK_I);"%string) /\
  IO.result (expand_identifiers.apply_transformations "FP p = sn(VK_I);"
               expand_identifiers.ENUM_MAPPINGS "Type names") run_one
  = IO.Done (fold_left (fun c kv => rename_word (key (fst kv)) (snd kv) c)
               expand_identifiers.ENUM_MAPPINGS "FP p = sn(VK_I);"%string) /\
  IO.result (expand_identifiers.apply_transformations "FP p = sn(VK_I);"
               expand_identifiers.FUNCTION_MAPPINGS "Type names") run_one
  = IO.Done (fold_left (fun c kv => rename_call (key (fst kv)) (snd kv) c)
               expand_identifiers.FUNCTION_MAPPINGS "FP p = sn(VK_I);"%string).
Proof.
  apply (expand_identifiers_renames_tokens "FP p = sn(VK_I);" "Type names"
           run_one).
  reflexivity.
Defined.

Example rename_word_sample :
  rename_word "FP" "Fat_Pointer" "FP a; FPx b; x_FP c; (FP)d; FP"
  = "Fat_Pointer a; FPx b; x_FP c; (Fat_Pointer)d; Fat_Pointer"%string.
Proof. vm_compute. reflexivity. Qed.

Example rename_call_sample :
  rename_call "sn" "scan_number_literal(" "sn(x); sn (y); isn(z); sn; a+sn(b)"
  = "scan_number_literal(x); sn (y); isn(z); sn; a+scan_number_literal(b)"%string.
Proof. vm_compute. reflexivity. Qed.

(* ================================================================== *)
(** * fix_bigint_fields.py: short files and chains *)
(* ================================================================== *)

Lemma bigint_loop_short (lines : list string) :
  length lines <= fix_bigint_fields.start_line ->
  fix_bigint_fields.loop lines = lines.
Proof.
  intros H. unfold fix_bigint_fields.loop, Py.range.
  replace (Nat.min fix_bigint_fields.end_line (length lines)
           - fix_bigint_fields.start_line) with 0.
  - reflexivity.
  - unfold fix_bigint_fields.start_line, fix_bigint_fields.end_line in *. lia.
Qed.

(** X12.  A file of at most 73 lines ends before the line range of
    fix_bigint_fields.py: the script ends normally and writes the file
    back with exactly the text it read. *)
Theorem bigint_short_file_unchanged (w : IO.world) (content : string) :
  IO.files w fix_bigint_fields.path = Some content ->
  length (Py.readlines content) <= 73 ->
  fix_bigint_fields.rewrite content = content /\
  IO.result fix_bigint_fields.main w = IO.Done tt /\
  IO.files (IO.exec fix_bigint_fields.main w) fix_bigint_fields.path
  = Some content.
Proof.
  intros Hfile Hlen.
  assert (Hrw : fix_bigint_fields.rewrite content = content).
  { unfold fix_bigint_fields.rewrite.
    rewrite bigint_loop_short by exact Hlen.
    apply writelines_readlines. }
  split; [exact Hrw|].
  destruct w as [fs a o e c s v]. cbn [IO.files] in Hfile.
  unfold fix_bigint_fields.main. io_unfold. rewrite Hfile. io_unfold.
  rewrite Hrw. split; [reflexivity|].
  unfold IO.update. now rewrite String.eqb_refl.
Qed.

Lemma bigint_short_file_unchanged_witness :
  fix_bigint_fields.rewrite (repeat_line 3 "u->d = v.n;")
  = repeat_line 3 "u->d = v.n;" /\
  IO.result fix_bigint_fields.main
    (one_file fix_bigint_fields.path (repeat_line 3 "u->d = v.n;") [])
  = IO.Done tt /\
  IO.files (IO.exec fix_bigint_fields.main
              (one_file fix_bigint_fields.path (repeat_line 3 "u->d = v.n;") []))
           fix_bigint_fields.path
  = Some (repeat_line 3 "u->d = v.n;").
Proof.
  apply (bigint_short_file_unchanged
           (one_file fix_bigint_fields.path (repeat_line 3 "u->d = v.n;") [])).
  - reflexivity.
  - vm_compute. lia.
Defined.

(** X13.  The patterns of fix_bigint_fields.py need a word before the
    arrow, and a match consumes that word.  In a chain [x->d->d] the
    first link is renamed and the second, whose base the first match took,
    is not: one pass gives [x->digits->d], and a second pass is needed for
    [x->digits->digits]. *)
Theorem bigint_chain_needs_two_runs (x : string) :
  identifier x = true ->
  fix_bigint_fields.fix_line (x ++ "->d->d = 0;")
  = (x ++ "->digits->d = 0;")%string /\
  fix_bigint_fields.fix_line (x ++ "->digits->d = 0;")
  = (x ++ "->digits->digits = 0;")%string.
Proof.
  intros Hx. split.
  - unfold fix_bigint_fields.fix_line, apply_subs, fix_bigint_fields.subs.
    cbn [fold_left fst snd].
    do 8 word_pass.
    reflexivity.
  - unfold fix_bigint_fields.fix_line, apply_subs, fix_bigint_fields.subs.
    cbn [fold_left fst snd].
    do 8 word_pass.
    reflexivity.
Qed.

Lemma bigint_chain_needs_two_runs_witness :
  fix_bigint_fields.fix_line ("r" ++ "->d->d = 0;")
  = ("r" ++ "->digits->d = 0;")%string /\
  fix_bigint_fields.fix_line ("r" ++ "->digits->d = 0;")
  = ("r" ++ "->digits->digits = 0;")%string.
Proof.
  apply (bigint_chain_needs_two_runs "r"). reflexivity.
Defined.

(* ================================================================== *)
(** * Blank lines before function definitions *)
(* ================================================================== *)

Lemma add_spacing_lines (code : string) :
  Py.split_lines (reformat.add_spacing code)
  = spaced false false (Py.split_lines code).
Proof.
  rewrite add_spacing_spaced.
  destruct (split_lines_ok code) as [Hne Hok].
  apply split_join.
  - apply spaced_nonempty. exact Hne.
  - apply spaced_ok. exact Hok.
Qed.

Lemma spaced_filter (ls : list string) :
  forall ne prev, filter nonblank (spaced ne prev ls) = filter nonblank ls.
Proof.
  induction ls as [|l ls IH]; intros ne prev; cbn [spaced]; [reflexivity|].
  destruct (is_function_definition l).
  - destruct (ne && negb prev); cbn [app filter]; rewrite IH;
      [change (nonblank EmptyString) with false; cbv iota|]; reflexivity.
  - cbn [filter]. now rewrite IH.
Qed.

Lemma spaced_count (ls : list string) :
  forall ne prev,
    length (spaced ne prev ls)
    <= length ls + length (filter is_function_definition ls).
Proof.
  induction ls as [|l ls IH]; intros ne prev; cbn [spaced]; [cbn; lia|].
  cbn [filter].
  destruct (is_function_definition l).
  - specialize (IH true true).
    destruct (ne && negb prev); cbn [app length] in *; lia.
  - specialize (IH true false). cbn [length] in *. lia.
Qed.

(** X14.  [add_spacing] only inserts empty lines: the non-empty lines of
    its result are those of the input, in the same order; the result has
    at least as many lines as the input, and at most one more for each
    function-definition line. *)
Theorem add_spacing_only_inserts_blank_lines (code : string) :
  filter nonblank (Py.split_lines (reformat.add_spacing code))
  = filter nonblank (Py.split_lines code) /\
  length (Py.split_lines code)
  <= length (Py.split_lines (reformat.add_spacing code)) /\
  length (Py.split_lines (reformat.add_spacing code))
  <= length (Py.split_lines code)
     + length (filter is_function_definition (Py.split_lines code)).
Proof.
  rewrite add_spacing_lines. split; [|split].
  - apply spaced_filter.
  - apply spaced_length.
  - apply spaced_count.
Qed.

Lemma spaced_well_spaced (ls : list string) :
  forall (ne prev : bool) (above : option string),
    (ne = false -> above = None) ->
    (prev = true ->
     exists q, above = Some q /\ is_function_definition q = true) ->
    well_spaced above (spaced ne prev ls) = true.
Proof.
  induction ls as [|l ls IH]; intros ne prev above Hne Hprev;
    cbn [spaced]; [reflexivity|].
  destruct (is_function_definition l) eqn:El.
  - assert (Hrest : well_spaced (Some l) (spaced true true ls) = true).
    { apply IH; [discriminate|]. intros _. now exists l. }
    destruct ne, prev; cbn [andb negb app well_spaced].
    + destruct (Hprev eq_refl) as (q & -> & Hq).
      rewrite El, Hq, Hrest. now rewrite orb_true_r.
    + rewrite blank_line_is_no_function, El, Hrest. reflexivity.
    + rewrite (Hne eq_refl), El, Hrest. reflexivity.
    + rewrite (Hne eq_refl), El, Hrest. reflexivity.
  - cbn [well_spaced]. rewrite El. cbn [andb].
    apply IH; [discriminate|discriminate].
Qed.

(** X15.  In the text [add_spacing] returns, every function-definition
    line is the first line, or comes right after an empty line or right
    after another function-definition line. *)
Theorem add_spacing_separates_functions (code : string) :
  well_spaced None (Py.split_lines (reformat.add_spacing code)) = true.
Proof.
  rewrite add_spacing_lines.
  apply spaced_well_spaced; [reflexivity|discriminate].
Qed.

(* ================================================================== *)
(** * The files a run touches *)
(* ================================================================== *)

Ltac guards :=
  repeat match goal with
         | |- context [Py.contains ?o ?c] =>
             let b := fresh "b" in
             generalize (Py.contains o c); intros b; destruct b
         | |- context [Py.find ?c ?p] =>
             let b := fresh "b" in
             generalize (Py.find c p); intros b; destruct b
         end.

Lemma update_other (fs : string -> option string) (path text p : string) :
  p <> path -> IO.update fs path text p = fs p.
Proof.
  intros H. unfold IO.update.
  destruct (String.eqb p path) eqn:E; [|reflexivity].
  apply String.eqb_eq in E. contradiction.
Qed.

Ltac other_files Hp :=
  let fs := fresh "fs" in
  intros [fs ? ? ? ? ? ?]; io_unfold;
  match goal with
  | |- context [fs ?path] => destruct (fs path)
  end;
  io_unfold; guards; io_unfold;
  first [reflexivity | apply update_other; exact Hp].

(** X16.  The thirteen scripts that rewrite [ada83.c] in place touch no
    other file: after a run, whether it succeeded or not, every other path
    holds what it held before. *)
Theorem in_place_scripts_touch_one_file (w : IO.world) (p : string) :
  p <> "ada83.c"%string ->
  p <> ada83_c ->
  IO.files (IO.exec fix_bigint_fields.main w) p = IO.files w p /\
  IO.files (IO.exec fix_string_slice_fields.main w) p = IO.files w p /\
  IO.files (IO.exec fix_source_location.main w) p = IO.files w p /\
  IO.files (IO.exec apply_all_field_fixes.main w) p = IO.files w p /\
  IO.files (IO.exec fix_npd.main w) p = IO.files w p /\
  IO.files (IO.exec fix_nfd.main w) p = IO.files w p /\
  IO.files (IO.exec fix_declarations_out.main w) p = IO.files w p /\
  IO.files (IO.exec fix_pragma_out.main w) p = IO.files w p /\
  IO.files (IO.exec fix_pragma_out_v3.main w) p = IO.files w p /\
  IO.files (IO.exec fix_pragma_import_direct.main w) p = IO.files w p /\
  IO.files (IO.exec fix_call_frame.main w) p = IO.files w p /\
  IO.files (IO.exec fix_sp_fallback.main w) p = IO.files w p /\
  IO.files (IO.exec fix_pragma_ultra_simple.main w) p = IO.files w p.
Proof.
  intros H1 H2. revert w.
  assert (G1 : forall w, IO.files (IO.exec fix_bigint_fields.main w) p = IO.files w p).
  { unfold fix_bigint_fields.main, fix_bigint_fields.path. other_files H1. }
  assert (G2 : forall w, IO.files (IO.exec fix_string_slice_fields.main w) p = IO.files w p).
  { unfold fix_string_slice_fields.main, fix_string_slice_fields.path. other_files H1. }
  assert (G3 : forall w, IO.files (IO.exec fix_source_location.main w) p = IO.files w p).
  { unfold fix_source_location.main, fix_source_location.path. other_files H1. }
  assert (G4 : forall w, IO.files (IO.exec apply_all_field_fixes.main w) p = IO.files w p).
  { unfold apply_all_field_fixes.main, apply_all_field_fixes.path. other_files H1. }
  assert (G5 : forall w, IO.files (IO.exec fix_npd.main w) p = IO.files w p).
  { unfold fix_npd.main. other_files H2. }
  assert (G6 : forall w, IO.files (IO.exec fix_nfd.main w) p = IO.files w p).
  { unfold fix_nfd.main. other_files H2. }
  assert (G7 : forall w, IO.files (IO.exec fix_declarations_out.main w) p = IO.files w p).
  { unfold fix_declarations_out.main. other_files H2. }
  assert (G8 : forall w, IO.files (IO.exec fix_pragma_out.main w) p = IO.files w p).
  { unfold fix_pragma_out.main. other_files H2. }
  assert (G9 : forall w, IO.files (IO.exec fix_pragma_out_v3.main w) p = IO.files w p).
  { unfold fix_pragma_out_v3.main. other_files H2. }
  assert (G10 : forall w, IO.files (IO.exec fix_pragma_import_direct.main w) p = IO.files w p).
  { unfold fix_pragma_import_direct.main. other_files H2. }
  assert (G11 : forall w, IO.files (IO.exec fix_call_frame.main w) p = IO.files w p).
  { unfold fix_call_frame.main. other_files H2. }
  assert (G12 : forall w, IO.files (IO.exec fix_sp_fallback.main w) p = IO.files w p).
  { unfold fix_sp_fallback.main. other_files H2. }
  assert (G13 : forall w, IO.files (IO.exec fix_pragma_ultra_simple.main w) p = IO.files w p).
  { unfold fix_pragma_ultra_simple.main. other_files H2. }
  intros w. repeat apply conj; auto.
Qed.

Lemma in_place_scripts_touch_one_file_witness :
  IO.files (IO.exec fix_nfd.main notes_demo) "notes.txt"
  = Some "keep this"%string /\
  IO.files (IO.exec fix_bigint_fields.main notes_demo) "notes.txt"
  = Some "keep this"%string.
Proof.
  pose proof (in_place_scripts_touch_one_file notes_demo "notes.txt"
                ltac:(discriminate) ltac:(discriminate))
    as (H1 & _ & _ & _ & _ & H6 & _).
  split.
  - rewrite H6. reflexivity.
  - rewrite H1. reflexivity.
Defined.

Ltac no_file Hf :=
  let fs := fresh "fs" in
  intros [fs ? ? ? ? ? ?] Hf; cbn [IO.files] in Hf; io_unfold;
  rewrite Hf; repeat split; reflexivity.

(** X17.  When [ada83.c] is missing, each of the thirteen in-place
    scripts stops with [FileNotFoundError] on that path before it has
    written or printed anything: every file is as it was, and so is the
    standard output. *)
Theorem in_place_scripts_missing_file (w : IO.world) :
  IO.files w "ada83.c"%string = None ->
  IO.files w ada83_c = None ->
  (IO.result fix_bigint_fields.main w = IO.Raised (IO.FileNotFoundError "ada83.c") /\
   IO.files (IO.exec fix_bigint_fields.main w) = IO.files w /\
   IO.stdout (IO.exec fix_bigint_fields.main w) = IO.stdout w) /\
  (IO.result fix_string_slice_fields.main w = IO.Raised (IO.FileNotFoundError "ada83.c") /\
   IO.files (IO.exec fix_string_slice_fields.main w) = IO.files w /\
   IO.stdout (IO.exec fix_string_slice_fields.main w) = IO.stdout w) /\
  (IO.result fix_source_location.main w = IO.Raised (IO.FileNotFoundError "ada83.c") /\
   IO.files (IO.exec fix_source_location.main w) = IO.files w /\
   IO.stdout (IO.exec fix_source_location.main w) = IO.stdout w) /\
  (IO.result apply_all_field_fixes.main w = IO.Raised (IO.FileNotFoundError "ada83.c") /\
   IO.files (IO.exec apply_all_field_fixes.main w) = IO.files w /\
   IO.stdout (IO.exec apply_all_field_fixes.main w) = IO.stdout w) /\
  (IO.result fix_npd.main w = IO.Raised (IO.FileNotFoundError ada83_c) /\
   IO.files (IO.exec fix_npd.main w) = IO.files w /\
   IO.stdout (IO.exec fix_npd.main w) = IO.stdout w) /\
  (IO.result fix_nfd.main w = IO.Raised (IO.FileNotFoundError ada83_c) /\
   IO.files (IO.exec fix_nfd.main w) = IO.files w /\
   IO.stdout (IO.exec fix_nfd.main w) = IO.stdout w) /\
  (IO.result fix_declarations_out.main w = IO.Raised (IO.FileNotFoundError ada83_c) /\
   IO.files (IO.exec fix_declarations_out.main w) = IO.files w /\
   IO.stdout (IO.exec fix_declarations_out.main w) = IO.stdout w) /\
  (IO.result fix_pragma_out.main w = IO.Raised (IO.FileNotFoundError ada83_c) /\
   IO.files (IO.exec fix_pragma_out.main w) = IO.files w /\
   IO.stdout (IO.exec fix_pragma_out.main w) = IO.stdout w) /\
  (IO.result fix_pragma_out_v3.main w = IO.Raised (IO.FileNotFoundError ada83_c) /\
   IO.files (IO.exec fix_pragma_out_v3.main w) = IO.files w /\
   IO.stdout (IO.exec fix_pragma_out_v3.main w) = IO.stdout w) /\
  (IO.result fix_pragma_import_direct.main w = IO.Raised (IO.FileNotFoundError ada83_c) /\
   IO.files (IO.exec fix_pragma_import_direct.main w) = IO.files w /\
   IO.stdout (IO.exec fix_pragma_import_direct.main w) = IO.stdout w) /\
  (IO.result fix_call_frame.main w = IO.Raised (IO.FileNotFoundError ada83_c) /\
   IO.files (IO.exec fix_call_frame.main w) = IO.files w /\
   IO.stdout (IO.exec fix_call_frame.main w) = IO.stdout w) /\
  (IO.result fix_sp_fallback.main w = IO.Raised (IO.FileNotFoundError ada83_c) /\
   IO.files (IO.exec fix_sp_fallback.main w) = IO.files w /\
   IO.stdout (IO.exec fix_sp_fallback.main w) = IO.stdout w) /\
  (IO.result fix_pragma_ultra_simple.main w = IO.Raised (IO.FileNotFoundError ada83_c) /\
   IO.files (IO.exec fix_pragma_ultra_simple.main w) = IO.files w /\
   IO.stdout (IO.exec fix_pragma_ultra_simple.main w) = IO.stdout w).
Proof.
  intros H1 H2. revert w H1 H2.
  assert (G1 : forall w, IO.files w "ada83.c"%string = None ->
            IO.result fix_bigint_fields.main w = IO.Raised (IO.FileNotFoundError "ada83.c") /\
            IO.files (IO.exec fix_bigint_fields.main w) = IO.files w /\
            IO.stdout (IO.exec fix_bigint_fields.main w) = IO.stdout w).
  { unfold fix_bigint_fields.main, fix_bigint_fields.path. no_file Hf. }
  assert (G2 : forall w, IO.files w "ada83.c"%string = None ->
            IO.result fix_string_slice_fields.main w = IO.Raised (IO.FileNotFoundError "ada83.c") /\
            IO.files (IO.exec fix_string_slice_fields.main w) = IO.files w /\
            IO.stdout (IO.exec fix_string_slice_fields.main w) = IO.stdout w).
  { unfold fix_string_slice_fields.main, fix_string_slice_fields.path. no_file Hf. }
  assert (G3 : forall w, IO.files w "ada83.c"%string = None ->
            IO.result fix_source_location.main w = IO.Raised (IO.FileNotFoundError "ada83.c") /\
            IO.files (IO.exec fix_source_location.main w) = IO.files w /\
            IO.stdout (IO.exec fix_source_location.main w) = IO.stdout w).
  { unfold fix_source_location.main, fix_source_location.path. no_file Hf. }
  assert (G4 : forall w, IO.files w "ada83.c"%string = None ->
            IO.result apply_all_field_fixes.main w = IO.Raised (IO.FileNotFoundError "ada83.c") /\
            IO.files (IO.exec apply_all_field_fixes.main w) = IO.files w /\
            IO.stdout (IO.exec apply_all_field_fixes.main w) = IO.stdout w).
  { unfold apply_all_field_fixes.main, apply_all_field_fixes.path. no_file Hf. }
  assert (G5 : forall w, IO.files w ada83_c = None ->
            IO.result fix_npd.main w = IO.Raised (IO.FileNotFoundError ada83_c) /\
            IO.files (IO.exec fix_npd.main w) = IO.files w /\
            IO.stdout (IO.exec fix_npd.main w) = IO.stdout w).
  { unfold fix_npd.main. no_file Hf. }
  assert (G6 : forall w, IO.files w ada83_c = None ->
            IO.result fix_nfd.main w = IO.Raised (IO.FileNotFoundError ada83_c) /\
            IO.files (IO.exec fix_nfd.main w) = IO.files w /\
            IO.stdout (IO.exec fix_nfd.main w) = IO.stdout w).
  { unfold fix_nfd.main. no_file Hf. }
  assert (G7 : forall w, IO.files w ada83_c = None ->
            IO.result fix_declarations_out.main w = IO.Raised (IO.FileNotFoundError ada83_c) /\
            IO.files (IO.exec fix_declarations_out.main w) = IO.files w /\
            IO.stdout (IO.exec fix_declarations_out.main w) = IO.stdout w).
  { unfold fix_declarations_out.main. no_file Hf. }
  assert (G8 : forall w, IO.files w ada83_c = None ->
            IO.result fix_pragma_out.main w = IO.Raised (IO.FileNotFoundError ada83_c) /\
            IO.files (IO.exec fix_pragma_out.main w) = IO.files w /\
            IO.stdout (IO.exec fix_pragma_out.main w) = IO.stdout w).
  { unfold fix_pragma_out.main. no_file Hf. }
  assert (G9 : forall w, IO.files w ada83_c = None ->
            IO.result fix_pragma_out_v3.main w = IO.Raised (IO.FileNotFoundError ada83_c) /\
            IO.files (IO.exec fix_pragma_out_v3.main w) = IO.files w /\
            IO.stdout (IO.exec fix_pragma_out_v3.main w) = IO.stdout w).
  { unfold fix_pragma_out_v3.main. no_file Hf. }
  assert (G10 : forall w, IO.files w ada83_c = None ->
            IO.result fix_pragma_import_direct.main w = IO.Raised (IO.FileNotFoundError ada83_c) /\
            IO.files (IO.exec fix_pragma_import_direct.main w) = IO.files w /\
            IO.stdout (IO.exec fix_pragma_import_direct.main w) = IO.stdout w).
  { unfold fix_pragma_import_direct.main. no_file Hf. }
  assert (G11 : forall w, IO.files w ada83_c = None ->
            IO.result fix_call_frame.main w = IO.Raised (IO.FileNotFoundError ada83_c) /\
            IO.files (IO.exec fix_call_frame.main w) = IO.files w /\
            IO.stdout (IO.exec fix_call_frame.main w) = IO.stdout w).
  { unfold fix_call_frame.main. no_file Hf. }
  assert (G12 : forall w, IO.files w ada83_c = None ->
            IO.result fix_sp_fallback.main w = IO.Raised (IO.FileNotFoundError ada83_c) /\
            IO.files (IO.exec fix_sp_fallback.main w) = IO.files w /\
            IO.stdout (IO.exec fix_sp_fallback.main w) = IO.stdout w).
  { unfold fix_sp_fallback.main. no_file Hf. }
  assert (G13 : forall w, IO.files w ada83_c = None ->
            IO.result fix_pragma_ultra_simple.main w = IO.Raised (IO.FileNotFoundError ada83_c) /\
            IO.files (IO.exec fix_pragma_ultra_simple.main w) = IO.files w /\
            IO.stdout (IO.exec fix_pragma_ultra_simple.main w) = IO.stdout w).
  { unfold fix_pragma_ultra_simple.main. no_file Hf. }
  intros w H1 H2. repeat apply conj;
    first [ apply G1 | apply G2 | apply G3 | apply G4 | apply G5 | apply G6
          | apply G7 | apply G8 | apply G9 | apply G10 | apply G11 | apply G12
          | apply G13 ]; assumption.
Qed.

Lemma in_place_scripts_missing_file_witness :
  IO.result fix_bigint_fields.main (empty_disk [])
  = IO.Raised (IO.FileNotFoundError "ada83.c") /\
  IO.files (IO.exec fix_bigint_fields.main (empty_disk []))
  = IO.files (empty_disk []) /\
  IO.stdout (IO.exec fix_bigint_fields.main (empty_disk []))
  = IO.stdout (empty_disk []).
Proof.
  apply (in_place_scripts_missing_file (empty_disk [])); reflexivity.
Defined.

(* ================================================================== *)
(** * The scripts that print their result *)
(* ================================================================== *)

Ltac by_argv :=
  let a := fresh "a" in
  intros [? a ? ? ? ? ?]; io_unfold;
  destruct (negb (length a =? 2)); io_unfold;
  [ reflexivity
  | match goal with
    | |- context [?fs (nth 1 a EmptyString)] =>
        destruct (fs (nth 1 a EmptyString))
    end; io_unfold; reflexivity ].

(** X18.  fix_field_accesses.py, reformat.py and expand_identifiers.py
    never write a file: whatever the arguments and the files, the file
    system after a run is the one before it. *)
Theorem stdout_scripts_write_no_file (w : IO.world) :
  IO.files (IO.exec fix_field_accesses.main w) = IO.files w /\
  IO.files (IO.exec reformat.main w) = IO.files w /\
  IO.files (IO.exec expand_identifiers.main w) = IO.files w.
Proof.
  revert w.
  assert (G1 : forall w, IO.files (IO.exec fix_field_accesses.main w) = IO.files w).
  { unfold fix_field_accesses.main. by_argv. }
  assert (G2 : forall w, IO.files (IO.exec reformat.main w) = IO.files w).
  { unfold reformat.main. by_argv. }
  assert (G3 : forall w, IO.files (IO.exec expand_identifiers.main w) = IO.files w).
  { unfold expand_identifiers.main, expand_identifiers.apply_transformations.
    by_argv. }
  intros w. repeat apply conj; auto.
Qed.

Ltac usage Hn :=
  let a := fresh "a" in
  intros [? a ? ? ? ? ?] Hn; cbn [IO.argv] in Hn; io_unfold;
  apply Nat.eqb_neq in Hn; rewrite Hn; io_unfold;
  repeat apply conj; reflexivity.

(** X19.  Called with anything but exactly one argument,
    fix_field_accesses.py, reformat.py and expand_identifiers.py print
    their usage line on the standard error and exit with status 1; they
    print nothing on the standard output and leave the files alone. *)
Theorem stdout_scripts_usage_error (w : IO.world) :
  length (IO.argv w) <> 2 ->
  (IO.result fix_field_accesses.main w = IO.Exit 1 /\
   IO.stderr (IO.exec fix_field_accesses.main w)
   = (IO.stderr w ++ "Usage: python3 fix_field_accesses.py ada83.c" ++ nl)%string /\
   IO.stdout (IO.exec fix_field_accesses.main w) = IO.stdout w /\
   IO.files (IO.exec fix_field_accesses.main w) = IO.files w) /\
  (IO.result reformat.main w = IO.Exit 1 /\
   IO.stderr (IO.exec reformat.main w)
   = (IO.stderr w ++ "Usage: python3 reformat.py input.c" ++ nl)%string /\
   IO.stdout (IO.exec reformat.main w) = IO.stdout w /\
   IO.files (IO.exec reformat.main w) = IO.files w) /\
  (IO.result expand_identifiers.main w = IO.Exit 1 /\
   IO.stderr (IO.exec expand_identifiers.main w)
   = (IO.stderr w ++ "Usage: python3 expand_identifiers.py input.c" ++ nl)%string /\
   IO.stdout (IO.exec expand_identifiers.main w) = IO.stdout w /\
   IO.files (IO.exec expand_identifiers.main w) = IO.files w).
Proof.
  revert w.
  assert (G1 : forall w, length (IO.argv w) <> 2 ->
     IO.result fix_field_accesses.main w = IO.Exit 1 /\
     IO.stderr (IO.exec fix_field_accesses.main w)
     = (IO.stderr w ++ "Usage: python3 fix_field_accesses.py ada83.c" ++ nl)%string /\
     IO.stdout (IO.exec fix_field_accesses.main w) = IO.stdout w /\
     IO.files (IO.exec fix_field_accesses.main w) = IO.files w).
  { unfold fix_field_accesses.main. usage Hn. }
  assert (G2 : forall w, length (IO.argv w) <> 2 ->
     IO.result reformat.main w = IO.Exit 1 /\
     IO.stderr (IO.exec reformat.main w)
     = (IO.stderr w ++ "Usage: python3 reformat.py input.c" ++ nl)%string /\
     IO.stdout (IO.exec reformat.main w) = IO.stdout w /\
     IO.files (IO.exec reformat.main w) = IO.files w).
  { unfold reformat.main. usage Hn. }
  assert (G3 : forall w, length (IO.argv w) <> 2 ->
     IO.result expand_identifiers.main w = IO.Exit 1 /\
     IO.stderr (IO.exec expand_identifiers.main w)
     = (IO.stderr w ++ "Usage: python3 expand_identifiers.py input.c" ++ nl)%string /\
     IO.stdout (IO.exec expand_identifiers.main w) = IO.stdout w /\
     IO.files (IO.exec expand_identifiers.main w) = IO.files w).
  { unfold expand_identifiers.main. usage Hn. }
  intros w Hn. repeat apply conj; first [apply G1 | apply G2 | apply G3]; exact Hn.
Qed.

Lemma stdout_scripts_usage_error_witness :
  IO.result reformat.main (empty_disk ["reformat.py"%string]) = IO.Exit 1 /\
  IO.stderr (IO.exec reformat.main (empty_disk ["reformat.py"%string]))
  = (EmptyString ++ "Usage: python3 reformat.py input.c" ++ nl)%string /\
  IO.stdout (IO.exec reformat.main (empty_disk ["reformat.py"%string]))
  = EmptyString /\
  IO.files (IO.exec reformat.main (empty_disk ["reformat.py"%string]))
  = IO.files (empty_disk ["reformat.py"%string]).
Proof.
  apply (stdout_scripts_usage_error (empty_disk ["reformat.py"%string])).
  cbn. lia.
Defined.

Ltac no_input Ha Hf :=
  let a := fresh "a" in
  let fs := fresh "fs" in
  intros [fs a ? ? ? ? ?] ? ? Ha Hf; cbn [IO.argv IO.files] in Ha, Hf;
  subst a; io_unfold; cbn [length Nat.eqb negb nth]; io_unfold;
  rewrite Hf; repeat split; reflexivity.

(** X20.  Called with the name of a file that does not exist, the three
    scripts stop with [FileNotFoundError] on that name before they have
    printed anything on the standard output; no file is written. *)
Theorem stdout_scripts_missing_file (w : IO.world) (script file : string) :
  IO.argv w = [script; file] ->
  IO.files w file = None ->
  (IO.result fix_field_accesses.main w = IO.Raised (IO.FileNotFoundError file) /\
   IO.files (IO.exec fix_field_accesses.main w) = IO.files w /\
   IO.stdout (IO.exec fix_field_accesses.main w) = IO.stdout w) /\
  (IO.result reformat.main w = IO.Raised (IO.FileNotFoundError file) /\
   IO.files (IO.exec reformat.main w) = IO.files w /\
   IO.stdout (IO.exec reformat.main w) = IO.stdout w) /\
  (IO.result expand_identifiers.main w = IO.Raised (IO.FileNotFoundError file) /\
   IO.files (IO.exec expand_identifiers.main w) = IO.files w /\
   IO.stdout (IO.exec expand_identifiers.main w) = IO.stdout w).
Proof.
  revert w script file.
  assert (G1 : forall w script file,
     IO.argv w = [script; file] -> IO.files w file = None ->
     IO.result fix_field_accesses.main w = IO.Raised (IO.FileNotFoundError file) /\
     IO.files (IO.exec fix_field_accesses.main w) = IO.files w /\
     IO.stdout (IO.exec fix_field_accesses.main w) = IO.stdout w).
  { unfold fix_field_accesses.main. no_input Ha Hf. }
  assert (G2 : forall w script file,
     IO.argv w = [script; file] -> IO.files w file = None ->
     IO.result reformat.main w = IO.Raised (IO.FileNotFoundError file) /\
     IO.files (IO.exec reformat.main w) = IO.files w /\
     IO.stdout (IO.exec reformat.main w) = IO.stdout w).
  { unfold reformat.main. no_input Ha Hf. }
  assert (G3 : forall w script file,
     IO.argv w = [script; file] -> IO.files w file = None ->
     IO.result expand_identifiers.main w = IO.Raised (IO.FileNotFoundError file) /\
     IO.files (IO.exec expand_identifiers.main w) = IO.files w /\
     IO.stdout (IO.exec expand_identifiers.main w) = IO.stdout w).
  { unfold expand_identifiers.main. no_input Ha Hf. }
  intros w script file Ha Hf. repeat apply conj;
    first [eapply G1 | eapply G2 | eapply G3]; eassumption.
Qed.

Lemma stdout_scripts_missing_file_witness :
  IO.result expand_identifiers.main
    (empty_disk ["expand_identifiers.py"; "in.c"]%string)
  = IO.Raised (IO.FileNotFoundError "in.c") /\
  IO.files (IO.exec expand_identifiers.main
              (empty_disk ["expand_identifiers.py"; "in.c"]%string))
  = IO.files (empty_disk ["expand_identifiers.py"; "in.c"]%string) /\
  IO.stdout (IO.exec expand_identifiers.main
               (empty_disk ["expand_identifiers.py"; "in.c"]%string))
  = IO.stdout (empty_disk ["expand_identifiers.py"; "in.c"]%string).
Proof.
  apply (stdout_scripts_missing_file
           (empty_disk ["expand_identifiers.py"; "in.c"]%string)
           "expand_identifiers.py" "in.c"); reflexivity.
Defined.
